(** * Career-Pulse-India: the mobile client's state logic

    A shallow embedding of the screens of the client
    (landing page, login, registration, dashboard, roadmap detail) and of the
    handlers that decide routing, validation and step-completion progress.

    Modelling conventions.
    - A JavaScript string is a [string]; one character stands for one UTF-16
      code unit, so [String.length] is the [.length] of the source.
    - A JavaScript number is a [JSNumber]: a rational standing for a finite
      binary64 value, or one of [Infinity], [-Infinity], [NaN].  Division and
      multiplication follow the IEEE rules for zero divisors and non-finite
      operands, and round their exact result to binary64 (to nearest, ties to
      even, with gradual underflow and overflow to infinity); the sign of
      zero is not kept.
    - An async handler is a computation in the monad [M]: it threads the
      component state and the [World] (credential store, network, alerts,
      console, navigation) and may end in an exception, as a rejected promise
      does.  The behaviour of the environment (a store access that throws, the
      response to a request) is read from schedules held in the [World]. *)

From Stdlib Require Import String Ascii List Bool Arith ZArith QArith Lia.
From Stdlib Require Import Qround Qpower Lqa SpecFloat.
Import ListNotations.
Local Close Scope Q_scope.
Local Open Scope nat_scope.
Local Open Scope string_scope.
Local Open Scope list_scope.

Set Implicit Arguments.

(* ================================================================== *)
(** ** JavaScript values *)

Module JS.

(** Truthiness of a string: only the empty string is falsy. *)
Definition truthy (s : string) : bool := negb (s =? "").

(** Truthiness of a string that may be [undefined] or [null]. *)
Definition truthy_opt (s : option string) : bool :=
  match s with
  | Some v => truthy v
  | None => false
  end.

(** The string read from a property known to hold one. *)
Definition get_string (s : option string) : string :=
  match s with
  | Some v => v
  | None => ""
  end.

(** [Array.prototype.includes] on an array of strings. *)
Definition includes (l : list string) (x : string) : bool :=
  existsb (String.eqb x) l.

(** [String.prototype.includes]: [needle] occurs in [hay]. *)
Fixpoint str_includes (needle hay : string) : bool :=
  if prefix needle hay then true
  else match hay with
       | EmptyString => false
       | String _ rest => str_includes needle rest
       end.

(** [x || d] where [x] may be [undefined] and [truthy_x] is the truthiness of
    a defined value. *)
Definition or_else {A} (is_truthy : A -> bool) (x : option A) (d : A) : A :=
  match x with
  | Some v => if is_truthy v then v else d
  | None => d
  end.

(** [toLowerCase] on ASCII text: the letters [A] to [Z] are lowered, every
    other code unit is kept.  The lowering of letters outside ASCII, which
    the source's [toLowerCase] also performs, is not modelled. *)
Definition lower_ascii (c : ascii) : ascii :=
  let n := nat_of_ascii c in
  if ((65 <=? n) && (n <=? 90))%nat then ascii_of_nat (n + 32) else c.

Fixpoint toLowerCase (s : string) : string :=
  match s with
  | EmptyString => EmptyString
  | String c r => String (lower_ascii c) (toLowerCase r)
  end.

(** The white space [trim] removes, among the code units below 128: the
    space and the controls 9 to 13.  The white space outside ASCII (such as
    U+00A0), which the source's [trim] also removes, is not modelled. *)
Definition is_space (c : ascii) : bool :=
  let n := nat_of_ascii c in
  ((n =? 32) || ((9 <=? n) && (n <=? 13)))%nat.

Fixpoint trimStart (s : string) : string :=
  match s with
  | String c r => if is_space c then trimStart r else s
  | EmptyString => EmptyString
  end.

Fixpoint rev_string (s acc : string) : string :=
  match s with
  | EmptyString => acc
  | String c r => rev_string r (String c acc)
  end.

Definition trim (s : string) : string :=
  rev_string (trimStart (rev_string (trimStart s) "")) "".

End JS.

(* ================================================================== *)
(** ** JavaScript numbers *)

Inductive JSNumber : Type :=
| JFin (q : Q)
| JPosInf
| JNegInf
| JNaN.

Module Num.

(** The number of a length: an integer below [2^32], which binary64 holds
    exactly. *)
Definition of_nat (n : nat) : JSNumber := JFin (inject_Z (Z.of_nat n)).

Definition hundred : JSNumber := JFin 100%Q.
Definition zero : JSNumber := JFin 0%Q.

Definition is_zero (q : Q) : bool := Qeq_bool q 0%Q.
Definition is_neg (q : Q) : bool := negb (Qle_bool 0%Q q).

(** *** Rounding to binary64 *)

Definition pow2 (z : Z) : Q := (2 ^ z)%Q.

(** The exponent of a positive rational: [2^(flog2 x) <= x < 2^(flog2 x + 1)]. *)
Definition flog2 (x : Q) : Z :=
  let c := (Z.log2 (Qnum x) - Z.log2 (Zpos (Qden x)))%Z in
  if Qle_bool (pow2 c) x then c else (c - 1)%Z.

(** The nearest integer, the even one of two at the same distance. *)
Definition round_half_even (s : Q) : Z :=
  let f := Qfloor s in
  match Qcompare (s - inject_Z f) (1 # 2) with
  | Lt => f
  | Gt => (f + 1)%Z
  | Eq => if Z.even f then f else (f + 1)%Z
  end.

(** A positive rational rounded to 53 significant bits, the last bit
    weighing at least [2^-1074]; [None] when the result reaches [2^1024]. *)
Definition round_pos (x : Q) : option Q :=
  let e := Z.max (flog2 x - 52) (-1074) in
  let m := round_half_even (x / pow2 e) in
  let v := (inject_Z m * pow2 e)%Q in
  if Qle_bool (pow2 1024) v then None else Some (Qred v).

(** The binary64 value of an exact result. *)
Definition round64 (x : Q) : JSNumber :=
  match Qcompare x 0 with
  | Eq => JFin 0
  | Gt => match round_pos x with
          | Some v => JFin v
          | None => JPosInf
          end
  | Lt => match round_pos (- x) with
          | Some v => JFin (- v)
          | None => JNegInf
          end
  end.

(** The [/] operator. *)
Definition div (a b : JSNumber) : JSNumber :=
  match a, b with
  | JNaN, _ | _, JNaN => JNaN
  | JFin x, JFin y =>
      if is_zero y then
        if is_zero x then JNaN
        else if is_neg x then JNegInf else JPosInf
      else round64 (x / y)
  | JFin _, (JPosInf | JNegInf) => JFin 0%Q
  | (JPosInf | JNegInf), (JPosInf | JNegInf) => JNaN
  | JPosInf, JFin y => if is_neg y then JNegInf else JPosInf
  | JNegInf, JFin y => if is_neg y then JPosInf else JNegInf
  end.

(** The [*] operator. *)
Definition mul (a b : JSNumber) : JSNumber :=
  match a, b with
  | JNaN, _ | _, JNaN => JNaN
  | JFin x, JFin y => round64 (x * y)
  | JFin x, JPosInf | JPosInf, JFin x =>
      if is_zero x then JNaN else if is_neg x then JNegInf else JPosInf
  | JFin x, JNegInf | JNegInf, JFin x =>
      if is_zero x then JNaN else if is_neg x then JPosInf else JNegInf
  | JPosInf, JPosInf | JNegInf, JNegInf => JPosInf
  | JPosInf, JNegInf | JNegInf, JPosInf => JNegInf
  end.

(** The [<=] operator; every comparison with [NaN] is false. *)
Definition le (a b : JSNumber) : bool :=
  match a, b with
  | JNaN, _ | _, JNaN => false
  | JFin x, JFin y => Qle_bool x y
  | JNegInf, _ => true
  | _, JPosInf => true
  | _, _ => false
  end.

(** The [===] operator. *)
Definition strict_eq (a b : JSNumber) : bool :=
  match a, b with
  | JFin x, JFin y => Qeq_bool x y
  | JPosInf, JPosInf | JNegInf, JNegInf => true
  | _, _ => false
  end.

(** The [>] operator. *)
Definition gt (a b : JSNumber) : bool :=
  match a, b with
  | JNaN, _ | _, JNaN => false
  | _, _ => negb (le a b)
  end.

(** Truthiness: [0] and [NaN] are falsy. *)
Definition truthy (a : JSNumber) : bool :=
  match a with
  | JFin x => negb (is_zero x)
  | JNaN => false
  | _ => true
  end.

Definition is_finite (a : JSNumber) : bool :=
  match a with JFin _ => true | _ => false end.

End Num.

(* ================================================================== *)
(** ** Data model (the interfaces of the screens) *)

Record RoadmapStep : Type := mkStep {
  step_id : string;
  step_title : string;
  step_description : string;
  step_resources : list string;
  step_duration : string }.

Record CareerRoadmap : Type := mkRoadmap {
  roadmap_id : string;
  roadmap_title : string;
  roadmap_stream : string;
  roadmap_description : string;
  steps : list RoadmapStep;
  estimated_duration : string;
  difficulty_level : string }.

Record UserProgress : Type := mkProgress {
  user_id : string;
  career_id : string;
  completed_steps : list string;
  progress_percentage : JSNumber }.

Record User : Type := mkUser {
  id_of_user : string;
  name_of_user : string;
  email_of_user : string;
  selected_stream : option string }.

Definition step_ids (r : CareerRoadmap) : list string :=
  map step_id (steps r).

(** The lists of the model stand for JavaScript arrays, which have fewer
    than [2^32] elements. *)
Definition js_array {A} (l : list A) : Prop :=
  (Z.of_nat (length l) < 2 ^ 32)%Z.

(* ================================================================== *)
(** ** The environment of the handlers *)

(** Keys of the credential store ([AsyncStorage]). *)
Inductive Key : Type := auth_token | user_data.

Definition key_eqb (a b : Key) : bool :=
  match a, b with
  | auth_token, auth_token | user_data, user_data => true
  | _, _ => false
  end.

(** A stored string is either [JSON.stringify u] for a user record [u],
    which is what the application writes under [user_data], or a text
    [Str s] that is read as it is.  [JSON.parse] is modelled on these two
    alone: it gives [u] back on the first and fails on the second.  A stored
    text that is JSON of another shape (such as [{}]), which [JSON.parse]
    accepts, is not modelled. *)
Inductive StoredString : Type :=
| Str (s : string)
| UserJson (u : User).

Definition stored_truthy (v : option StoredString) : bool :=
  match v with
  | None => false
  | Some (Str s) => JS.truthy s
  | Some (UserJson _) => true
  end.

Inductive Exn : Type := StorageError | NetworkError | SyntaxError | TypeError.

(** The decoded body of a response. *)
Inductive ResponseData : Type :=
| DAuth (access_token : string) (user : User)
| DDetail (detail : option string)
| DRoadmaps (l : list CareerRoadmap)
| DRoadmap (r : CareerRoadmap)
| DProgressList (l : list UserProgress)
| DProgress (p : UserProgress)
| DNotJson.

(** What [fetch] does: it rejects, or resolves to a response with its
    [ok] flag. *)
Inductive FetchOutcome : Type :=
| NetThrow
| NetResponse (ok : bool) (data : ResponseData).

Inductive ReqBody : Type :=
| NoBody
| RegisterBody (name email password : string)
| LoginBody (email password : string)
| ProgressBody (career_id step_id : string) (completed : bool)
| StreamBody (stream : string).

(** A request, with its path relative to the configured backend URL. *)
Record Request : Type := mkRequest {
  req_method : string;
  req_path : string;
  req_bearer : option StoredString;
  req_body : ReqBody }.

Inductive Nav : Type :=
| Replace (path : string)
| Push (path : string)
| Back.

Record AlertBox : Type := mkAlert {
  alert_title : string;
  alert_message : string;
  alert_on_ok : list Nav }.

Record World : Type := mkWorld {
  storage : Key -> option StoredString;
  (** schedule of the coming store accesses: [true] makes the access throw *)
  storage_faults : list bool;
  (** schedule of the outcomes of the coming requests *)
  responses : list FetchOutcome;
  (** requests sent so far, oldest first *)
  requests : list Request;
  alerts : list AlertBox;
  console : list string;
  navigation : list Nav }.

(** The router keeps a stack of routes, the current one on top: [replace]
    swaps the top, [push] adds on top, [back] drops the top when there is a
    route below it. *)
Definition route_stack (stack : list string) (n : Nav) : list string :=
  match n, stack with
  | Replace p, _ :: below => p :: below
  | Replace p, [] => [p]
  | Push p, _ => p :: stack
  | Back, _ :: (_ :: _) as below => below
  | Back, _ => stack
  end.

(** The route shown after the router calls [navs], starting from [start]. *)
Definition current_route (start : string) (navs : list Nav) : string :=
  hd start (fold_left route_stack navs [start]).

(* ================================================================== *)
(** ** The monad of handlers *)

Inductive Result (A : Type) : Type :=
| Val (a : A)
| Thrown (e : Exn).
Arguments Thrown {A} e.

Definition M (S A : Type) : Type := S -> World -> Result A * S * World.

Section Monad.
Context {S : Type}.

Definition ret {A} (a : A) : M S A := fun s w => (Val a, s, w).

Definition bind {A B} (m : M S A) (k : A -> M S B) : M S B :=
  fun s w =>
    match m s w with
    | (Val a, s', w') => k a s' w'
    | (Thrown e, s', w') => (Thrown e, s', w')
    end.

Definition throw {A} (e : Exn) : M S A := fun s w => (Thrown e, s, w).

(** [try { m } catch (error) { h error }] *)
Definition try_catch {A} (m : M S A) (h : Exn -> M S A) : M S A :=
  fun s w =>
    match m s w with
    | (Val a, s', w') => (Val a, s', w')
    | (Thrown e, s', w') => h e s' w'
    end.

(** [try { m } finally { f }]: [f] runs on both exits. *)
Definition try_finally {A} (m : M S A) (f : M S unit) : M S A :=
  fun s w =>
    match m s w with
    | (r, s', w') =>
        match f s' w' with
        | (Val _, s'', w'') => (r, s'', w'')
        | (Thrown e, s'', w'') => (Thrown e, s'', w'')
        end
    end.

Definition get_state : M S S := fun s w => (Val s, s, w).
Definition modify (f : S -> S) : M S unit := fun s w => (Val tt, f s, w).

Definition pop_fault (w : World) : bool * World :=
  match storage_faults w with
  | [] => (false, w)
  | b :: rest =>
      (b, mkWorld (storage w) rest (responses w) (requests w) (alerts w)
                  (console w) (navigation w))
  end.

(** [AsyncStorage.getItem] *)
Definition getItem (k : Key) : M S (option StoredString) :=
  fun s w =>
    let (faulty, w') := pop_fault w in
    if faulty then (Thrown StorageError, s, w')
    else (Val (storage w' k), s, w').

(** [AsyncStorage.setItem] *)
Definition setItem (k : Key) (v : StoredString) : M S unit :=
  fun s w =>
    let (faulty, w') := pop_fault w in
    if faulty then (Thrown StorageError, s, w')
    else (Val tt, s,
          mkWorld (fun k' => if key_eqb k' k then Some v else storage w' k')
                  (storage_faults w') (responses w') (requests w')
                  (alerts w') (console w') (navigation w')).

(** [AsyncStorage.removeItem] *)
Definition removeItem (k : Key) : M S unit :=
  fun s w =>
    let (faulty, w') := pop_fault w in
    if faulty then (Thrown StorageError, s, w')
    else (Val tt, s,
          mkWorld (fun k' => if key_eqb k' k then None else storage w' k')
                  (storage_faults w') (responses w') (requests w')
                  (alerts w') (console w') (navigation w')).

(** [fetch]: the request is sent, then the next scheduled outcome decides;
    with nothing scheduled the request is rejected. *)
Definition fetch (r : Request) : M S (bool * ResponseData) :=
  fun s w =>
    let sent := requests w ++ [r] in
    match responses w with
    | NetResponse ok data :: rest =>
        (Val (ok, data), s,
         mkWorld (storage w) (storage_faults w) rest sent (alerts w)
                 (console w) (navigation w))
    | NetThrow :: rest =>
        (Thrown NetworkError, s,
         mkWorld (storage w) (storage_faults w) rest sent (alerts w)
                 (console w) (navigation w))
    | [] =>
        (Thrown NetworkError, s,
         mkWorld (storage w) (storage_faults w) [] sent (alerts w)
                 (console w) (navigation w))
    end.

(** The two halves of [fetch], for a handler that other events can overtake
    while its request is on its way: the request goes out, and later its
    outcome comes in. *)
Definition send_request (r : Request) : M S unit :=
  fun s w =>
    (Val tt, s,
     mkWorld (storage w) (storage_faults w) (responses w) (requests w ++ [r])
             (alerts w) (console w) (navigation w)).

Definition await_response : M S (bool * ResponseData) :=
  fun s w =>
    match responses w with
    | NetResponse ok data :: rest =>
        (Val (ok, data), s,
         mkWorld (storage w) (storage_faults w) rest (requests w) (alerts w)
                 (console w) (navigation w))
    | NetThrow :: rest =>
        (Thrown NetworkError, s,
         mkWorld (storage w) (storage_faults w) rest (requests w) (alerts w)
                 (console w) (navigation w))
    | [] =>
        (Thrown NetworkError, s,
         mkWorld (storage w) (storage_faults w) [] (requests w) (alerts w)
                 (console w) (navigation w))
    end.

(** [Alert.alert] *)
Definition alert_with (title message : string) (on_ok : list Nav) : M S unit :=
  fun s w =>
    (Val tt, s,
     mkWorld (storage w) (storage_faults w) (responses w) (requests w)
             (alerts w ++ [mkAlert title message on_ok])
             (console w) (navigation w)).

Definition alert (title message : string) : M S unit :=
  alert_with title message [].

(** [console.log] and [console.error] *)
Definition console_log (msg : string) : M S unit :=
  fun s w =>
    (Val tt, s,
     mkWorld (storage w) (storage_faults w) (responses w) (requests w)
             (alerts w) (console w ++ [msg]) (navigation w)).

(** [router.replace], [router.push] *)
Definition navigate (n : Nav) : M S unit :=
  fun s w =>
    (Val tt, s,
     mkWorld (storage w) (storage_faults w) (responses w) (requests w)
             (alerts w) (console w) (navigation w ++ [n])).

(** [JSON.parse] of a stored string: see [StoredString] for the stored
    texts that are covered. *)
Definition JSON_parse (v : StoredString) : M S User :=
  match v with
  | UserJson u => ret u
  | Str _ => throw SyntaxError
  end.

End Monad.

Notation "x <- m ;; k" := (bind m (fun x => k))
  (at level 61, m at next level, right associativity).
Notation "m ;;; k" := (bind m (fun _ => k))
  (at level 61, right associativity).

(* ================================================================== *)
(** ** Landing page ([app/index.tsx]) *)

Module Landing.

Definition checkAuthStatus : M unit unit :=
  try_catch
    (token <- getItem auth_token ;;
     if stored_truthy token then navigate (Replace "/dashboard")
     else ret tt)
    (fun _ => console_log "Error checking auth status:").

Definition handleGetStarted : M unit unit := navigate (Push "/auth/login").

End Landing.

(* ================================================================== *)
(** ** Reading a response *)

Section Responses.
Context {S : Type}.

(** [await response.json()]: a body that is not JSON makes it throw. *)
Definition response_json (d : ResponseData) : M S ResponseData :=
  match d with
  | DNotJson => throw SyntaxError
  | _ => ret d
  end.

(** [data.detail] *)
Definition detail_of (d : ResponseData) : option string :=
  match d with
  | DDetail m => m
  | _ => None
  end.

(** [data.access_token] and [data.user] of a successful authentication,
    and likewise the bodies read by the other screens.  The model covers the
    bodies of the shape the server sends; a body of another shape, which
    the source would store as it is, is taken here to make the handler fail
    inside its [try] block. *)
Definition auth_of (d : ResponseData) : M S (string * User) :=
  match d with
  | DAuth tok u => ret (tok, u)
  | _ => throw TypeError
  end.

Definition roadmaps_of (d : ResponseData) : M S (list CareerRoadmap) :=
  match d with
  | DRoadmaps l => ret l
  | _ => throw TypeError
  end.

Definition progress_list_of (d : ResponseData) : M S (list UserProgress) :=
  match d with
  | DProgressList l => ret l
  | _ => throw TypeError
  end.

Definition roadmap_of (d : ResponseData) : M S CareerRoadmap :=
  match d with
  | DRoadmap r => ret r
  | _ => throw TypeError
  end.

Definition progress_of (d : ResponseData) : M S UserProgress :=
  match d with
  | DProgress p => ret p
  | _ => throw TypeError
  end.

End Responses.

(* ================================================================== *)
(** ** Login screen ([app/auth/login.tsx]) *)

Module Login.

Record State : Type := mkState {
  email : string;
  password : string;
  loading : bool;
  showPassword : bool }.

Definition setLoading (b : bool) : M State unit :=
  modify (fun st => mkState (email st) (password st) b (showPassword st)).

Definition checkAuthStatus : M State unit :=
  try_catch
    (token <- getItem auth_token ;;
     if stored_truthy token then navigate (Replace "/dashboard")
     else ret tt)
    (fun _ => console_log "Error checking auth status:").

Definition login_request (st : State) : Request :=
  mkRequest "POST" "/api/auth/login" None
            (LoginBody (JS.toLowerCase (email st)) (password st)).

Definition handleLogin : M State unit :=
  st <- get_state ;;
  if negb (JS.truthy (email st)) || negb (JS.truthy (password st)) then
    alert "Error" "Please fill in all fields"
  else if negb (JS.str_includes "@" (email st)) then
    alert "Error" "Please enter a valid email address"
  else
    setLoading true ;;;
    try_finally
      (try_catch
         (response <- fetch (login_request st) ;;
          data <- response_json (snd response) ;;
          if fst response then
            auth <- auth_of data ;;
            setItem auth_token (Str (fst auth)) ;;;
            setItem user_data (UserJson (snd auth)) ;;;
            if JS.truthy_opt (selected_stream (snd auth))
            then navigate (Replace "/dashboard")
            else navigate (Replace "/stream-selection")
          else
            alert "Login Failed"
                  (JS.or_else JS.truthy (detail_of data) "Invalid credentials"))
         (fun _ =>
            console_log "Login error:" ;;;
            alert "Error" "Network error. Please try again."))
      (setLoading false).

End Login.

(* ================================================================== *)
(** ** Registration screen ([app/auth/register.tsx]) *)

Module Register.

Record State : Type := mkState {
  name : string;
  email : string;
  password : string;
  confirmPassword : string;
  loading : bool }.

Definition setLoading (b : bool) : M State unit :=
  modify (fun st =>
            mkState (name st) (email st) (password st) (confirmPassword st) b).

Definition validateForm : M State bool :=
  st <- get_state ;;
  if negb (JS.truthy (name st)) || negb (JS.truthy (email st))
     || negb (JS.truthy (password st))
     || negb (JS.truthy (confirmPassword st)) then
    alert "Error" "Please fill in all fields" ;;; ret false
  else if (String.length (name st) <? 2)%nat then
    alert "Error" "Name must be at least 2 characters long" ;;; ret false
  else if negb (JS.str_includes "@" (email st)) then
    alert "Error" "Please enter a valid email address" ;;; ret false
  else if (String.length (password st) <? 6)%nat then
    alert "Error" "Password must be at least 6 characters long" ;;; ret false
  else if negb (password st =? confirmPassword st) then
    alert "Error" "Passwords do not match" ;;; ret false
  else ret true.

Definition register_request (st : State) : Request :=
  mkRequest "POST" "/api/auth/register" None
            (RegisterBody (JS.trim (name st))
                          (JS.trim (JS.toLowerCase (email st)))
                          (password st)).

Definition handleRegister : M State unit :=
  valid <- validateForm ;;
  if negb valid then ret tt
  else
    setLoading true ;;;
    st <- get_state ;;
    try_finally
      (try_catch
         (response <- fetch (register_request st) ;;
          data <- response_json (snd response) ;;
          if fst response then
            auth <- auth_of data ;;
            setItem auth_token (Str (fst auth)) ;;;
            setItem user_data (UserJson (snd auth)) ;;;
            alert_with "Success" "Account created successfully!"
                       [Replace "/stream-selection"]
          else
            alert "Registration Failed"
                  (JS.or_else JS.truthy (detail_of data) "Something went wrong"))
         (fun _ =>
            console_log "Registration error:" ;;;
            alert "Error" "Network error. Please try again."))
      (setLoading false).

End Register.

(* ================================================================== *)
(** ** Stream selection screen ([app/stream-selection.tsx]) *)

Module StreamSelection.

Record State : Type := mkState {
  selectedStream : option string;
  loading : bool }.

Definition handleStreamSelect (streamId : string) : M State unit :=
  modify (fun st => mkState (Some streamId) (loading st)).

Definition setLoading (b : bool) : M State unit :=
  modify (fun st => mkState (selectedStream st) b).

(** [parsedUserData.selected_stream = selectedStream] *)
Definition with_stream (u : User) (stream : string) : User :=
  mkUser (id_of_user u) (name_of_user u) (email_of_user u) (Some stream).

Definition stream_request (st : State) (token : option StoredString)
  : Request :=
  mkRequest "PUT" "/api/user/stream" token
            (StreamBody (JS.get_string (selectedStream st))).

Definition handleContinue : M State unit :=
  st <- get_state ;;
  if negb (JS.truthy_opt (selectedStream st)) then
    alert "Error" "Please select a stream to continue"
  else
    setLoading true ;;;
    try_finally
      (try_catch
         (token <- getItem auth_token ;;
          if negb (stored_truthy token) then
            alert "Error" "Authentication required" ;;;
            navigate (Replace "/auth/login")
          else
            response <- fetch (stream_request st token) ;;
            if fst response then
              userData <- getItem user_data ;;
              (if stored_truthy userData then
                 match userData with
                 | Some raw =>
                     parsedUserData <- JSON_parse raw ;;
                     setItem user_data
                             (UserJson
                                (with_stream parsedUserData
                                   (JS.get_string (selectedStream st))))
                 | None => ret tt
                 end
               else ret tt) ;;;
              navigate (Replace "/dashboard")
            else alert "Error" "Failed to update stream preference")
         (fun _ =>
            console_log "Stream selection error:" ;;;
            alert "Error" "Network error. Please try again."))
      (setLoading false).

End StreamSelection.

(* ================================================================== *)
(** ** Dashboard ([app/dashboard.tsx]) *)

Module Dashboard.

Record State : Type := mkState {
  user : option User;
  roadmaps : list CareerRoadmap;
  userProgress : list UserProgress;
  loading : bool;
  refreshing : bool }.

Definition initial : State := mkState None [] [] true false.

Definition setUser (u : User) : M State unit :=
  modify (fun st => mkState (Some u) (roadmaps st) (userProgress st)
                            (loading st) (refreshing st)).
Definition setRoadmaps (l : list CareerRoadmap) : M State unit :=
  modify (fun st => mkState (user st) l (userProgress st)
                            (loading st) (refreshing st)).
Definition setUserProgress (l : list UserProgress) : M State unit :=
  modify (fun st => mkState (user st) (roadmaps st) l
                            (loading st) (refreshing st)).
Definition setLoading (b : bool) : M State unit :=
  modify (fun st => mkState (user st) (roadmaps st) (userProgress st)
                            b (refreshing st)).

Definition fetchRoadmaps (stream : string) (token : option StoredString)
  : M State unit :=
  try_catch
    (response <- fetch (mkRequest "GET" ("/api/roadmaps?stream=" ++ stream)
                                  token NoBody) ;;
     if fst response then
       data <- response_json (snd response) ;;
       l <- roadmaps_of data ;;
       setRoadmaps l
     else ret tt)
    (fun _ => console_log "Error fetching roadmaps:").

Definition fetchUserProgress (token : option StoredString) : M State unit :=
  try_catch
    (response <- fetch (mkRequest "GET" "/api/progress" token NoBody) ;;
     if fst response then
       data <- response_json (snd response) ;;
       l <- progress_list_of data ;;
       setUserProgress l
     else ret tt)
    (fun _ => console_log "Error fetching progress:").

Definition initializeData : M State unit :=
  try_finally
    (try_catch
       (userData <- getItem user_data ;;
        token <- getItem auth_token ;;
        if negb (stored_truthy userData) || negb (stored_truthy token) then
          navigate (Replace "/auth/login")
        else
          match userData with
          | None => ret tt
          | Some raw =>
              parsedUser <- JSON_parse raw ;;
              setUser parsedUser ;;;
              if negb (JS.truthy_opt (selected_stream parsedUser)) then
                navigate (Replace "/stream-selection")
              else
                fetchRoadmaps (JS.get_string (selected_stream parsedUser))
                              token ;;;
                fetchUserProgress token
          end)
       (fun _ =>
          console_log "Initialization error:" ;;;
          alert "Error" "Failed to load data"))
    (setLoading false).

(** [userProgress.find(p => p.career_id === roadmapId)] *)
Definition getProgressForRoadmap (st : State) (roadmapId : string) : JSNumber :=
  match find (fun p => career_id p =? roadmapId) (userProgress st) with
  | Some p =>
      if Num.truthy (progress_percentage p) then progress_percentage p
      else Num.zero
  | None => Num.zero
  end.

Definition setRefreshing (b : bool) : M State unit :=
  modify (fun st => mkState (user st) (roadmaps st) (userProgress st)
                            (loading st) b).

Definition onRefresh : M State unit :=
  setRefreshing true ;;;
  initializeData ;;;
  setRefreshing false.

(** The [onPress] of the "Logout" button of the confirmation that
    [handleLogout] shows. *)
Definition logoutPressed : M State unit :=
  removeItem auth_token ;;;
  removeItem user_data ;;;
  navigate (Replace "/").

Definition navigateToRoadmap (r : CareerRoadmap) : M State unit :=
  navigate (Push ("/roadmap/" ++ roadmap_id r)).

(** [userProgress.filter(p => p.progress_percentage > 0).length] *)
Definition startedCount (st : State) : nat :=
  length (filter (fun p => Num.gt (progress_percentage p) Num.zero)
                 (userProgress st)).

(** [userProgress.filter(p => p.progress_percentage === 100).length] *)
Definition completedCount (st : State) : nat :=
  length (filter (fun p => Num.strict_eq (progress_percentage p) Num.hundred)
                 (userProgress st)).

End Dashboard.

(* ================================================================== *)
(** ** Roadmap detail screen ([app/roadmap/[id].tsx]) *)

Module RoadmapDetail.

Record State : Type := mkState {
  id : string;
  roadmap : option CareerRoadmap;
  userProgress : option UserProgress;
  loading : bool;
  updatingStep : option string }.

Definition setUserProgress (p : option UserProgress) : M State unit :=
  modify (fun st => mkState (id st) (roadmap st) p (loading st)
                            (updatingStep st)).
Definition setUpdatingStep (s : option string) : M State unit :=
  modify (fun st => mkState (id st) (roadmap st) (userProgress st)
                            (loading st) s).

(** [completed ? [...completed_steps, stepId]
               : completed_steps.filter(s => s !== stepId)] *)
Definition updatedSteps (up : UserProgress) (stepId : string)
           (completed : bool) : list string :=
  if completed then completed_steps up ++ [stepId]
  else filter (fun s => negb (s =? stepId)) (completed_steps up).

(** [roadmap?.steps.length || 0] *)
Definition totalSteps (r : option CareerRoadmap) : nat :=
  JS.or_else (fun n => negb (n =? 0)%nat)
             (option_map (fun r => length (steps r)) r) 0.

(** [(updatedSteps.length / totalSteps) * 100] *)
Definition newProgress (updated : list string) (total : nat) : JSNumber :=
  Num.mul (Num.div (Num.of_nat (length updated)) (Num.of_nat total))
          Num.hundred.

(** [{...userProgress, completed_steps: updatedSteps,
      progress_percentage: newProgress}] *)
Definition updatedProgress (r : option CareerRoadmap) (up : UserProgress)
           (stepId : string) (completed : bool) : UserProgress :=
  mkProgress (user_id up) (career_id up)
             (updatedSteps up stepId completed)
             (newProgress (updatedSteps up stepId completed) (totalSteps r)).

Definition progress_request (cl : State) (token : option StoredString)
           (stepId : string) (completed : bool) : Request :=
  mkRequest "POST" "/api/progress" token
            (ProgressBody (id cl) stepId completed).

(** The handler from its first [await] on.  [cl] is the render whose closure
    the handler runs in: [id], [roadmap] and [userProgress] are read from it,
    whatever the state has become in the meantime. *)
Definition toggle_resume (cl : State) (stepId : string) (completed : bool)
  : M State unit :=
  try_finally
    (try_catch
       (token <- getItem auth_token ;;
        if negb (stored_truthy token) then
          alert "Error" "Authentication required"
        else
          response <- fetch (progress_request cl token stepId completed) ;;
          if fst response then
            match userProgress cl with
            | Some up =>
                setUserProgress
                  (Some (updatedProgress (roadmap cl) up stepId completed))
            | None => ret tt
            end
          else alert "Error" "Failed to update progress")
       (fun _ =>
          console_log "Error updating progress:" ;;;
          alert "Error" "Network error occurred"))
    (setUpdatingStep None).

(** The handler run to completion with no other event in between. *)
Definition toggleStepCompletion (stepId : string) (completed : bool)
  : M State unit :=
  cl <- get_state ;;
  setUpdatingStep (Some stepId) ;;;
  toggle_resume cl stepId completed.

(** [userProgress?.completed_steps.includes(stepId) || false] *)
Definition isStepCompleted (st : State) (stepId : string) : bool :=
  match userProgress st with
  | Some up => JS.includes (completed_steps up) stepId || false
  | None => false
  end.

(** [userProgress?.progress_percentage || 0], the value displayed. *)
Definition progressPercentage (st : State) : JSNumber :=
  match userProgress st with
  | Some up =>
      if Num.truthy (progress_percentage up) then progress_percentage up
      else Num.zero
  | None => Num.zero
  end.

(** *** What the screen renders *)

(** The step list is rendered once loading is over and a roadmap is there;
    every step of the list gets a checkbox. *)
Definition renders_step (st : State) (stepId : string) : bool :=
  negb (loading st) &&
  match roadmap st with
  | Some r => JS.includes (step_ids r) stepId
  | None => false
  end.

(** [disabled={updatingStep === step.id}] *)
Definition isUpdating (st : State) (stepId : string) : bool :=
  match updatingStep st with
  | Some s => s =? stepId
  | None => false
  end.

(** [onPress={() => toggleStepCompletion(step.id, !completed)}] *)
Definition onPress (stepId : string) : M State unit :=
  st <- get_state ;;
  toggleStepCompletion stepId (negb (isStepCompleted st stepId)).

(** *** Overlapping handlers

    A press runs the handler until its request is on its way (the read of
    the token is taken to settle at once); the rest runs when the response
    arrives or the request is rejected, possibly after other presses.  The
    two parts are [toggleStepCompletion] cut at its [await fetch]. *)

(** From the token read to the request being sent; the result tells whether
    a response is awaited.  When none is, the handler is over and its
    [finally] has run. *)
Definition toggle_start (cl : State) (stepId : string) (completed : bool)
  : M State bool :=
  sent <- try_catch
            (token <- getItem auth_token ;;
             if negb (stored_truthy token) then
               alert "Error" "Authentication required" ;;; ret false
             else
               send_request (progress_request cl token stepId completed) ;;;
               ret true)
            (fun _ =>
               console_log "Error updating progress:" ;;;
               alert "Error" "Network error occurred" ;;;
               ret false) ;;
  if sent then ret true else setUpdatingStep None ;;; ret false.

(** From the outcome of the request on. *)
Definition toggle_finish (cl : State) (stepId : string) (completed : bool)
  : M State unit :=
  try_finally
    (try_catch
       (response <- await_response ;;
        if fst response then
          match userProgress cl with
          | Some up =>
              setUserProgress
                (Some (updatedProgress (roadmap cl) up stepId completed))
          | None => ret tt
          end
        else alert "Error" "Failed to update progress")
       (fun _ =>
          console_log "Error updating progress:" ;;;
          alert "Error" "Network error occurred"))
    (setUpdatingStep None).

Record Pending : Type := mkPending {
  pend_closure : State;
  pend_step : string;
  pend_completed : bool }.

Record Sys : Type := mkSys {
  screen : State;
  world : World;
  inflight : list Pending }.

Inductive Event : Type :=
| Press (stepId : string)
| Settle (k : nat).

Fixpoint remove_nth {A} (k : nat) (l : list A) : list A :=
  match k, l with
  | _, [] => []
  | O, _ :: rest => rest
  | Datatypes.S k', x :: rest => x :: remove_nth k' rest
  end.

Definition step (sys : Sys) (e : Event) : Sys :=
  match e with
  | Press stepId =>
      let st := screen sys in
      if renders_step st stepId && negb (isUpdating st stepId) then
        match (setUpdatingStep (Some stepId) ;;;
               toggle_start st stepId (negb (isStepCompleted st stepId)))
                st (world sys) with
        | (Val true, st', w') =>
            mkSys st' w'
                  (inflight sys ++
                   [mkPending st stepId (negb (isStepCompleted st stepId))])
        | (_, st', w') => mkSys st' w' (inflight sys)
        end
      else sys
  | Settle k =>
      match nth_error (inflight sys) k with
      | Some p =>
          match toggle_finish (pend_closure p) (pend_step p)
                              (pend_completed p) (screen sys) (world sys) with
          | (_, st', w') => mkSys st' w' (remove_nth k (inflight sys))
          end
      | None => sys
      end
  end.

Definition run (sys : Sys) (events : list Event) : Sys :=
  fold_left step events sys.

(** The steps with a toggle in flight. *)
Definition inflight_steps (sys : Sys) : list string :=
  map pend_step (inflight sys).

(** *** Loading the screen *)

Definition setRoadmap (r : option CareerRoadmap) : M State unit :=
  modify (fun st => mkState (id st) r (userProgress st) (loading st)
                            (updatingStep st)).
Definition setLoading (b : bool) : M State unit :=
  modify (fun st => mkState (id st) (roadmap st) (userProgress st) b
                            (updatingStep st)).

Definition roadmap_request (st : State) (token : option StoredString)
  : Request :=
  mkRequest "GET" ("/api/roadmaps/" ++ id st) token NoBody.

Definition progress_fetch_request (st : State) (token : option StoredString)
  : Request :=
  mkRequest "GET" ("/api/progress/" ++ id st) token NoBody.

Definition fetchRoadmapData : M State unit :=
  st <- get_state ;;
  try_finally
    (try_catch
       (token <- getItem auth_token ;;
        if negb (stored_truthy token) then
          navigate (Replace "/auth/login")
        else
          roadmapResponse <- fetch (roadmap_request st token) ;;
          (if fst roadmapResponse then
             roadmapData <- response_json (snd roadmapResponse) ;;
             r <- roadmap_of roadmapData ;;
             setRoadmap (Some r)
           else ret tt) ;;;
          progressResponse <- fetch (progress_fetch_request st token) ;;
          (if fst progressResponse then
             progressData <- response_json (snd progressResponse) ;;
             p <- progress_of progressData ;;
             setUserProgress (Some p)
           else ret tt))
       (fun _ =>
          console_log "Error fetching roadmap data:" ;;;
          alert "Error" "Failed to load roadmap data"))
    (setLoading false).

(** [useEffect(() => { if (id) { fetchRoadmapData(); } }, [id])] *)
Definition onMount : M State unit :=
  st <- get_state ;;
  if JS.truthy (id st) then fetchRoadmapData else ret tt.

(** [resource.replace(/https?:\/\//, '')], the text shown for a resource:
    the leftmost occurrence of ["https://"] or ["http://"] is cut out. *)
Fixpoint displayResource (s : string) : string :=
  match s with
  | EmptyString => EmptyString
  | String c rest =>
      if prefix "https://" s then substring 8 (String.length s - 8) s
      else if prefix "http://" s then substring 7 (String.length s - 7) s
      else String c (displayResource rest)
  end.

(** [userProgress?.completed_steps.length || 0], the count displayed. *)
Definition completedSteps (st : State) : nat :=
  JS.or_else (fun n => negb (n =? 0)%nat)
             (option_map (fun up => length (completed_steps up))
                         (userProgress st)) 0.

End RoadmapDetail.

(** The state and the world a handler leaves behind. *)
Definition state_after {S A} (m : M S A) (s : S) (w : World) : S :=
  snd (fst (m s w)).
Definition world_after {S A} (m : M S A) (s : S) (w : World) : World :=
  snd (m s w).
Definition result_of {S A} (m : M S A) (s : S) (w : World) : Result A :=
  fst (fst (m s w)).

(** The screen and the world once a toggle has run to completion. *)
Definition toggled (stepId : string) (completed : bool)
           (sw : RoadmapDetail.State * World) : RoadmapDetail.State * World :=
  (state_after (RoadmapDetail.toggleStepCompletion stepId completed)
               (fst sw) (snd sw),
   world_after (RoadmapDetail.toggleStepCompletion stepId completed)
               (fst sw) (snd sw)).

(** *** Outcomes of a toggle, read off the schedules of the world *)

(** The token read succeeds and yields a usable token. *)
Definition token_ready (w : World) : bool :=
  negb (hd false (storage_faults w)) && stored_truthy (storage w auth_token).

(** The request of the toggle gets an [ok] response. *)
Definition response_ok (w : World) : bool :=
  match responses w with
  | NetResponse true _ :: _ => true
  | _ => false
  end.

(** The toggle succeeds: it reaches the local update. *)
Definition toggle_succeeds (w : World) : bool :=
  token_ready w && response_ok w.

(** The request of the toggle fails: a rejection of [fetch] or a response
    that is not [ok]. *)
Definition request_fails (w : World) : bool :=
  token_ready w && negb (response_ok w).

(** The [completed_steps] of the local progress state, when one is loaded. *)
Definition completed_of (st : RoadmapDetail.State) : option (list string) :=
  option_map completed_steps (RoadmapDetail.userProgress st).

(** The [progress_percentage] of the local progress state. *)
Definition percentage_of (st : RoadmapDetail.State) : option JSNumber :=
  option_map progress_percentage (RoadmapDetail.userProgress st).

(** [completed_steps] covers all step ids of the roadmap. *)
Definition covers_all (r : CareerRoadmap) (up : UserProgress) : Prop :=
  forall s, In s (step_ids r) -> In s (completed_steps up).

(** A progress record that fits its roadmap: the step ids of the roadmap are
    unique, and [completed_steps] lists ids of the roadmap, each once. *)
Definition well_formed (r : CareerRoadmap) (up : UserProgress) : Prop :=
  NoDup (step_ids r) /\ NoDup (completed_steps up) /\
  incl (completed_steps up) (step_ids r).

(* ================================================================== *)
(** ** Session bootstrap: the landing page, then the screen it routes to *)

Definition app_start : string := "/".

Definition route_of (w : World) : string :=
  current_route app_start (navigation w).

(** On start the landing page checks the stored token; when that routes to
    the dashboard, the dashboard mounts and initializes.  The run stops
    there: when the dashboard sends the start on to [/auth/login], the mount
    check of the login screen is not run. *)
Definition bootstrap (w : World) : option Dashboard.State * World :=
  match Landing.checkAuthStatus tt w with
  | (_, _, w1) =>
      if route_of w1 =? "/dashboard" then
        match Dashboard.initializeData Dashboard.initial w1 with
        | (_, d, w2) => (Some d, w2)
        end
      else (None, w1)
  end.

(** The [n]-th store access of a run does not throw. *)
Definition read_ok (n : nat) (faults : list bool) : bool :=
  negb (nth n faults false).

(** A world at application start, with the given store and schedules. *)
Definition fresh_world (store : Key -> option StoredString)
           (faults : list bool) (resps : list FetchOutcome) : World :=
  mkWorld store faults resps [] [] [] [].

(** The store holding [token] and [cached]. *)
Definition store_of (token cached : option StoredString)
  : Key -> option StoredString :=
  fun k => match k with auth_token => token | user_data => cached end.

(* ================================================================== *)
(** ** Registration: the validation as the specification words it *)

Definition valid_registration (st : Register.State) : Prop :=
  Register.name st <> "" /\ Register.email st <> "" /\
  Register.password st <> "" /\ Register.confirmPassword st <> "" /\
  2 <= String.length (Register.name st) /\
  JS.str_includes "@" (Register.email st) = true /\
  6 <= String.length (Register.password st) /\
  Register.password st = Register.confirmPassword st.

(* ================================================================== *)
(** ** The invariant of the roadmap screen *)

(** The percentage of a record lies between 0 and 100 and is 100 exactly
    when every step id is completed. *)
Definition percentage_in_range (r : CareerRoadmap) (up : UserProgress) : Prop :=
  Num.le Num.zero (progress_percentage up) = true /\
  Num.le (progress_percentage up) Num.hundred = true /\
  (Num.strict_eq (progress_percentage up) Num.hundred = true
   <-> covers_all r up).

Definition record_ok (r : CareerRoadmap) (up : UserProgress) : Prop :=
  well_formed r up /\ percentage_in_range r up.

(** A toggle in flight was started by a press: on a step of the roadmap,
    towards the negation of its completion in the render it was pressed
    in; [P] holds of the record of that render. *)
Definition pending_inv (P : UserProgress -> Prop) (r : CareerRoadmap)
           (p : RoadmapDetail.Pending) : Prop :=
  RoadmapDetail.roadmap (RoadmapDetail.pend_closure p) = Some r /\
  In (RoadmapDetail.pend_step p) (step_ids r) /\
  RoadmapDetail.pend_completed p =
    negb (RoadmapDetail.isStepCompleted (RoadmapDetail.pend_closure p)
                                        (RoadmapDetail.pend_step p)) /\
  (forall up,
      RoadmapDetail.userProgress (RoadmapDetail.pend_closure p) = Some up ->
      P up).

(** The screen shows roadmap [r], and [P] holds of the record on screen and
    of the records of the toggles in flight. *)
Definition sys_inv (P : UserProgress -> Prop) (r : CareerRoadmap)
           (sys : RoadmapDetail.Sys) : Prop :=
  RoadmapDetail.roadmap (RoadmapDetail.screen sys) = Some r /\
  (forall up,
      RoadmapDetail.userProgress (RoadmapDetail.screen sys) = Some up ->
      P up) /\
  Forall (pending_inv P r) (RoadmapDetail.inflight sys).

Definition pending_ok (r : CareerRoadmap) : RoadmapDetail.Pending -> Prop :=
  pending_inv (record_ok r) r.

Definition sys_ok (r : CareerRoadmap) : RoadmapDetail.Sys -> Prop :=
  sys_inv (record_ok r) r.

(** The same with records that fit the roadmap, whatever their
    percentage. *)
Definition sys_fits (r : CareerRoadmap) : RoadmapDetail.Sys -> Prop :=
  sys_inv (well_formed r) r.

(* ================================================================== *)
(** ** Sample data *)

Definition sample_step (i : string) : RoadmapStep :=
  mkStep i "Step" "What to learn" [] "1 month".

Definition sample_roadmap (ids : list string) : CareerRoadmap :=
  mkRoadmap "career-1" "Full Stack Developer" "Science" "Build web apps"
            (map sample_step ids) "12 months" "Intermediate".

Definition sample_progress (done : list string) (pct : JSNumber)
  : UserProgress :=
  mkProgress "user-1" "career-1" done pct.

(** The roadmap screen showing a roadmap with steps [ids], of which [done]
    are completed. *)
Definition sample_screen (ids done : list string) (pct : JSNumber)
  : RoadmapDetail.State :=
  RoadmapDetail.mkState "career-1" (Some (sample_roadmap ids))
                        (Some (sample_progress done pct)) false None.

(** The roadmap screen with a roadmap but no progress record loaded. *)
Definition sample_screen_no_progress (ids : list string)
  : RoadmapDetail.State :=
  RoadmapDetail.mkState "career-1" (Some (sample_roadmap ids)) None false None.

Definition ok_response : FetchOutcome := NetResponse true (DDetail None).
Definition rejected_response : FetchOutcome :=
  NetResponse false (DDetail (Some "Invalid email or password")).

(** A signed-in world whose coming requests get the outcomes [resps]. *)
Definition signed_in_world (resps : list FetchOutcome) : World :=
  fresh_world (store_of (Some (Str "token-1")) None) [] resps.

(** The roadmap screen at rest, with nothing in flight. *)
Definition sample_sys (ids done : list string) (pct : JSNumber)
           (resps : list FetchOutcome) : RoadmapDetail.Sys :=
  RoadmapDetail.mkSys (sample_screen ids done pct) (signed_in_world resps) [].

(** The steps whose toggle requests have been sent, in order. *)
Definition toggled_steps (w : World) : list (string * bool) :=
  flat_map (fun r => match req_body r with
                     | ProgressBody _ s c => [(s, c)]
                     | _ => []
                     end) (requests w).

Definition sample_user (stream : option string) : User :=
  mkUser "user-1" "Arjun Sharma" "arjun@example.com" stream.

Definition sample_login : Login.State :=
  Login.mkState "Nobody@Example.com" "secret1" false false.

Definition sample_registration (password confirm : string) : Register.State :=
  Register.mkState "Arjun Sharma" "arjun@example.com" password confirm false.

(** A world with nobody signed in. *)
Definition signed_out_world (resps : list FetchOutcome) : World :=
  fresh_world (store_of None None) [] resps.

(** The alert a rejected login ends in, given the body of the response. *)
Definition login_rejection_alert (data : ResponseData) : AlertBox :=
  match data with
  | DNotJson => mkAlert "Error" "Network error. Please try again." []
  | _ => mkAlert "Login Failed"
                 (JS.or_else JS.truthy (detail_of data) "Invalid credentials")
                 []
  end.



(** A signed-out world in which the server accepts the coming
    authentication for [u]. *)
Definition accepting_world (u : User) : World :=
  signed_out_world [NetResponse true (DAuth "token-1" u)].

(** The same, with the second store access failing. *)
Definition half_failing_world (u : User) : World :=
  fresh_world (store_of None None) [false; true]
              [NetResponse true (DAuth "token-1" u)].

Definition sample_selection (s : option string) : StreamSelection.State :=
  StreamSelection.mkState s false.

(** A world whose store holds a token and the cached user [u]. *)
Definition cached_world (u : User) (resps : list FetchOutcome) : World :=
  fresh_world (store_of (Some (Str "token-1")) (Some (UserJson u))) [] resps.

Definition sample_dashboard (l : list UserProgress) : Dashboard.State :=
  Dashboard.mkState (Some (sample_user (Some "Science"))) [] l false false.

(** The roadmap screen as mounted, before anything is loaded. *)
Definition sample_mounting (i : string) : RoadmapDetail.State :=
  RoadmapDetail.mkState i None None true None.

(** A string of [n] blanks. *)
Fixpoint blanks (n : nat) : string :=
  match n with
  | O => EmptyString
  | Datatypes.S k => String " " (blanks k)
  end.

(** The alert a rejected registration ends in, given the body of the
    response. *)
Definition register_rejection_alert (data : ResponseData) : AlertBox :=
  match data with
  | DNotJson => mkAlert "Error" "Network error. Please try again." []
  | _ => mkAlert "Registration Failed"
                 (JS.or_else JS.truthy (detail_of data) "Something went wrong")
                 []
  end.

(* ================================================================== *)
(** ** The percentage in the binary64 arithmetic of the Standard Library

    [SpecFloat] gives the IEEE 754 operations on binary64 values
    ([prec = 53], [emax = 1024]); the percentage of the handler is computed
    here with them, to be compared with [RoadmapDetail.newProgress]. *)

Module Binary64Reference.

Definition of_float (f : spec_float) : JSNumber :=
  match f with
  | S754_zero _ => JFin 0
  | S754_infinity s => if s then JNegInf else JPosInf
  | S754_nan => JNaN
  | S754_finite s m e =>
      JFin (Qred ((if s then -1 else 1) * inject_Z (Zpos m) * Num.pow2 e))
  end.

Definition float_of_nat (n : nat) : spec_float :=
  binary_normalize 53 1024 (Z.of_nat n) 0 false.

(** [(count / total) * 100] *)
Definition percentage (count total : nat) : spec_float :=
  SFmul 53 1024 (SFdiv 53 1024 (float_of_nat count) (float_of_nat total))
        (float_of_nat 100).

(** The same number, [NaN] being the same as [NaN]. *)
Definition same_number (a b : JSNumber) : bool :=
  match a, b with
  | JFin x, JFin y => Qeq_bool x y
  | JPosInf, JPosInf | JNegInf, JNegInf | JNaN, JNaN => true
  | _, _ => false
  end.

(** The percentages of every count below [counts] over every total below
    [totals] are the same in both arithmetics. *)
Definition percentages_agree (counts totals : nat) : bool :=
  forallb
    (fun total =>
       forallb
         (fun count =>
            same_number
              (of_float (percentage count total))
              (RoadmapDetail.newProgress (repeat "s" count) total))
         (seq 0 counts))
    (seq 0 totals).

Definition float_of_Z (z : Z) : spec_float :=
  binary_normalize 53 1024 z 0 false.

(** [/] and [*] give the same number in both arithmetics on [a] and [b]. *)
Definition operators_agree (ab : spec_float * spec_float) : bool :=
  same_number (of_float (SFdiv 53 1024 (fst ab) (snd ab)))
              (Num.div (of_float (fst ab)) (of_float (snd ab))) &&
  same_number (of_float (SFmul 53 1024 (fst ab) (snd ab)))
              (Num.mul (of_float (fst ab)) (of_float (snd ab))).

(** Operands whose quotients and products are ordinary, negative, halfway
    between two values, below the smallest normal value, below the smallest
    value, at the largest value, and above it. *)
Definition far_operands : list (spec_float * spec_float) :=
  let tiny := SFdiv 53 1024 (float_of_Z 7) (float_of_Z (10 ^ 300)) in
  [(float_of_Z 1, float_of_Z 3);
   (float_of_Z (-7), float_of_Z 3);
   (float_of_Z 7, float_of_Z (-3));
   (float_of_Z 4294967294, float_of_Z 4294967295);
   (float_of_Z (2 ^ 53 - 1), float_of_Z (2 ^ 53 - 1));
   (float_of_Z (2 ^ 52 + 1), float_of_Z 2);
   (float_of_Z (2 ^ 52 + 3), float_of_Z 2);
   (float_of_Z 0, float_of_Z 5);
   (float_of_Z 5, float_of_Z 0);
   (float_of_Z 0, float_of_Z 0);
   (tiny, float_of_Z (10 ^ 20));
   (tiny, float_of_Z (3 * 10 ^ 23));
   (tiny, float_of_Z (10 ^ 30));
   (tiny, tiny);
   (float_of_Z (10 ^ 300), float_of_Z (10 ^ 10));
   (float_of_Z (10 ^ 300), tiny);
   (float_of_Z (2 ^ 1000), float_of_Z (2 ^ 24 - 1));
   (float_of_Z (2 ^ 1000 + 2 ^ 948), float_of_Z (2 ^ 24 - 1));
   (float_of_Z (2 ^ 971), float_of_Z (2 ^ 53 - 1));
   (float_of_Z (2 ^ 971 + 2 ^ 919), float_of_Z (2 ^ 53 - 1));
   (S754_infinity false, float_of_Z 3);
   (float_of_Z (-3), S754_infinity false);
   (S754_infinity true, S754_infinity false);
   (S754_nan, float_of_Z 1)]%Z.

End Binary64Reference.

(* ================================================================== *)
(** * Properties *)

(** ** Numbers *)

Section Binary64.
Import Num.
Local Open Scope Q_scope.

Lemma pow2_pos z : 0 < pow2 z.
Proof. apply Qpower_0_lt. reflexivity. Qed.

Lemma pow2_add a b : pow2 (a + b) == pow2 a * pow2 b.
Proof. apply Qpower_plus. discriminate. Qed.

Lemma pow2_le a b : (a <= b)%Z -> pow2 a <= pow2 b.
Proof. intros H. apply Qpower_le_compat_l; [assumption | discriminate]. Qed.

Lemma pow2_lt_inv a b : pow2 a < pow2 b -> (a < b)%Z.
Proof.
  intros H. apply (Qpower_lt_compat_l_inv 2); [assumption | reflexivity].
Qed.

Lemma pow2_Z z : (0 <= z)%Z -> inject_Z (2 ^ z) == pow2 z.
Proof. intros H. unfold pow2. now rewrite Zpower_Qpower. Qed.

Lemma log2_bounds a :
  (0 < a)%Z ->
  pow2 (Z.log2 a) <= inject_Z a /\ inject_Z a < pow2 (Z.log2 a + 1).
Proof.
  intros Ha. destruct (Z.log2_spec a Ha) as [H1 H2].
  pose proof (Z.log2_nonneg a) as Hn. split.
  - rewrite <- pow2_Z by assumption. rewrite <- Zle_Qle. exact H1.
  - rewrite <- pow2_Z by lia. rewrite <- Zlt_Qlt.
    replace (Z.log2 a + 1)%Z with (Z.succ (Z.log2 a)) by lia. exact H2.
Qed.

(** [flog2] is the exponent of its argument. *)
Lemma flog2_spec x : 0 < x -> pow2 (flog2 x) <= x /\ x < pow2 (flog2 x + 1).
Proof.
  intros Hx. unfold flog2.
  set (a := Qnum x). set (b := Zpos (Qden x)).
  assert (Ha : (0 < a)%Z).
  { unfold Qlt in Hx. cbn in Hx. subst a. lia. }
  assert (Hb : (0 < b)%Z) by (subst b; lia).
  destruct (log2_bounds Ha) as [Ha1 Ha2].
  destruct (log2_bounds Hb) as [Hb1 Hb2].
  assert (Hxb : x * inject_Z b == inject_Z a).
  { subst a b. destruct x as [n d]. unfold Qeq, Qmult, inject_Z. cbn. lia. }
  assert (Hbq : 0 < inject_Z b) by (rewrite Zlt_Qlt in Hb; exact Hb).
  set (c := (Z.log2 a - Z.log2 b)%Z) in *.
  assert (Hup : x < pow2 (c + 1)).
  { apply (Qmult_lt_r _ _ (inject_Z b) Hbq). rewrite Hxb.
    eapply Qlt_le_trans; [exact Ha2|].
    replace (Z.log2 a + 1)%Z with ((c + 1) + Z.log2 b)%Z by (subst c; lia).
    rewrite pow2_add. apply Qmult_le_l; [apply pow2_pos | exact Hb1]. }
  assert (Hlo : pow2 (c - 1) <= x).
  { apply (Qmult_le_r _ _ (inject_Z b) Hbq). rewrite Hxb.
    eapply Qle_trans; [|exact Ha1].
    replace (Z.log2 a) with ((c - 1) + (Z.log2 b + 1))%Z by (subst c; lia).
    rewrite pow2_add. apply Qmult_le_l; [apply pow2_pos|].
    apply Qlt_le_weak. exact Hb2. }
  destruct (Qle_bool (pow2 c) x) eqn:E.
  - apply Qle_bool_iff in E. split; assumption.
  - split; [exact Hlo|]. replace (c - 1 + 1)%Z with c by lia.
    apply Qnot_le_lt. intros H. apply Qle_bool_iff in H. congruence.
Qed.

Lemma flog2_unique x f :
  0 < x -> pow2 f <= x -> x < pow2 (f + 1) -> flog2 x = f.
Proof.
  intros Hx H1 H2. destruct (flog2_spec Hx) as [G1 G2].
  assert (Ha : pow2 f < pow2 (flog2 x + 1)) by lra.
  assert (Hb : pow2 (flog2 x) < pow2 (f + 1)) by lra.
  apply pow2_lt_inv in Ha, Hb. lia.
Qed.

(** Rounding to the nearest integer stays on the side of an integer
    bound. *)
Lemma round_half_even_le s N : s <= inject_Z N -> (round_half_even s <= N)%Z.
Proof.
  intros H. unfold round_half_even.
  pose proof (Qfloor_resp_le _ _ H) as Hf. rewrite Qfloor_Z in Hf.
  assert (Hcase : (Qfloor s < N)%Z \/ s == inject_Z (Qfloor s)).
  { destruct (Z.eq_dec (Qfloor s) N) as [E|E]; [right | left; lia].
    apply Qle_antisym; [rewrite E; exact H | apply Qfloor_le]. }
  destruct (Qcompare_spec (s - inject_Z (Qfloor s)) (1 # 2)) as [E|E|E];
    try lia.
  - destruct (Z.even (Qfloor s)); [lia|].
    destruct Hcase as [Hc|Hc]; [lia|]. exfalso. lra.
  - destruct Hcase as [Hc|Hc]; [lia|]. exfalso. lra.
Qed.

Lemma round_half_even_ge s N : inject_Z N <= s -> (N <= round_half_even s)%Z.
Proof.
  intros H. unfold round_half_even.
  pose proof (Qfloor_resp_le _ _ H) as Hf. rewrite Qfloor_Z in Hf.
  destruct (Qcompare (s - inject_Z (Qfloor s)) (1 # 2)); try lia.
  destruct (Z.even (Qfloor s)); lia.
Qed.

(** A positive number below a binary64 number [M * 2^E] rounds to a finite
    value that is still below it. *)
Lemma round_pos_upper x M E :
  0 < x -> x <= inject_Z M * pow2 E ->
  (2 ^ 52 <= M < 2 ^ 53)%Z -> (-1074 <= E <= 971)%Z ->
  exists v, round_pos x = Some v /\ 0 <= v /\ v <= inject_Z M * pow2 E.
Proof.
  intros Hx Hle HM HE. unfold round_pos.
  destruct (flog2_spec Hx) as [Hlo Hup].
  set (f := flog2 x) in *. set (e := Z.max (f - 52) (-1074)).
  assert (HMq : inject_Z M < pow2 53).
  { rewrite <- pow2_Z by lia. rewrite <- Zlt_Qlt. lia. }
  assert (HMq' : pow2 52 <= inject_Z M).
  { rewrite <- pow2_Z by lia. rewrite <- Zle_Qle. lia. }
  assert (Hf : (f - 52 <= E)%Z).
  { assert (H : pow2 f < pow2 (53 + E)).
    { eapply Qle_lt_trans; [exact Hlo|]. eapply Qle_lt_trans; [exact Hle|].
      rewrite pow2_add. apply Qmult_lt_r; [apply pow2_pos | exact HMq]. }
    apply pow2_lt_inv in H. lia. }
  assert (HeE : (e <= E)%Z) by (subst e; lia).
  assert (Hef : (f - 52 <= e)%Z) by (subst e; lia).
  pose proof (pow2_pos e) as Hpe.
  set (s := x / pow2 e).
  assert (Hs : x == s * pow2 e).
  { subst s. field. intros H. rewrite H in Hpe. discriminate. }
  assert (Hs0 : 0 <= s).
  { subst s. apply Qle_shift_div_l; [exact Hpe|]. lra. }
  set (m := round_half_even s).
  assert (Hm0 : (0 <= m)%Z) by (apply round_half_even_ge; exact Hs0).
  assert (Hbound : inject_Z m * pow2 e <= inject_Z M * pow2 E).
  { destruct (Z.eq_dec e E) as [Heq|Hne].
    - rewrite Heq in *. apply Qmult_le_r; [apply pow2_pos|].
      rewrite <- Zle_Qle. apply round_half_even_le.
      apply (Qmult_le_r _ _ (pow2 E) (pow2_pos E)). now rewrite <- Hs.
    - assert (Hm : (m <= 2 ^ 53)%Z).
      { apply round_half_even_le. rewrite pow2_Z by lia.
        apply (Qmult_le_r _ _ (pow2 e) Hpe). rewrite <- Hs, <- pow2_add.
        apply Qlt_le_weak. eapply Qlt_le_trans; [exact Hup|].
        apply pow2_le. lia. }
      apply Qle_trans with (pow2 53 * pow2 e).
      { apply Qmult_le_r; [exact Hpe|]. rewrite <- pow2_Z by lia.
        now rewrite <- Zle_Qle. }
      rewrite <- pow2_add.
      apply Qle_trans with (pow2 52 * pow2 E).
      { rewrite <- pow2_add. apply pow2_le. lia. }
      apply Qmult_le_r; [apply pow2_pos | exact HMq']. }
  assert (Hfin : Qle_bool (pow2 1024) (inject_Z m * pow2 e) = false).
  { apply not_true_iff_false. intros H. apply Qle_bool_iff in H.
    assert (H1 : inject_Z M * pow2 E < pow2 (53 + E)).
    { rewrite pow2_add. apply Qmult_lt_r; [apply pow2_pos | exact HMq]. }
    assert (H2 : pow2 (53 + E) <= pow2 1024) by (apply pow2_le; lia).
    lra. }
  fold e. fold s. fold m. rewrite Hfin.
  eexists. split; [reflexivity|]. rewrite Qred_correct. split; [|exact Hbound].
  apply Qmult_le_0_compat; [rewrite Zle_Qle in Hm0; exact Hm0 | lra].
Qed.

Lemma round64_upper x M E :
  0 <= x -> x <= inject_Z M * pow2 E ->
  (2 ^ 52 <= M < 2 ^ 53)%Z -> (-1074 <= E <= 971)%Z ->
  exists v, round64 x = JFin v /\ 0 <= v /\ v <= inject_Z M * pow2 E.
Proof.
  intros Hx Hle HM HE. unfold round64.
  destruct (Qcompare_spec x 0) as [H|H|H].
  - exists 0. split; [reflexivity|]. split; lra.
  - lra.
  - destruct (round_pos_upper H Hle HM HE) as (v & -> & Hv).
    now exists v.
Qed.

(** The rounded value depends on the value of the rational only, not on the
    fraction that denotes it. *)
Lemma flog2_proper x y : 0 < x -> x == y -> flog2 x = flog2 y.
Proof.
  intros Hx E. assert (Hy : 0 < y) by now rewrite <- E.
  destruct (flog2_spec Hy) as [G1 G2].
  apply flog2_unique; [assumption | now rewrite E | now rewrite E].
Qed.

Lemma round_half_even_proper s t :
  s == t -> round_half_even s = round_half_even t.
Proof.
  intros E. unfold round_half_even. rewrite (Qfloor_comp _ _ E).
  assert (H : s - inject_Z (Qfloor t) == t - inject_Z (Qfloor t))
    by now rewrite E.
  now rewrite (Qcompare_comp _ _ H _ _ (Qeq_refl (1 # 2))).
Qed.

Lemma round_pos_proper x y : 0 < x -> x == y -> round_pos x = round_pos y.
Proof.
  intros Hx E. unfold round_pos. rewrite (flog2_proper Hx E).
  set (e := Z.max (flog2 y - 52) (-1074)).
  assert (H : x / pow2 e == y / pow2 e) by now rewrite E.
  now rewrite (round_half_even_proper H).
Qed.

Lemma round64_proper x y : x == y -> round64 x = round64 y.
Proof.
  intros E. unfold round64.
  rewrite (Qcompare_comp _ _ E _ _ (Qeq_refl 0)).
  destruct (Qcompare_spec y 0) as [H|H|H]; [reflexivity | |].
  - assert (Hx : 0 < - x) by (rewrite E; lra).
    assert (E' : - x == - y) by now rewrite E.
    now rewrite (round_pos_proper Hx E').
  - assert (Hx : 0 < x) by now rewrite E.
    now rewrite (round_pos_proper Hx E).
Qed.

Lemma of_nat_pos n : 0 < inject_Z (Z.of_nat (S n)).
Proof. change 0 with (inject_Z 0). rewrite <- Zlt_Qlt. lia. Qed.

Lemma of_nat_nonneg k : 0 <= inject_Z (Z.of_nat k).
Proof. change 0 with (inject_Z 0). rewrite <- Zle_Qle. lia. Qed.

(** The quotient of two lengths, the divisor not zero. *)
Lemma div_of_nat k n :
  div (of_nat k) (of_nat (S n))
  = round64 (inject_Z (Z.of_nat k) / inject_Z (Z.of_nat (S n))).
Proof.
  unfold div, of_nat, is_zero.
  destruct (Qeq_bool (inject_Z (Z.of_nat (S n))) 0) eqn:E; [|reflexivity].
  apply Qeq_bool_iff in E. pose proof (of_nat_pos n). lra.
Qed.

(** A part of a whole divides to a value between 0 and 1. *)
Lemma quotient_in_unit k n :
  (k <= S n)%nat ->
  exists v, div (of_nat k) (of_nat (S n)) = JFin v /\ 0 <= v /\ v <= 1.
Proof.
  intros Hk. rewrite div_of_nat.
  pose proof (of_nat_pos n) as Hn. pose proof (of_nat_nonneg k) as Hk0.
  assert (Hkn : inject_Z (Z.of_nat k) <= inject_Z (Z.of_nat (S n)))
    by (rewrite <- Zle_Qle; lia).
  destruct (@round64_upper
              (inject_Z (Z.of_nat k) / inject_Z (Z.of_nat (S n)))
              (2 ^ 52) (-52)) as (v & E & H0 & H1).
  - apply Qle_shift_div_l; [assumption | lra].
  - apply Qle_shift_div_r; [assumption|].
    setoid_replace (inject_Z (2 ^ 52) * pow2 (-52)) with 1 by reflexivity.
    lra.
  - lia.
  - lia.
  - exists v. split; [exact E|]. split; [exact H0|].
    setoid_replace (inject_Z (2 ^ 52) * pow2 (-52)) with 1 in H1
      by reflexivity.
    exact H1.
Qed.

(** A proper part of a whole of fewer than [2^32] divides to a value that
    keeps its distance from 1. *)
Lemma quotient_below_unit k n :
  (k < S n)%nat -> (Z.of_nat (S n) <= 2 ^ 32)%Z ->
  exists v, div (of_nat k) (of_nat (S n)) = JFin v /\ 0 <= v /\
            v <= 1 - pow2 (-32).
Proof.
  intros Hk Hb. rewrite div_of_nat.
  pose proof (of_nat_pos n) as Hn. pose proof (of_nat_nonneg k) as Hk0.
  assert (Hkn : inject_Z (Z.of_nat k) + 1 <= inject_Z (Z.of_nat (S n))).
  { change 1 with (inject_Z 1). rewrite <- inject_Z_plus, <- Zle_Qle. lia. }
  assert (Hnb : inject_Z (Z.of_nat (S n)) <= pow2 32).
  { rewrite <- pow2_Z by lia. now rewrite <- Zle_Qle. }
  assert (Hy : inject_Z (2 ^ 53 - 2 ^ 21) * pow2 (-53) == 1 - pow2 (-32))
    by reflexivity.
  destruct (@round64_upper
              (inject_Z (Z.of_nat k) / inject_Z (Z.of_nat (S n)))
              (2 ^ 53 - 2 ^ 21) (-53)) as (v & E & H0 & H1).
  - apply Qle_shift_div_l; [assumption | lra].
  - apply Qle_shift_div_r; [assumption|]. rewrite Hy.
    assert (Hp : pow2 (-32) * inject_Z (Z.of_nat (S n)) <= 1).
    { setoid_replace 1 with (pow2 (-32) * pow2 32) by reflexivity.
      apply Qmult_le_l; [apply pow2_pos | exact Hnb]. }
    lra.
  - lia.
  - lia.
  - exists v. split; [exact E|]. split; [exact H0|]. now rewrite <- Hy.
Qed.

End Binary64.

(** *** The percentage of a toggle *)

Section Percentage.
Import Num.
Local Open Scope Q_scope.

(** With as many completed steps as the roadmap has steps at most, the new
    percentage is a finite number between 0 and 100. *)
Lemma newProgress_range l n :
  (length l <= S n)%nat ->
  exists w, RoadmapDetail.newProgress l (S n) = JFin w /\ 0 <= w /\ w <= 100.
Proof.
  intros Hle. unfold RoadmapDetail.newProgress.
  destruct (@quotient_in_unit (length l) n Hle) as (v & -> & Hv0 & Hv1).
  unfold mul, hundred.
  assert (Hy : inject_Z (100 * 2 ^ 46) * pow2 (-46) == 100) by reflexivity.
  destruct (@round64_upper (v * 100) (100 * 2 ^ 46) (-46))
    as (w & E & H0 & H1).
  - lra.
  - rewrite Hy. lra.
  - lia.
  - lia.
  - exists w. split; [exact E|]. split; [exact H0 | now rewrite <- Hy].
Qed.

Lemma newProgress_range_le l n :
  (length l <= S n)%nat ->
  le zero (RoadmapDetail.newProgress l (S n)) = true /\
  le (RoadmapDetail.newProgress l (S n)) hundred = true.
Proof.
  intros Hle. destruct (@newProgress_range l n Hle) as (w & -> & H0 & H1).
  cbn [le zero hundred]. now rewrite !Qle_bool_iff.
Qed.

(** With every step completed the new percentage is exactly 100. *)
Lemma newProgress_full l n :
  length l = S n -> RoadmapDetail.newProgress l (S n) = hundred.
Proof.
  intros E. unfold RoadmapDetail.newProgress. rewrite E, div_of_nat.
  assert (H : inject_Z (Z.of_nat (S n)) / inject_Z (Z.of_nat (S n)) == 1).
  { field. pose proof (of_nat_pos n). lra. }
  rewrite (round64_proper H). vm_compute. reflexivity.
Qed.

(** With a step missing, of fewer than [2^32], it stays below 100. *)
Lemma newProgress_partial l n :
  (length l < S n)%nat -> (Z.of_nat (S n) <= 2 ^ 32)%Z ->
  exists w, RoadmapDetail.newProgress l (S n) = JFin w /\ w < 100.
Proof.
  intros Hlt Hb. unfold RoadmapDetail.newProgress.
  destruct (@quotient_below_unit (length l) n Hlt Hb) as (v & -> & Hv0 & Hv1).
  unfold mul, hundred.
  assert (Hy : inject_Z (100 * 2 ^ 46 - 2 ^ 20) * pow2 (-46)
               == 100 - pow2 (-26)) by reflexivity.
  assert (Hp : pow2 (-26) <= 100 * pow2 (-32)) by (vm_compute; discriminate).
  destruct (@round64_upper (v * 100) (100 * 2 ^ 46 - 2 ^ 20) (-46))
    as (w & E & H0 & H1).
  - lra.
  - rewrite Hy. lra.
  - lia.
  - lia.
  - exists w. split; [exact E|]. rewrite Hy in H1.
    pose proof (pow2_pos (-26)). lra.
Qed.

Lemma newProgress_is_100 l n :
  (length l <= S n)%nat -> (Z.of_nat (S n) <= 2 ^ 32)%Z ->
  (strict_eq (RoadmapDetail.newProgress l (S n)) hundred = true
   <-> length l = S n).
Proof.
  intros Hle Hb. split.
  - intros H. destruct (Nat.eq_dec (length l) (S n)) as [E|E]; [exact E|].
    assert (Hlt : (length l < S n)%nat) by lia.
    destruct (@newProgress_partial l n Hlt Hb) as (w & Ew & Hw).
    rewrite Ew in H. cbn [strict_eq hundred] in H.
    apply Qeq_bool_iff in H. lra.
  - intros E. rewrite (@newProgress_full l n E). reflexivity.
Qed.

(** With a positive total and a count a JavaScript array can have, the new
    percentage is a finite number, not negative. *)
Lemma newProgress_finite l n :
  (Z.of_nat (length l) < 2 ^ 32)%Z ->
  exists w, RoadmapDetail.newProgress l (S n) = JFin w /\ 0 <= w.
Proof.
  intros Hb. unfold RoadmapDetail.newProgress. rewrite div_of_nat.
  pose proof (of_nat_pos n) as Hn.
  pose proof (of_nat_nonneg (length l)) as Hk0.
  assert (Hk : inject_Z (Z.of_nat (length l)) <= pow2 32).
  { rewrite <- pow2_Z by lia. rewrite <- Zle_Qle. lia. }
  assert (Hn1 : 1 <= inject_Z (Z.of_nat (S n))).
  { change 1 with (inject_Z 1). rewrite <- Zle_Qle. lia. }
  assert (Hy : inject_Z (2 ^ 52) * pow2 (-20) == pow2 32) by reflexivity.
  destruct (@round64_upper
              (inject_Z (Z.of_nat (length l)) / inject_Z (Z.of_nat (S n)))
              (2 ^ 52) (-20)) as (v & -> & Hv0 & Hv1).
  - apply Qle_shift_div_l; [assumption | lra].
  - apply Qle_shift_div_r; [assumption|]. rewrite Hy.
    pose proof (pow2_pos 32) as Hp.
    assert (pow2 32 * 1 <= pow2 32 * inject_Z (Z.of_nat (S n)))
      by (apply Qmult_le_l; assumption).
    lra.
  - lia.
  - lia.
  - unfold mul, hundred. rewrite Hy in Hv1.
    assert (Hz : inject_Z (100 * 2 ^ 46) * pow2 (-14) == 100 * pow2 32)
      by reflexivity.
    destruct (@round64_upper (v * 100) (100 * 2 ^ 46) (-14))
      as (w & E & H0 & H1).
    + lra.
    + rewrite Hz. lra.
    + lia.
    + lia.
    + exists w. split; [exact E | exact H0].
Qed.

End Percentage.

(** The percentages of the model are those of the binary64 arithmetic of
    the Standard Library, for every count up to 120 over every total up to
    60, the empty roadmap included. *)
Lemma newProgress_is_binary64 :
  Binary64Reference.percentages_agree 121 61 = true.
Proof. vm_compute. reflexivity. Qed.

(** And so are the quotients and products of operands far from the
    percentages: negative ones, ties, results that underflow or overflow,
    infinities and [NaN]. *)
Lemma operators_are_binary64 :
  forallb Binary64Reference.operators_agree Binary64Reference.far_operands
  = true.
Proof. vm_compute. reflexivity. Qed.



(** With a zero total the new percentage is [NaN] or [Infinity]. *)
Lemma newProgress_zero_total l :
  RoadmapDetail.newProgress l 0 =
  match l with [] => JNaN | _ :: _ => JPosInf end.
Proof. destruct l; reflexivity. Qed.

(** ** Lists of step ids *)

Lemma includes_In l x : JS.includes l x = true <-> In x l.
Proof.
  unfold JS.includes. rewrite existsb_exists. split.
  - intros (y & Hy & E). apply String.eqb_eq in E. now subst.
  - intros H. exists x. split; [assumption | apply String.eqb_refl].
Qed.

Lemma includes_false l x : JS.includes l x = false <-> ~ In x l.
Proof.
  rewrite <- includes_In. destruct (JS.includes l x); split; intros H;
    try reflexivity; try discriminate; try (intros E; discriminate).
  exfalso. now apply H.
Qed.

Lemma filter_other_In (l : list string) x y :
  In y (filter (fun s => negb (s =? x)) l) <-> In y l /\ y <> x.
Proof.
  rewrite filter_In. split; intros (H1 & H2); split; try assumption.
  - intros ->. now rewrite String.eqb_refl in H2.
  - apply negb_true_iff. now apply String.eqb_neq.
Qed.

Lemma filter_absent (l : list string) x :
  ~ In x l -> filter (fun s => negb (s =? x)) l = l.
Proof.
  induction l as [|a l IH]; intros H; [reflexivity|].
  cbn. destruct (a =? x) eqn:E.
  - apply String.eqb_eq in E. subst. exfalso. apply H. now left.
  - cbn. f_equal. apply IH. intros Hx. apply H. now right.
Qed.

(** Removing the id appended last gives back a list that did not hold it. *)
Lemma filter_after_append (l : list string) x :
  ~ In x l -> filter (fun s => negb (s =? x)) (l ++ [x]) = l.
Proof.
  intros H. rewrite filter_app. cbn. rewrite String.eqb_refl. cbn.
  rewrite app_nil_r. now apply filter_absent.
Qed.

Section UpdatedSteps.
Import RoadmapDetail.
Variables (up : UserProgress) (stepId : string).

Lemma updatedSteps_In completed y :
  In y (updatedSteps up stepId completed) <->
  if completed then In y (completed_steps up) \/ y = stepId
  else In y (completed_steps up) /\ y <> stepId.
Proof.
  unfold updatedSteps. destruct completed.
  - rewrite in_app_iff. cbn. intuition.
  - apply filter_other_In.
Qed.

(** A toggle to the negation of the current membership keeps the list free
    of duplicates. *)
Lemma updatedSteps_NoDup :
  NoDup (completed_steps up) ->
  NoDup (updatedSteps up stepId
                      (negb (JS.includes (completed_steps up) stepId))).
Proof.
  intros Hnd. unfold updatedSteps.
  destruct (JS.includes (completed_steps up) stepId) eqn:E; cbn.
  - now apply NoDup_filter.
  - apply includes_false in E. apply NoDup_app; [assumption | | ].
    + constructor; [intros [] | constructor].
    + intros a Ha [<- | []]. contradiction.
Qed.

Lemma updatedSteps_incl ids completed :
  incl (completed_steps up) ids -> In stepId ids ->
  incl (updatedSteps up stepId completed) ids.
Proof.
  intros Hincl Hin y Hy. apply updatedSteps_In in Hy.
  destruct completed.
  - destruct Hy as [Hy | ->]; [now apply Hincl | assumption].
  - now apply Hincl.
Qed.

End UpdatedSteps.

(** Distinct ids of a roadmap number at most its steps, and number all of
    them exactly when they cover the roadmap. *)
Lemma distinct_ids_bound (ids l : list string) :
  NoDup l -> incl l ids -> length l <= length ids.
Proof. intros. now apply NoDup_incl_length. Qed.

Lemma distinct_ids_cover (ids l : list string) :
  NoDup ids -> NoDup l -> incl l ids ->
  (length l = length ids <-> incl ids l).
Proof.
  intros Hids Hl Hincl. split.
  - intros E. apply NoDup_length_incl; [assumption | lia | assumption].
  - intros Hcov.
    pose proof (NoDup_incl_length Hl Hincl).
    pose proof (NoDup_incl_length Hids Hcov). lia.
Qed.

(** ** The toggle handler *)

Ltac run_handler :=
  unfold RoadmapDetail.toggleStepCompletion, RoadmapDetail.toggle_resume,
    RoadmapDetail.setUpdatingStep, RoadmapDetail.setUserProgress,
    try_finally, try_catch, bind, ret, throw, get_state, modify, getItem,
    fetch, alert, alert_with, console_log, navigate, pop_fault;
  cbn.

Lemma token_ready_inv w :
  token_ready w = true ->
  stored_truthy (storage w auth_token) = true /\
  (storage_faults w = [] \/ exists rest, storage_faults w = false :: rest).
Proof.
  unfold token_ready. intros H. apply andb_true_iff in H as [Hf Ht].
  split; [assumption|].
  destruct (storage_faults w) as [|[] rest]; cbn in Hf;
    [now left | discriminate | right; now exists rest].
Qed.

Lemma response_ok_inv w :
  response_ok w = true ->
  exists d rest, responses w = NetResponse true d :: rest.
Proof.
  unfold response_ok. destruct (responses w) as [|[|[] d] rest];
    try discriminate. intros _. now exists d, rest.
Qed.

(** What a successful toggle leaves: the record recomputed from the state the
    handler started in, no step marked as updating, one request sent and
    nothing shown or logged. *)
Lemma toggle_success st w stepId completed :
  toggle_succeeds w = true ->
  RoadmapDetail.toggleStepCompletion stepId completed st w =
  (Val tt,
   RoadmapDetail.mkState
     (RoadmapDetail.id st) (RoadmapDetail.roadmap st)
     (option_map
        (fun up => RoadmapDetail.updatedProgress (RoadmapDetail.roadmap st)
                                                 up stepId completed)
        (RoadmapDetail.userProgress st))
     (RoadmapDetail.loading st) None,
   mkWorld (storage w) (tl (storage_faults w)) (tl (responses w))
           (requests w ++
            [RoadmapDetail.progress_request st (storage w auth_token)
                                            stepId completed])
           (alerts w) (console w) (navigation w)).
Proof.
  unfold toggle_succeeds. intros H. apply andb_true_iff in H as [Ht Hr].
  apply token_ready_inv in Ht as [Ht Hf].
  apply response_ok_inv in Hr as (d & rest & Hr).
  destruct st as [i r p l u], w as [sto fl rs rq al co nv]. cbn in *.
  subst rs. run_handler.
  destruct Hf as [-> | (fl' & ->)]; cbn; rewrite Ht; cbn;
    destruct p; reflexivity.
Qed.

Ltac after_success :=
  unfold state_after, world_after, completed_of, percentage_of;
  repeat (rewrite toggle_success by assumption; cbn [fst snd]);
  cbn [RoadmapDetail.userProgress RoadmapDetail.roadmap RoadmapDetail.id
       RoadmapDetail.loading RoadmapDetail.updatingStep option_map
       completed_steps progress_percentage RoadmapDetail.updatedProgress].

(** The screen issues a toggle with the negation of the current membership. *)
Lemma onPress_unfold stepId st w :
  RoadmapDetail.onPress stepId st w =
  RoadmapDetail.toggleStepCompletion
    stepId (negb (RoadmapDetail.isStepCompleted st stepId)) st w.
Proof. reflexivity. Qed.

Lemma isStepCompleted_In st up s :
  RoadmapDetail.userProgress st = Some up ->
  (RoadmapDetail.isStepCompleted st s = true <-> In s (completed_steps up)).
Proof.
  intros E. unfold RoadmapDetail.isStepCompleted. rewrite E, orb_false_r.
  apply includes_In.
Qed.

(** The record a press computes from a record that fits the roadmap: it
    fits the roadmap, and its percentage is the one of its
    [completed_steps], within range. *)
Lemma updatedProgress_fits r up stepId :
  well_formed r up ->
  js_array (steps r) ->
  In stepId (step_ids r) ->
  let up' :=
    RoadmapDetail.updatedProgress
      (Some r) up stepId (negb (JS.includes (completed_steps up) stepId)) in
  well_formed r up' /\
  progress_percentage up' =
    Num.mul (Num.div (Num.of_nat (length (completed_steps up')))
                     (Num.of_nat (length (steps r))))
            Num.hundred /\
  percentage_in_range r up'.
Proof.
  intros (Hids & Hnd & Hincl) Hjs Hin. cbv zeta.
  unfold RoadmapDetail.updatedProgress, percentage_in_range.
  set (l := RoadmapDetail.updatedSteps up stepId _).
  assert (Hnd' : NoDup l) by now apply updatedSteps_NoDup.
  assert (Hincl' : incl l (step_ids r)) by now apply updatedSteps_incl.
  assert (Hlen : length l <= length (steps r)).
  { rewrite <- (length_map step_id). now apply distinct_ids_bound. }
  assert (Htot : exists n, RoadmapDetail.totalSteps (Some r) = S n /\
                           length (steps r) = S n).
  { unfold RoadmapDetail.totalSteps, step_ids in *. cbn.
    destruct (steps r) as [|x xs]; [destruct Hin|].
    exists (length xs). split; reflexivity. }
  destruct Htot as (n & Htot & Hn). rewrite Htot.
  cbn [completed_steps progress_percentage]. unfold js_array in Hjs.
  rewrite Hn in *.
  assert (Hb : (Z.of_nat (S n) <= 2 ^ 32)%Z) by lia.
  repeat split; try assumption.
  - now apply newProgress_range_le.
  - now apply newProgress_range_le.
  - intros H100. apply (newProgress_is_100 l Hlen Hb) in H100.
    apply (distinct_ids_cover Hids Hnd' Hincl').
    unfold step_ids. rewrite length_map. lia.
  - intros Hcov. apply (newProgress_is_100 l Hlen Hb).
    rewrite <- Hn, <- (length_map step_id).
    now apply (distinct_ids_cover Hids Hnd' Hincl').
Qed.

(** C1, as the code has it: a toggle issued by the screen, for a step of the
    loaded roadmap and on a progress record that fits the roadmap, leaves a
    record that fits the roadmap, whose percentage is
    [count / total * 100] for the new [completed_steps], each operation
    rounded to binary64, lies between 0 and 100, and is 100 exactly when
    [completed_steps] covers every step id. *)
Theorem toggle_keeps_percentage_invariant st w r up stepId :
  RoadmapDetail.roadmap st = Some r ->
  RoadmapDetail.userProgress st = Some up ->
  well_formed r up ->
  js_array (steps r) ->
  In stepId (step_ids r) ->
  toggle_succeeds w = true ->
  exists up',
    RoadmapDetail.userProgress
      (state_after (RoadmapDetail.onPress stepId) st w) = Some up' /\
    well_formed r up' /\
    progress_percentage up' =
      Num.mul (Num.div (Num.of_nat (length (completed_steps up')))
                       (Num.of_nat (length (steps r))))
              Num.hundred /\
    Num.le Num.zero (progress_percentage up') = true /\
    Num.le (progress_percentage up') Num.hundred = true /\
    (Num.strict_eq (progress_percentage up') Num.hundred = true
     <-> covers_all r up').
Proof.
  intros Hr Hup Hwf Hjs Hin Hok.
  unfold state_after. rewrite onPress_unfold, toggle_success by assumption.
  cbn [fst snd RoadmapDetail.userProgress]. rewrite Hup, Hr. cbn [option_map].
  eexists. split; [reflexivity|].
  unfold RoadmapDetail.isStepCompleted. rewrite Hup, orb_false_r.
  destruct (updatedProgress_fits stepId Hwf Hjs Hin)
    as (Hwf' & Hpct & Hrange).
  split; [exact Hwf'|]. split; [exact Hpct|]. exact Hrange.
Qed.

Lemma sample_well_formed :
  well_formed (sample_roadmap ["a"; "b"; "c"])
              (sample_progress ["a"] (JFin (100 # 3))).
Proof.
  repeat split; cbn.
  - repeat constructor; cbn; intuition discriminate.
  - repeat constructor; cbn; intuition.
  - intros s [<- | []]. now left.
Qed.

Lemma toggle_keeps_percentage_invariant_witness :
  exists up',
    RoadmapDetail.userProgress
      (state_after (RoadmapDetail.onPress "b")
                   (sample_screen ["a"; "b"; "c"] ["a"] (JFin (100 # 3)))
                   (signed_in_world [ok_response])) = Some up' /\
    well_formed (sample_roadmap ["a"; "b"; "c"]) up' /\
    progress_percentage up' =
      Num.mul (Num.div (Num.of_nat (length (completed_steps up')))
                       (Num.of_nat
                          (length (steps (sample_roadmap ["a"; "b"; "c"])))))
              Num.hundred /\
    Num.le Num.zero (progress_percentage up') = true /\
    Num.le (progress_percentage up') Num.hundred = true /\
    (Num.strict_eq (progress_percentage up') Num.hundred = true
     <-> covers_all (sample_roadmap ["a"; "b"; "c"]) up').
Proof.
  apply (@toggle_keeps_percentage_invariant
           (sample_screen ["a"; "b"; "c"] ["a"] (JFin (100 # 3)))
           (signed_in_world [ok_response])
           (sample_roadmap ["a"; "b"; "c"])
           (sample_progress ["a"] (JFin (100 # 3))) "b").
  - reflexivity.
  - reflexivity.
  - exact sample_well_formed.
  - unfold js_array. cbn. lia.
  - cbn. right. left. reflexivity.
  - reflexivity.
Defined.

(** C1, as stated, fails: a successful [toggleStepCompletion("a", true)] on a
    one-step roadmap whose step is already completed leaves the percentage at
    200; and a press on step ["a"] while the record lists an id that is not a
    step of the roadmap does the same. *)
Lemma toggle_percentage_above_100 :
  RoadmapDetail.userProgress
    (state_after (RoadmapDetail.toggleStepCompletion "a" true)
                 (sample_screen ["a"] ["a"] (JFin 100))
                 (signed_in_world [ok_response]))
  = Some (sample_progress ["a"; "a"] (JFin 200)) /\
  RoadmapDetail.userProgress
    (state_after (RoadmapDetail.onPress "a")
                 (sample_screen ["a"] ["x"] (JFin 100))
                 (signed_in_world [ok_response]))
  = Some (sample_progress ["x"; "a"] (JFin 200)) /\
  toggle_succeeds (signed_in_world [ok_response]) = true /\
  Num.le (JFin 200) Num.hundred = false.
Proof. repeat split; vm_compute; reflexivity. Qed.

(** C2, as stated, fails: on a roadmap without steps the divisor
    [roadmap?.steps.length || 0] is [0], and a successful toggle stores
    [Infinity] (a step added) or [NaN] (none left), not [0]. *)
Lemma toggle_on_empty_roadmap_divides_by_zero :
  toggle_succeeds (signed_in_world [ok_response]) = true /\
  RoadmapDetail.totalSteps (Some (sample_roadmap [])) = 0 /\
  percentage_of
    (state_after (RoadmapDetail.toggleStepCompletion "s1" true)
                 (sample_screen [] [] (JFin 0))
                 (signed_in_world [ok_response])) = Some JPosInf /\
  percentage_of
    (state_after (RoadmapDetail.toggleStepCompletion "s1" false)
                 (sample_screen [] [] (JFin 0))
                 (signed_in_world [ok_response])) = Some JNaN.
Proof. repeat split; vm_compute; reflexivity. Qed.

(** With no step to divide by, no successful toggle yields a finite
    percentage, whatever the progress record. *)
Lemma toggle_zero_total_not_finite st w up stepId completed :
  RoadmapDetail.totalSteps (RoadmapDetail.roadmap st) = 0 ->
  RoadmapDetail.userProgress st = Some up ->
  toggle_succeeds w = true ->
  exists p,
    percentage_of
      (state_after (RoadmapDetail.toggleStepCompletion stepId completed) st w)
    = Some p /\ Num.is_finite p = false.
Proof.
  intros Htot Hup Hok. after_success. rewrite Hup.
  cbn [option_map progress_percentage RoadmapDetail.updatedProgress].
  eexists. split; [reflexivity|].
  rewrite Htot, newProgress_zero_total.
  now destruct (RoadmapDetail.updatedSteps up stepId completed).
Qed.

(** The screen offers a checkbox only for the steps of a loaded roadmap, so
    a roadmap whose step is pressed has steps. *)
Lemma rendered_step_has_steps st stepId :
  RoadmapDetail.renders_step st stepId = true ->
  exists r, RoadmapDetail.roadmap st = Some r /\ steps r <> [].
Proof.
  unfold RoadmapDetail.renders_step. intros H.
  apply andb_true_iff in H as [_ H].
  destruct (RoadmapDetail.roadmap st) as [r|]; [|discriminate].
  exists r. split; [reflexivity|]. apply includes_In in H.
  unfold step_ids in H. now destruct (steps r).
Qed.

(** C2, as the code has it: for a roadmap with at least one step, a
    successful toggle recomputes the percentage as
    [count(completed_steps) / total_steps * 100] for the new
    [completed_steps], each operation rounded to binary64, and that is a
    finite number, not negative. *)
Theorem toggle_percentage_on_nonempty_roadmap st w r up stepId completed :
  RoadmapDetail.roadmap st = Some r -> steps r <> [] ->
  RoadmapDetail.userProgress st = Some up ->
  js_array (RoadmapDetail.updatedSteps up stepId completed) ->
  toggle_succeeds w = true ->
  completed_of
    (state_after (RoadmapDetail.toggleStepCompletion stepId completed) st w)
  = Some (RoadmapDetail.updatedSteps up stepId completed) /\
  percentage_of
    (state_after (RoadmapDetail.toggleStepCompletion stepId completed) st w)
  = Some (Num.mul
            (Num.div
               (Num.of_nat
                  (length (RoadmapDetail.updatedSteps up stepId completed)))
               (Num.of_nat (length (steps r))))
            Num.hundred) /\
  exists q,
    percentage_of
      (state_after (RoadmapDetail.toggleStepCompletion stepId completed) st w)
    = Some (JFin q) /\ (0 <= q)%Q.
Proof.
  intros Hr Hne Hup Hjs Hok. after_success. rewrite Hup, Hr.
  cbn [option_map progress_percentage completed_steps
       RoadmapDetail.updatedProgress].
  split; [reflexivity|].
  unfold RoadmapDetail.totalSteps. cbn [option_map JS.or_else].
  destruct (steps r) as [|x xs]; [contradiction|]. cbn [length Nat.eqb negb].
  split; [reflexivity|].
  destruct (@newProgress_finite
              (RoadmapDetail.updatedSteps up stepId completed) (length xs) Hjs)
    as (q & E & Hq).
  exists q. split; [now rewrite E | assumption].
Qed.

Lemma toggle_percentage_on_nonempty_roadmap_witness :
  completed_of
    (state_after (RoadmapDetail.toggleStepCompletion "b" true)
       (sample_screen ["a"; "b"; "c"] ["a"] (JFin (100 # 3)))
       (signed_in_world [ok_response]))
  = Some (RoadmapDetail.updatedSteps
            (sample_progress ["a"] (JFin (100 # 3))) "b" true) /\
  percentage_of
    (state_after (RoadmapDetail.toggleStepCompletion "b" true)
       (sample_screen ["a"; "b"; "c"] ["a"] (JFin (100 # 3)))
       (signed_in_world [ok_response]))
  = Some (Num.mul
            (Num.div
               (Num.of_nat
                  (length (RoadmapDetail.updatedSteps
                             (sample_progress ["a"] (JFin (100 # 3)))
                             "b" true)))
               (Num.of_nat (length (steps (sample_roadmap ["a"; "b"; "c"])))))
            Num.hundred) /\
  exists q,
    percentage_of
      (state_after (RoadmapDetail.toggleStepCompletion "b" true)
         (sample_screen ["a"; "b"; "c"] ["a"] (JFin (100 # 3)))
         (signed_in_world [ok_response]))
    = Some (JFin q) /\ (0 <= q)%Q.
Proof.
  apply (@toggle_percentage_on_nonempty_roadmap
           (sample_screen ["a"; "b"; "c"] ["a"] (JFin (100 # 3)))
           (signed_in_world [ok_response])
           (sample_roadmap ["a"; "b"; "c"])
           (sample_progress ["a"] (JFin (100 # 3))) "b" true).
  - reflexivity.
  - cbn. discriminate.
  - reflexivity.
  - unfold js_array. cbn. lia.
  - reflexivity.
Defined.

(** The stored percentage is the binary64 value, not the exact quotient:
    two of three steps give 66.66666666666666, the double
    [2345624805922133 / 2^45]. *)
Lemma two_thirds_is_rounded :
  percentage_of
    (state_after (RoadmapDetail.toggleStepCompletion "b" true)
       (sample_screen ["a"; "b"; "c"] ["a"] (JFin (100 # 3)))
       (signed_in_world [ok_response]))
  = Some (JFin (2345624805922133 # 35184372088832)).
Proof. vm_compute. reflexivity. Qed.

(** Eleven of twenty steps give 55.00000000000001, the double
    [55 + 2^-47], where the exact value is 55. *)
Lemma eleven_twentieths_is_rounded :
  RoadmapDetail.newProgress (repeat "s" 11) 20
  = JFin (7740561859543041 # 140737488355328) /\
  Num.strict_eq (RoadmapDetail.newProgress (repeat "s" 11) 20) (JFin 55)
  = false.
Proof. split; vm_compute; reflexivity. Qed.

(** ** Toggling twice, and toggling back *)

Section TwoToggles.
Import RoadmapDetail.
Variables (st : State) (w : World) (stepId : string).

(** C3, as the code has it: after [toggleStep(id, true)] succeeded twice,
    every step is reported completed or not as after it succeeded once; the
    list [completed_steps] holds no id twice as long as a toggle to [true] is
    issued for a step that is not completed, which is how the screen issues
    it. *)
Theorem toggle_true_twice_same_membership :
  toggle_succeeds w = true ->
  toggle_succeeds (snd (toggled stepId true (st, w))) = true ->
  (forall s,
      isStepCompleted
        (fst (toggled stepId true (toggled stepId true (st, w)))) s =
      isStepCompleted (fst (toggled stepId true (st, w))) s) /\
  (forall up up1,
      userProgress st = Some up -> NoDup (completed_steps up) ->
      isStepCompleted st stepId = false ->
      userProgress (fst (toggled stepId true (st, w))) = Some up1 ->
      NoDup (completed_steps up1)).
Proof.
  unfold toggled. cbn [fst snd]. intros Hok Hok1. split.
  - intros s. revert Hok1. after_success. intros Hok1.
    rewrite toggle_success by assumption. cbn [fst snd].
    unfold isStepCompleted. cbn [userProgress roadmap].
    destruct (userProgress st) as [up|]; [|reflexivity].
    cbn [option_map updatedProgress completed_steps updatedSteps].
    rewrite !orb_false_r.
    destruct (JS.includes ((completed_steps up ++ [stepId]) ++ [stepId]) s)
      eqn:E.
    + symmetry. apply includes_In. apply includes_In in E.
      rewrite !in_app_iff in E. rewrite in_app_iff. tauto.
    + symmetry. apply includes_false. apply includes_false in E.
      rewrite !in_app_iff in E. rewrite in_app_iff. tauto.
  - intros up up1 Hup Hnd Hnot. after_success. rewrite Hup.
    cbn [option_map updatedProgress]. intros [= <-].
    cbn [completed_steps].
    unfold isStepCompleted in Hnot. rewrite Hup, orb_false_r in Hnot.
    pose proof (updatedSteps_NoDup up stepId Hnd) as H.
    now rewrite Hnot in H.
Qed.

(** C4, as the code has it: for a step that is not completed before the
    first toggle (the only state in which the screen issues a toggle to
    [true]), a successful [toggleStep(id, true)] followed by a successful
    [toggleStep(id, false)] gives [completed_steps] its value from before. *)
Theorem toggle_round_trip_restores :
  isStepCompleted st stepId = false ->
  toggle_succeeds w = true ->
  toggle_succeeds (snd (toggled stepId true (st, w))) = true ->
  completed_of (fst (toggled stepId false (toggled stepId true (st, w)))) =
  completed_of st.
Proof.
  unfold toggled. cbn [fst snd]. intros Hnot Hok Hok1.
  revert Hok1. after_success.
  intros Hok1. rewrite toggle_success by assumption. cbn [fst snd].
  cbn [userProgress roadmap]. unfold isStepCompleted in Hnot.
  destruct (userProgress st) as [up|]; [|reflexivity].
  rewrite orb_false_r in Hnot. apply includes_false in Hnot.
  cbn [option_map updatedProgress completed_steps updatedSteps].
  f_equal. now apply filter_after_append.
Qed.

End TwoToggles.

Lemma toggle_true_twice_same_membership_witness :
  (forall s,
      RoadmapDetail.isStepCompleted
        (fst (toggled "a" true
                (toggled "a" true
                   (sample_screen ["a"; "b"] [] (JFin 0),
                    signed_in_world [ok_response; ok_response])))) s =
      RoadmapDetail.isStepCompleted
        (fst (toggled "a" true
                (sample_screen ["a"; "b"] [] (JFin 0),
                 signed_in_world [ok_response; ok_response]))) s) /\
  (forall up up1,
      RoadmapDetail.userProgress (sample_screen ["a"; "b"] [] (JFin 0))
      = Some up ->
      NoDup (completed_steps up) ->
      RoadmapDetail.isStepCompleted (sample_screen ["a"; "b"] [] (JFin 0)) "a"
      = false ->
      RoadmapDetail.userProgress
        (fst (toggled "a" true
                (sample_screen ["a"; "b"] [] (JFin 0),
                 signed_in_world [ok_response; ok_response]))) = Some up1 ->
      NoDup (completed_steps up1)).
Proof.
  apply (@toggle_true_twice_same_membership
           (sample_screen ["a"; "b"] [] (JFin 0))
           (signed_in_world [ok_response; ok_response]) "a");
    reflexivity.
Defined.

(** C3, as stated, fails: the second successful [toggleStep("a", true)]
    appends ["a"] again, so [completed_steps] differs from the one after the
    first and the step is counted twice (100 percent of a two-step roadmap
    with one step done). *)
Lemma toggle_true_twice_double_counts :
  toggle_succeeds (signed_in_world [ok_response; ok_response]) = true /\
  toggle_succeeds
    (snd (toggled "a" true
            (sample_screen ["a"; "b"] [] (JFin 0),
             signed_in_world [ok_response; ok_response]))) = true /\
  completed_of
    (fst (toggled "a" true
            (sample_screen ["a"; "b"] [] (JFin 0),
             signed_in_world [ok_response; ok_response]))) = Some ["a"] /\
  completed_of
    (fst (toggled "a" true
            (toggled "a" true
               (sample_screen ["a"; "b"] [] (JFin 0),
                signed_in_world [ok_response; ok_response]))))
  = Some ["a"; "a"] /\
  percentage_of
    (fst (toggled "a" true
            (toggled "a" true
               (sample_screen ["a"; "b"] [] (JFin 0),
                signed_in_world [ok_response; ok_response]))))
  = Some (JFin 100) /\
  completed_of
    (fst (toggled "a" true
            (toggled "a" true
               (sample_screen ["a"; "b"] [] (JFin 0),
                signed_in_world [ok_response; ok_response]))))
  <> completed_of
       (fst (toggled "a" true
               (sample_screen ["a"; "b"] [] (JFin 0),
                signed_in_world [ok_response; ok_response]))).
Proof.
  repeat split; try (vm_compute; reflexivity).
  vm_compute. discriminate.
Qed.

Lemma toggle_round_trip_restores_witness :
  completed_of
    (fst (toggled "b" false
            (toggled "b" true
               (sample_screen ["a"; "b"] ["a"] (JFin 50),
                signed_in_world [ok_response; ok_response])))) =
  completed_of (sample_screen ["a"; "b"] ["a"] (JFin 50)).
Proof.
  apply (@toggle_round_trip_restores
           (sample_screen ["a"; "b"] ["a"] (JFin 50))
           (signed_in_world [ok_response; ok_response]) "b");
    reflexivity.
Defined.

(** C4, as stated, fails: for a step that is already completed,
    [toggleStep("a", true)] then [toggleStep("a", false)] removes every
    occurrence of ["a"], so [completed_steps] does not return to its value
    from before the first toggle. *)
Lemma toggle_round_trip_loses_completed_step :
  toggle_succeeds (signed_in_world [ok_response; ok_response]) = true /\
  toggle_succeeds
    (snd (toggled "a" true
            (sample_screen ["a"; "b"] ["a"] (JFin 50),
             signed_in_world [ok_response; ok_response]))) = true /\
  completed_of (sample_screen ["a"; "b"] ["a"] (JFin 50)) = Some ["a"] /\
  completed_of
    (fst (toggled "a" false
            (toggled "a" true
               (sample_screen ["a"; "b"] ["a"] (JFin 50),
                signed_in_world [ok_response; ok_response])))) = Some [] /\
  completed_of
    (fst (toggled "a" false
            (toggled "a" true
               (sample_screen ["a"; "b"] ["a"] (JFin 50),
                signed_in_world [ok_response; ok_response]))))
  <> completed_of (sample_screen ["a"; "b"] ["a"] (JFin 50)).
Proof.
  repeat split; try (vm_compute; reflexivity).
  vm_compute. discriminate.
Qed.

(** ** Failure of the request, and a missing progress record *)

(** C5: when the request of a toggle fails (the response is not [ok], or
    [fetch] rejects), the local progress state is the one from before, one
    error alert is shown, and the handler has sent its one request and used
    up one outcome: nothing is sent again. *)
Theorem toggle_failure_leaves_progress st w stepId completed :
  request_fails w = true ->
  RoadmapDetail.userProgress
    (state_after (RoadmapDetail.toggleStepCompletion stepId completed) st w)
  = RoadmapDetail.userProgress st /\
  (exists msg,
      alerts (world_after (RoadmapDetail.toggleStepCompletion stepId completed)
                          st w)
      = alerts w ++ [mkAlert "Error" msg []]) /\
  requests (world_after (RoadmapDetail.toggleStepCompletion stepId completed)
                        st w)
  = requests w ++
    [RoadmapDetail.progress_request st (storage w auth_token)
                                    stepId completed] /\
  responses (world_after (RoadmapDetail.toggleStepCompletion stepId completed)
                         st w)
  = tl (responses w) /\
  RoadmapDetail.updatingStep
    (state_after (RoadmapDetail.toggleStepCompletion stepId completed) st w)
  = None.
Proof.
  unfold request_fails, response_ok. intros H.
  apply andb_true_iff in H as [Ht Hr].
  apply token_ready_inv in Ht as [Ht Hf].
  destruct st as [i r p l u], w as [sto fl rs rq al co nv]. cbn in *.
  unfold state_after, world_after. run_handler.
  destruct Hf as [-> | (fl' & ->)]; cbn; rewrite Ht; cbn;
    destruct rs as [|[|[] d] rest]; try discriminate; cbn;
    repeat split; eauto.
Qed.

Lemma toggle_failure_leaves_progress_witness :
  RoadmapDetail.userProgress
    (state_after (RoadmapDetail.toggleStepCompletion "b" true)
       (sample_screen ["a"; "b"] ["a"] (JFin 50))
       (signed_in_world [rejected_response]))
  = RoadmapDetail.userProgress (sample_screen ["a"; "b"] ["a"] (JFin 50)) /\
  (exists msg,
      alerts (world_after (RoadmapDetail.toggleStepCompletion "b" true)
                (sample_screen ["a"; "b"] ["a"] (JFin 50))
                (signed_in_world [rejected_response]))
      = alerts (signed_in_world [rejected_response])
        ++ [mkAlert "Error" msg []]) /\
  requests (world_after (RoadmapDetail.toggleStepCompletion "b" true)
              (sample_screen ["a"; "b"] ["a"] (JFin 50))
              (signed_in_world [rejected_response]))
  = requests (signed_in_world [rejected_response]) ++
    [RoadmapDetail.progress_request
       (sample_screen ["a"; "b"] ["a"] (JFin 50))
       (storage (signed_in_world [rejected_response]) auth_token) "b" true] /\
  responses (world_after (RoadmapDetail.toggleStepCompletion "b" true)
               (sample_screen ["a"; "b"] ["a"] (JFin 50))
               (signed_in_world [rejected_response]))
  = tl (responses (signed_in_world [rejected_response])) /\
  RoadmapDetail.updatingStep
    (state_after (RoadmapDetail.toggleStepCompletion "b" true)
       (sample_screen ["a"; "b"] ["a"] (JFin 50))
       (signed_in_world [rejected_response]))
  = None.
Proof.
  apply (@toggle_failure_leaves_progress
           (sample_screen ["a"; "b"] ["a"] (JFin 50))
           (signed_in_world [rejected_response]) "b" true).
  reflexivity.
Defined.

(** The two failures show different messages. *)
Lemma toggle_failure_messages st stepId completed :
  alerts (world_after (RoadmapDetail.toggleStepCompletion stepId completed)
            st (signed_in_world [rejected_response]))
  = [mkAlert "Error" "Failed to update progress" []] /\
  alerts (world_after (RoadmapDetail.toggleStepCompletion stepId completed)
            st (signed_in_world [NetThrow]))
  = [mkAlert "Error" "Network error occurred" []].
Proof. destruct st. split; reflexivity. Qed.

(** C10: with no progress record loaded, a successful toggle leaves the
    local progress state absent and shows nothing, and every step is
    reported as not completed, before and after. *)
Theorem toggle_without_progress_record st w stepId completed :
  RoadmapDetail.userProgress st = None ->
  toggle_succeeds w = true ->
  RoadmapDetail.userProgress
    (state_after (RoadmapDetail.toggleStepCompletion stepId completed) st w)
  = None /\
  completed_of
    (state_after (RoadmapDetail.toggleStepCompletion stepId completed) st w)
  = None /\
  percentage_of
    (state_after (RoadmapDetail.toggleStepCompletion stepId completed) st w)
  = None /\
  alerts (world_after (RoadmapDetail.toggleStepCompletion stepId completed)
                      st w) = alerts w /\
  (forall s, RoadmapDetail.isStepCompleted st s = false) /\
  (forall s,
      RoadmapDetail.isStepCompleted
        (state_after (RoadmapDetail.toggleStepCompletion stepId completed)
                     st w) s = false).
Proof.
  intros Hnone Hok. unfold RoadmapDetail.isStepCompleted. after_success.
  rewrite Hnone. cbn [option_map alerts]. repeat split; reflexivity.
Qed.

Lemma toggle_without_progress_record_witness :
  RoadmapDetail.userProgress
    (state_after (RoadmapDetail.toggleStepCompletion "a" true)
       (sample_screen_no_progress ["a"; "b"]) (signed_in_world [ok_response]))
  = None /\
  completed_of
    (state_after (RoadmapDetail.toggleStepCompletion "a" true)
       (sample_screen_no_progress ["a"; "b"]) (signed_in_world [ok_response]))
  = None /\
  percentage_of
    (state_after (RoadmapDetail.toggleStepCompletion "a" true)
       (sample_screen_no_progress ["a"; "b"]) (signed_in_world [ok_response]))
  = None /\
  alerts (world_after (RoadmapDetail.toggleStepCompletion "a" true)
            (sample_screen_no_progress ["a"; "b"])
            (signed_in_world [ok_response]))
  = alerts (signed_in_world [ok_response]) /\
  (forall s,
      RoadmapDetail.isStepCompleted (sample_screen_no_progress ["a"; "b"]) s
      = false) /\
  (forall s,
      RoadmapDetail.isStepCompleted
        (state_after (RoadmapDetail.toggleStepCompletion "a" true)
           (sample_screen_no_progress ["a"; "b"])
           (signed_in_world [ok_response])) s = false).
Proof.
  apply (@toggle_without_progress_record
           (sample_screen_no_progress ["a"; "b"])
           (signed_in_world [ok_response]) "a" true);
    reflexivity.
Defined.

(** ** Presses while toggles are in flight *)

Ltac run_phase :=
  unfold RoadmapDetail.toggle_start, RoadmapDetail.toggle_finish,
    RoadmapDetail.toggleStepCompletion, RoadmapDetail.toggle_resume,
    RoadmapDetail.setUpdatingStep, RoadmapDetail.setUserProgress,
    try_finally, try_catch, bind, ret, throw, get_state, modify, getItem,
    fetch, send_request, await_response, alert, alert_with, console_log,
    navigate, pop_fault;
  cbn.

Section Guard.
Import RoadmapDetail.

(** The handler is the two parts run one after the other. *)
Lemma toggle_in_two_parts stepId completed st w :
  toggleStepCompletion stepId completed st w
  = (cl <- get_state ;;
     setUpdatingStep (Some stepId) ;;;
     sent <- toggle_start cl stepId completed ;;
     if sent then toggle_finish cl stepId completed else ret tt) st w.
Proof.
  destruct st as [i r p l u], w as [sto fl rs rq al co nv]. run_phase.
  destruct fl as [|[] fl]; cbn; try reflexivity.
  all: destruct (stored_truthy (sto auth_token)); cbn; try reflexivity.
  all: destruct rs as [|[|[] d] rest]; cbn; try reflexivity.
  all: destruct p; reflexivity.
Qed.

(** The first part, with a token at hand: the request is sent and the step
    stays marked as updating. *)
Lemma start_with_token cl s c st w :
  token_ready w = true ->
  (setUpdatingStep (Some s) ;;; toggle_start cl s c) st w
  = (Val true,
     mkState (id st) (roadmap st) (userProgress st) (loading st) (Some s),
     mkWorld (storage w) (tl (storage_faults w)) (responses w)
             (requests w ++ [progress_request cl (storage w auth_token) s c])
             (alerts w) (console w) (navigation w)).
Proof.
  intros Ht. apply token_ready_inv in Ht as [Ht Hf].
  destruct st as [i r p l u], w as [sto fl rs rq al co nv]. cbn in *.
  run_phase. destruct Hf as [-> | (fl' & ->)]; cbn; rewrite Ht; reflexivity.
Qed.

(** The first part, whatever the store does: it does not reject, it leaves
    the roadmap and the record alone, and the step is marked as updating
    exactly when a response is awaited. *)
Lemma start_effect cl s c st w :
  exists sent st' w',
    (setUpdatingStep (Some s) ;;; toggle_start cl s c) st w
    = (Val sent, st', w') /\
    roadmap st' = roadmap st /\ userProgress st' = userProgress st /\
    updatingStep st' = (if sent then Some s else None).
Proof.
  destruct st as [i r p l u], w as [sto fl rs rq al co nv]. run_phase.
  destruct fl as [|[] fl]; cbn;
    try destruct (stored_truthy (sto auth_token)); cbn;
    do 3 eexists; repeat split.
Qed.

(** A press on the step marked as updating is ignored. *)
Lemma press_updating_step_ignored sys s :
  updatingStep (screen sys) = Some s ->
  step sys (Press s) = sys.
Proof.
  intros H. unfold step, isUpdating. rewrite H, String.eqb_refl.
  now rewrite andb_false_r.
Qed.

(** An accepted press: the step is marked as updating, its request is sent,
    and its toggle joins the toggles in flight with the render it was
    pressed in. *)
Lemma press_accepted sys s :
  renders_step (screen sys) s = true ->
  isUpdating (screen sys) s = false ->
  token_ready (world sys) = true ->
  step sys (Press s)
  = mkSys
      (mkState (id (screen sys)) (roadmap (screen sys))
               (userProgress (screen sys)) (loading (screen sys)) (Some s))
      (mkWorld (storage (world sys)) (tl (storage_faults (world sys)))
               (responses (world sys))
               (requests (world sys) ++
                [progress_request (screen sys)
                                  (storage (world sys) auth_token) s
                                  (negb (isStepCompleted (screen sys) s))])
               (alerts (world sys)) (console (world sys))
               (navigation (world sys)))
      (inflight sys ++
       [mkPending (screen sys) s (negb (isStepCompleted (screen sys) s))]).
Proof.
  intros Hr Hu Ht. cbn [step]. rewrite Hr, Hu. cbn [negb andb].
  now rewrite start_with_token by assumption.
Qed.

(** A press on a rendered step that is not the one marked as updating
    starts a toggle and marks that step instead. *)
Lemma press_other_step_accepted sys s :
  renders_step (screen sys) s = true ->
  updatingStep (screen sys) <> Some s ->
  token_ready (world sys) = true ->
  inflight_steps (step sys (Press s)) = inflight_steps sys ++ [s] /\
  updatingStep (screen (step sys (Press s))) = Some s.
Proof.
  intros Hr Hu Ht. rewrite press_accepted; try assumption.
  - unfold inflight_steps. cbn. rewrite map_app. now split.
  - unfold isUpdating. destruct (updatingStep (screen sys)) as [t|];
      [|reflexivity].
    apply String.eqb_neq. intros ->. now apply Hu.
Qed.

(** With one toggle in flight and nothing pressed since, a second press on
    its step is suppressed. *)
Lemma second_press_suppressed_without_overlap sys s :
  renders_step (screen sys) s = true ->
  updatingStep (screen sys) <> Some s ->
  token_ready (world sys) = true ->
  run sys [Press s; Press s] = run sys [Press s].
Proof.
  intros Hr Hu Ht. cbn [run fold_left].
  apply press_updating_step_ignored.
  now apply press_other_step_accepted.
Qed.

End Guard.

(** C6: the guard is the single slot [updatingStep].  A press on step ["b"]
    while the toggle of ["a"] is in flight overwrites the slot, so a further
    press on ["a"] is accepted and a second toggle of ["a"] is in flight with
    the first; both send their request.  And when the toggle of ["a"]
    settles it clears the slot, so ["b"] can be pressed again while its own
    toggle is in flight. *)
Theorem overlapping_toggles_defeat_guard :
  RoadmapDetail.inflight_steps
    (RoadmapDetail.run
       (sample_sys ["a"; "b"] [] (JFin 0) [ok_response; ok_response; ok_response])
       [RoadmapDetail.Press "a"; RoadmapDetail.Press "a"])
  = ["a"] /\
  RoadmapDetail.inflight_steps
    (RoadmapDetail.run
       (sample_sys ["a"; "b"] [] (JFin 0) [ok_response; ok_response; ok_response])
       [RoadmapDetail.Press "a"; RoadmapDetail.Press "b";
        RoadmapDetail.Press "a"])
  = ["a"; "b"; "a"] /\
  toggled_steps
    (RoadmapDetail.world
       (RoadmapDetail.run
          (sample_sys ["a"; "b"] [] (JFin 0)
                      [ok_response; ok_response; ok_response])
          [RoadmapDetail.Press "a"; RoadmapDetail.Press "b";
           RoadmapDetail.Press "a"; RoadmapDetail.Settle 0;
           RoadmapDetail.Settle 0; RoadmapDetail.Settle 0]))
  = [("a", true); ("b", true); ("a", true)] /\
  RoadmapDetail.inflight_steps
    (RoadmapDetail.run
       (sample_sys ["a"; "b"] [] (JFin 0) [ok_response; ok_response; ok_response])
       [RoadmapDetail.Press "a"; RoadmapDetail.Press "b";
        RoadmapDetail.Settle 0; RoadmapDetail.Press "b"])
  = ["b"; "b"].
Proof. repeat split; vm_compute; reflexivity. Qed.

(** ** Session bootstrap *)

Ltac run_bootstrap :=
  unfold bootstrap, Landing.checkAuthStatus, Dashboard.initializeData,
    Dashboard.fetchRoadmaps, Dashboard.fetchUserProgress,
    Dashboard.setUser, Dashboard.setLoading, Dashboard.setRoadmaps,
    Dashboard.setUserProgress, JSON_parse, response_json, roadmaps_of,
    progress_list_of, fresh_world, route_of,
    try_finally, try_catch, bind, ret, throw, get_state, modify, getItem,
    fetch, alert, alert_with, console_log, navigate, pop_fault;
  cbn.

(** The requests of the dashboard never navigate nor alert, whatever their
    outcome. *)
Lemma fetchRoadmaps_quiet stream token st w :
  navigation (world_after (Dashboard.fetchRoadmaps stream token) st w)
  = navigation w /\
  alerts (world_after (Dashboard.fetchRoadmaps stream token) st w) = alerts w /\
  storage_faults (world_after (Dashboard.fetchRoadmaps stream token) st w)
  = storage_faults w /\
  result_of (Dashboard.fetchRoadmaps stream token) st w = Val tt.
Proof.
  unfold world_after, result_of. destruct w as [sto fl rs rq al co nv].
  unfold Dashboard.fetchRoadmaps, try_catch, bind, fetch. cbn.
  destruct rs as [|[|[] []] rest]; cbn; repeat split; reflexivity.
Qed.

Lemma fetchUserProgress_quiet token st w :
  navigation (world_after (Dashboard.fetchUserProgress token) st w)
  = navigation w /\
  alerts (world_after (Dashboard.fetchUserProgress token) st w) = alerts w /\
  result_of (Dashboard.fetchUserProgress token) st w = Val tt.
Proof.
  unfold world_after, result_of. destruct w as [sto fl rs rq al co nv].
  unfold Dashboard.fetchUserProgress, try_catch, bind, fetch. cbn.
  destruct rs as [|[|[] []] rest]; cbn; repeat split; reflexivity.
Qed.




(** A token without a cached user sends the dashboard to the login screen. *)
Lemma bootstrap_token_without_cached_user resps :
  route_of (snd (bootstrap
                   (fresh_world (store_of (Some (Str "token-1")) None)
                                [] resps)))
  = "/auth/login".
Proof. reflexivity. Qed.

(** ** Login and registration *)

Ltac run_auth :=
  unfold state_after, world_after, result_of,
    Login.handleLogin, Login.setLoading, Login.login_request,
    Register.handleRegister, Register.validateForm, Register.setLoading,
    response_json, auth_of, detail_of,
    try_finally, try_catch, bind, ret, throw, get_state, modify, getItem,
    setItem, fetch, alert, alert_with, console_log, navigate, pop_fault;
  cbn.

(** C8: a login attempt that passes the local checks and that the server
    rejects writes nothing to the credential store and does not navigate; it
    ends in one alert, which shows the message of the server ([data.detail])
    when the response carries one. *)
Theorem login_rejection_persists_nothing st w data rest :
  JS.truthy (Login.email st) = true ->
  JS.truthy (Login.password st) = true ->
  JS.str_includes "@" (Login.email st) = true ->
  responses w = NetResponse false data :: rest ->
  storage (world_after Login.handleLogin st w) = storage w /\
  navigation (world_after Login.handleLogin st w) = navigation w /\
  requests (world_after Login.handleLogin st w)
  = requests w ++ [Login.login_request st] /\
  alerts (world_after Login.handleLogin st w)
  = alerts w ++ [login_rejection_alert data] /\
  (forall m, data = DDetail (Some m) -> m <> "" ->
             alerts (world_after Login.handleLogin st w)
             = alerts w ++ [mkAlert "Login Failed" m []]).
Proof.
  intros He Hp Hat Hr.
  destruct st as [e p l sp], w as [sto fl rs rq al co nv]. cbn in *. subst rs.
  run_auth. rewrite He, Hp, Hat. cbn.
  destruct data; cbn; repeat split; try reflexivity.
  all: intros m [= ->] Hm; unfold JS.or_else.
  all: destruct (JS.truthy m) eqn:E; [reflexivity|].
  all: unfold JS.truthy in E; apply negb_false_iff, String.eqb_eq in E.
  all: contradiction.
Qed.

Lemma login_rejection_persists_nothing_witness :
  storage (world_after Login.handleLogin sample_login
             (signed_out_world [rejected_response]))
  = storage (signed_out_world [rejected_response]) /\
  navigation (world_after Login.handleLogin sample_login
                (signed_out_world [rejected_response]))
  = navigation (signed_out_world [rejected_response]) /\
  requests (world_after Login.handleLogin sample_login
              (signed_out_world [rejected_response]))
  = requests (signed_out_world [rejected_response])
    ++ [Login.login_request sample_login] /\
  alerts (world_after Login.handleLogin sample_login
            (signed_out_world [rejected_response]))
  = alerts (signed_out_world [rejected_response])
    ++ [login_rejection_alert (DDetail (Some "Invalid email or password"))] /\
  (forall m, DDetail (Some "Invalid email or password") = DDetail (Some m) ->
             m <> "" ->
             alerts (world_after Login.handleLogin sample_login
                       (signed_out_world [rejected_response]))
             = alerts (signed_out_world [rejected_response])
               ++ [mkAlert "Login Failed" m []]).
Proof.
  apply (@login_rejection_persists_nothing
           sample_login (signed_out_world [rejected_response])
           (DDetail (Some "Invalid email or password")) []);
    reflexivity.
Defined.

Lemma truthy_nonempty s : JS.truthy s = true <-> s <> "".
Proof.
  unfold JS.truthy. rewrite negb_true_iff. apply String.eqb_neq.
Qed.

(** The check made by [validateForm] is the validation of the
    specification. *)
Lemma validateForm_spec st w :
  result_of Register.validateForm st w = Val true <-> valid_registration st.
Proof.
  unfold valid_registration. rewrite <- !truthy_nonempty.
  destruct st as [n e p c l]. run_auth.
  destruct (JS.truthy n); cbn; [|intuition discriminate].
  destruct (JS.truthy e); cbn; [|intuition discriminate].
  destruct (JS.truthy p); cbn; [|intuition discriminate].
  destruct (JS.truthy c); cbn; [|intuition discriminate].
  destruct (String.length n <=? 1)%nat eqn:En; cbn.
  { apply Nat.leb_le in En. split; [discriminate|]. intros H. lia. }
  apply Nat.leb_gt in En.
  destruct (JS.str_includes "@" e); cbn; [|intuition discriminate].
  destruct (String.length p <=? 5)%nat eqn:Ep; cbn.
  { apply Nat.leb_le in Ep. split; [discriminate|]. intros H. lia. }
  apply Nat.leb_gt in Ep.
  destruct (p =? c) eqn:Epc; cbn.
  - apply String.eqb_eq in Epc. intuition.
  - apply String.eqb_neq in Epc. intuition discriminate.
Qed.

(** [validateForm] sends nothing, and when it fails it shows one alert. *)
Lemma validateForm_local st w :
  requests (world_after Register.validateForm st w) = requests w /\
  responses (world_after Register.validateForm st w) = responses w /\
  storage (world_after Register.validateForm st w) = storage w /\
  state_after Register.validateForm st w = st /\
  (result_of Register.validateForm st w = Val true \/
   result_of Register.validateForm st w = Val false /\
   exists msg, alerts (world_after Register.validateForm st w)
               = alerts w ++ [mkAlert "Error" msg []]).
Proof.
  destruct st as [n e p c l]. run_auth.
  destruct (JS.truthy n), (JS.truthy e), (JS.truthy p), (JS.truthy c),
    (String.length n <=? 1)%nat, (JS.str_includes "@" e),
    (String.length p <=? 5)%nat, (p =? c); cbn; repeat split; eauto.
Qed.

(** C9: [validateForm] accepts exactly the inputs that are all non-empty,
    with a name of at least 2 characters, an email containing ["@"], a
    password of at least 6 characters and a confirmation equal to the
    password; it sends nothing itself.  [handleRegister] runs it first: when
    a check fails (a confirmation that differs from the password among
    them) it returns with no request sent, nothing stored and no navigation;
    when all pass it sends the one registration request. *)
Theorem register_validation_blocks_request st w :
  (result_of Register.validateForm st w = Val true <-> valid_registration st) /\
  requests (world_after Register.validateForm st w) = requests w /\
  (~ valid_registration st ->
   requests (world_after Register.handleRegister st w) = requests w /\
   responses (world_after Register.handleRegister st w) = responses w /\
   storage (world_after Register.handleRegister st w) = storage w /\
   navigation (world_after Register.handleRegister st w) = navigation w /\
   exists msg, alerts (world_after Register.handleRegister st w)
               = alerts w ++ [mkAlert "Error" msg []]) /\
  (Register.password st <> Register.confirmPassword st ->
   requests (world_after Register.handleRegister st w) = requests w) /\
  (valid_registration st ->
   requests (world_after Register.handleRegister st w)
   = requests w ++ [Register.register_request st]).
Proof.
  pose proof (validateForm_spec st w) as Hs.
  pose proof (validateForm_local st w) as Hl.
  assert (Hblocked :
            ~ valid_registration st ->
            world_after Register.handleRegister st w
            = world_after Register.validateForm st w).
  { intros Hinv. unfold world_after, result_of in *.
    unfold Register.handleRegister at 1. unfold bind at 1.
    destruct (Register.validateForm st w) as [[r s'] w'].
    cbn [fst snd] in *.
    destruct Hl as (_ & _ & _ & _ & [Ht | (Hf & _)]).
    - exfalso. apply Hinv. now apply Hs.
    - subst r. reflexivity. }
  split; [exact Hs|]. split; [apply Hl|]. split; [|split].
  - intros Hinv. rewrite (Hblocked Hinv).
    destruct Hl as (Hrq & Hrs & Hsto & _ & [Ht | (_ & Ha)]).
    + exfalso. apply Hinv. now apply Hs.
    + repeat split; try assumption.
      clear - Hinv. destruct st as [n e p c l]. run_auth.
      destruct (JS.truthy n), (JS.truthy e), (JS.truthy p), (JS.truthy c),
        (String.length n <=? 1)%nat, (JS.str_includes "@" e),
        (String.length p <=? 5)%nat, (p =? c); reflexivity.
  - intros Hne. rewrite Hblocked; [apply Hl|].
    intros Hv. apply Hne. apply Hv.
  - intros Hv. apply Hs in Hv. unfold world_after, result_of, state_after in *.
    unfold Register.handleRegister at 1. unfold bind at 1.
    destruct (Register.validateForm st w) as [[r s'] w'].
    cbn [fst snd] in *. destruct Hl as (Hrq & _ & _ & Hst & _).
    subst r s'. rewrite <- Hrq. clear.
    destruct st as [n e p c l], w' as [sto fl rs rq al co nv]. run_auth.
    destruct rs as [|[|[] []] rest]; cbn; try reflexivity.
    destruct fl as [|[] [|[] fl]]; reflexivity.
Qed.

Lemma register_validation_blocks_request_witness :
  requests (world_after Register.handleRegister
              (sample_registration "secret1" "secret2")
              (signed_out_world [ok_response]))
  = requests (signed_out_world [ok_response]) /\
  requests (world_after Register.handleRegister
              (sample_registration "secret1" "secret1")
              (signed_out_world [ok_response]))
  = requests (signed_out_world [ok_response])
    ++ [Register.register_request (sample_registration "secret1" "secret1")].
Proof.
  split.
  - destruct (register_validation_blocks_request
                (sample_registration "secret1" "secret2")
                (signed_out_world [ok_response]))
      as (_ & _ & _ & H & _).
    apply H. cbn. discriminate.
  - destruct (register_validation_blocks_request
                (sample_registration "secret1" "secret1")
                (signed_out_world [ok_response]))
      as (_ & _ & _ & _ & H).
    apply H. unfold valid_registration. cbn.
    repeat split; try discriminate; try lia.
Defined.

(** ** The invariant along the events of the roadmap screen *)

Section Invariant.
Import RoadmapDetail.

(** Whatever the outcome, a settling toggle leaves the roadmap alone, and
    the progress record is either untouched or the one computed from the
    render the toggle was pressed in. *)
Lemma toggle_finish_effect cl s c st w :
  roadmap (state_after (toggle_finish cl s c) st w) = roadmap st /\
  (userProgress (state_after (toggle_finish cl s c) st w) = userProgress st \/
   exists up,
     userProgress cl = Some up /\
     userProgress (state_after (toggle_finish cl s c) st w)
     = Some (updatedProgress (roadmap cl) up s c)).
Proof.
  destruct st as [i r p l u], w as [sto fl rs rq al co nv].
  unfold state_after. run_phase.
  destruct rs as [|[|[] d] rest]; cbn;
    try (split; [reflexivity | now left]).
  destruct (userProgress cl) as [up|]; cbn;
    split; try reflexivity; try (now left).
  right; exists up; now split.
Qed.

Lemma Forall_remove_nth {A} (P : A -> Prop) k l :
  Forall P l -> Forall P (remove_nth k l).
Proof.
  revert k. induction l as [|x l IH]; intros k H; destruct k; cbn;
    try assumption.
  - now inversion H.
  - inversion H; subst. constructor; [assumption | now apply IH].
Qed.

(** A toggle leaves a record that fits the roadmap. *)
Lemma updatedProgress_well_formed r up stepId :
  well_formed r up ->
  In stepId (step_ids r) ->
  well_formed r (updatedProgress (Some r) up stepId
                   (negb (JS.includes (completed_steps up) stepId))).
Proof.
  intros (Hids & Hnd & Hincl) Hin. unfold updatedProgress, well_formed.
  cbn [completed_steps]. split; [assumption|]. split.
  - now apply updatedSteps_NoDup.
  - now apply updatedSteps_incl.
Qed.

Section Preserved.
Variable P : UserProgress -> Prop.
Variable r : CareerRoadmap.
Hypothesis P_toggle :
  forall up stepId,
    P up -> In stepId (step_ids r) ->
    P (updatedProgress (Some r) up stepId
         (negb (JS.includes (completed_steps up) stepId))).

(** Every event of the screen keeps the invariant: [P] holds of the record
    on screen and of the records captured by the toggles in flight. *)
Lemma step_keeps_sys_inv sys e :
  sys_inv P r sys -> sys_inv P r (step sys e).
Proof.
  intros (Hr & Hup & Hpend). destruct e as [s | k]; cbn [step].
  - destruct (renders_step (screen sys) s && negb (isUpdating (screen sys) s))
      eqn:E; [|split; [assumption | split; assumption]].
    apply andb_true_iff in E as [Hrend _].
    unfold renders_step in Hrend. rewrite Hr in Hrend.
    apply andb_true_iff in Hrend as [_ Hin]. apply includes_In in Hin.
    destruct (start_effect (screen sys) s
                (negb (isStepCompleted (screen sys) s)) (screen sys)
                (world sys)) as (sent & st' & w' & -> & Hro & Hpr & _).
    assert (Hscreen : roadmap st' = Some r /\
                      forall up, userProgress st' = Some up -> P up).
    { rewrite Hro, Hpr. now split. }
    destruct Hscreen as [Hr' Hup'].
    destruct sent; unfold sys_inv; cbn [screen world inflight].
    + split; [exact Hr'|]. split; [exact Hup'|].
      apply Forall_app. split; [assumption|]. constructor; [|constructor].
      unfold pending_inv. cbn [pend_closure pend_step pend_completed].
      split; [exact Hr|]. split; [exact Hin|].
      split; [reflexivity | exact Hup].
    + split; [exact Hr'|]. split; [exact Hup' | exact Hpend].
  - destruct (nth_error (inflight sys) k) as [p|] eqn:E;
      [|split; [assumption | split; assumption]].
    assert (Hp : pending_inv P r p).
    { rewrite Forall_forall in Hpend. apply Hpend.
      eapply nth_error_In; eassumption. }
    destruct Hp as (Hcr & Hin & Hc & Hcup).
    pose proof (toggle_finish_effect (pend_closure p) (pend_step p)
                                     (pend_completed p) (screen sys)
                                     (world sys)) as (Hro & Hpr).
    unfold state_after in Hro, Hpr.
    destruct (toggle_finish (pend_closure p) (pend_step p) (pend_completed p)
                            (screen sys) (world sys)) as [[res st'] w'].
    cbn [fst snd] in *. unfold sys_inv. cbn [screen inflight].
    split; [now rewrite Hro|]. split; [|now apply Forall_remove_nth].
    intros up Hst'. destruct Hpr as [Heq | (up0 & Hup0 & Heq)].
    + apply Hup. now rewrite <- Heq.
    + rewrite Heq in Hst'. injection Hst' as <-. rewrite Hcr, Hc.
      unfold isStepCompleted. rewrite Hup0, orb_false_r.
      apply P_toggle; [now apply Hcup | exact Hin].
Qed.

Lemma run_keeps_sys_inv events sys :
  sys_inv P r sys -> sys_inv P r (run sys events).
Proof.
  revert sys. induction events as [|e events IH]; intros sys H; [exact H|].
  cbn [run fold_left]. apply IH. now apply step_keeps_sys_inv.
Qed.

End Preserved.

(** Through the presses of the screen and the settling of their requests, in
    any order and with any outcome, the record on screen fits the
    roadmap. *)
Lemma reachable_records_fit r sys events up :
  sys_fits r sys ->
  userProgress (screen (run sys events)) = Some up ->
  well_formed r up.
Proof.
  intros H Hup.
  assert (Hinv : sys_inv (well_formed r) r (run sys events)).
  { apply run_keeps_sys_inv; [|exact H].
    intros up0 s Hwf Hin. now apply updatedProgress_well_formed. }
  destruct Hinv as (_ & Hrec & _). now apply Hrec.
Qed.

(** And on a roadmap whose steps fit an array, it keeps a percentage between
    0 and 100 that is 100 exactly when every step is completed. *)
Lemma reachable_records_in_range r sys events up :
  js_array (steps r) ->
  sys_ok r sys ->
  userProgress (screen (run sys events)) = Some up ->
  well_formed r up /\ percentage_in_range r up.
Proof.
  intros Hjs H Hup.
  assert (Hinv : sys_inv (record_ok r) r (run sys events)).
  { apply run_keeps_sys_inv; [|exact H].
    intros up0 s [Hwf _] Hin.
    destruct (updatedProgress_fits s Hwf Hjs Hin) as (Hwf' & _ & Hrange).
    split; assumption. }
  destruct Hinv as (_ & Hrec & _). now apply Hrec.
Qed.

End Invariant.

(* ================================================================== *)
(** * Further properties of the handlers *)

Ltac run_screen :=
  unfold state_after, world_after, result_of,
    Login.handleLogin, Login.setLoading, Login.login_request,
    Login.checkAuthStatus,
    Register.handleRegister, Register.validateForm, Register.setLoading,
    StreamSelection.handleContinue, StreamSelection.setLoading,
    StreamSelection.stream_request,
    Dashboard.onRefresh, Dashboard.logoutPressed, Dashboard.setRefreshing,
    Dashboard.initializeData, Dashboard.fetchRoadmaps,
    Dashboard.fetchUserProgress, Dashboard.setUser, Dashboard.setLoading,
    Dashboard.setRoadmaps, Dashboard.setUserProgress,
    RoadmapDetail.onMount, RoadmapDetail.fetchRoadmapData,
    RoadmapDetail.setRoadmap, RoadmapDetail.setLoading,
    RoadmapDetail.toggleStepCompletion, RoadmapDetail.toggle_resume,
    RoadmapDetail.setUpdatingStep, RoadmapDetail.setUserProgress,
    RoadmapDetail.roadmap_request, RoadmapDetail.progress_fetch_request,
    JSON_parse, response_json, auth_of, detail_of, roadmaps_of,
    progress_list_of, roadmap_of, progress_of,
    try_finally, try_catch, bind, ret, throw, get_state, modify, getItem,
    setItem, removeItem, fetch, alert, alert_with, console_log, navigate,
    pop_fault;
  cbn.

(** The shapes of a fault schedule whose first accesses do not throw. *)
Lemma read_ok_0 faults :
  read_ok 0 faults = true ->
  faults = [] \/ exists rest, faults = false :: rest.
Proof.
  unfold read_ok. destruct faults as [|[] rest]; cbn; intros H;
    [now left | discriminate | right; now exists rest].
Qed.

Lemma read_ok_01 faults :
  read_ok 0 faults && read_ok 1 faults = true ->
  faults = [] \/ faults = [false] \/
  exists rest, faults = false :: false :: rest.
Proof.
  unfold read_ok. destruct faults as [|[] [|[] rest]]; cbn; intros H;
    try discriminate; [now left | right; now left |].
  right. right. now exists rest.
Qed.

(** ** Login *)

(** The store after an accepted login. *)
Lemma accepted_login_store st w tok u rest :
  JS.truthy (Login.email st) = true ->
  JS.truthy (Login.password st) = true ->
  JS.str_includes "@" (Login.email st) = true ->
  responses w = NetResponse true (DAuth tok u) :: rest ->
  read_ok 0 (storage_faults w) && read_ok 1 (storage_faults w) = true ->
  storage (world_after Login.handleLogin st w) auth_token = Some (Str tok) /\
  storage (world_after Login.handleLogin st w) user_data
  = Some (UserJson u).
Proof.
  intros He Hp Hat Hr Hf. apply read_ok_01 in Hf.
  destruct st as [e p l sp], w as [sto fl rs rq al co nv]. cbn in *. subst rs.
  run_screen. rewrite He, Hp, Hat. cbn.
  destruct Hf as [-> | [-> | (fl' & ->)]]; cbn;
    destruct (JS.truthy_opt (selected_stream u)); cbn; split; reflexivity.
Qed.

(** X1: A login that passes the local checks and is accepted stores the token
    and the user, and replaces the route by the dashboard when the user has a
    stream, by stream selection otherwise; nothing is alerted and the button
    is released. *)
Theorem login_success_persists_and_routes st w tok u rest :
  JS.truthy (Login.email st) = true ->
  JS.truthy (Login.password st) = true ->
  JS.str_includes "@" (Login.email st) = true ->
  responses w = NetResponse true (DAuth tok u) :: rest ->
  read_ok 0 (storage_faults w) && read_ok 1 (storage_faults w) = true ->
  storage (world_after Login.handleLogin st w) auth_token = Some (Str tok) /\
  storage (world_after Login.handleLogin st w) user_data
  = Some (UserJson u) /\
  navigation (world_after Login.handleLogin st w)
  = navigation w ++
    [Replace (if JS.truthy_opt (selected_stream u) then "/dashboard"
              else "/stream-selection")] /\
  alerts (world_after Login.handleLogin st w) = alerts w /\
  Login.loading (state_after Login.handleLogin st w) = false.
Proof.
  intros He Hp Hat Hr Hf. apply read_ok_01 in Hf.
  destruct st as [e p l sp], w as [sto fl rs rq al co nv]. cbn in *. subst rs.
  run_screen. rewrite He, Hp, Hat. cbn.
  destruct Hf as [-> | [-> | (fl' & ->)]]; cbn;
    destruct (JS.truthy_opt (selected_stream u)); cbn; repeat split.
Qed.

Lemma login_success_persists_and_routes_witness :
  storage (world_after Login.handleLogin sample_login
             (signed_out_world
                [NetResponse true (DAuth "token-1" (sample_user None))]))
          auth_token = Some (Str "token-1") /\
  storage (world_after Login.handleLogin sample_login
             (signed_out_world
                [NetResponse true (DAuth "token-1" (sample_user None))]))
          user_data = Some (UserJson (sample_user None)) /\
  navigation (world_after Login.handleLogin sample_login
                (signed_out_world
                   [NetResponse true (DAuth "token-1" (sample_user None))]))
  = navigation (signed_out_world
                  [NetResponse true (DAuth "token-1" (sample_user None))]) ++
    [Replace (if JS.truthy_opt (selected_stream (sample_user None))
              then "/dashboard" else "/stream-selection")] /\
  alerts (world_after Login.handleLogin sample_login
            (signed_out_world
               [NetResponse true (DAuth "token-1" (sample_user None))]))
  = alerts (signed_out_world
              [NetResponse true (DAuth "token-1" (sample_user None))]) /\
  Login.loading
    (state_after Login.handleLogin sample_login
       (signed_out_world
          [NetResponse true (DAuth "token-1" (sample_user None))]))
  = false.
Proof.
  apply (@login_success_persists_and_routes
           sample_login
           (signed_out_world
              [NetResponse true (DAuth "token-1" (sample_user None))])
           "token-1" (sample_user None) []);
    reflexivity.
Defined.

(** X2: A login that fails a local check (an empty field, or an email without
    ["@"]) sends nothing, stores nothing and does not navigate; it shows one
    alert and leaves the form as it is. *)
Theorem login_local_check_blocks st w :
  JS.truthy (Login.email st) && JS.truthy (Login.password st)
  && JS.str_includes "@" (Login.email st) = false ->
  requests (world_after Login.handleLogin st w) = requests w /\
  responses (world_after Login.handleLogin st w) = responses w /\
  storage (world_after Login.handleLogin st w) = storage w /\
  navigation (world_after Login.handleLogin st w) = navigation w /\
  (exists msg, alerts (world_after Login.handleLogin st w)
               = alerts w ++ [mkAlert "Error" msg []]) /\
  state_after Login.handleLogin st w = st.
Proof.
  intros H. destruct st as [e p l sp]. cbn in H. run_screen.
  destruct (JS.truthy e), (JS.truthy p), (JS.str_includes "@" e);
    try discriminate; cbn; repeat split; eauto.
Qed.

Lemma login_local_check_blocks_witness :
  requests (world_after Login.handleLogin
              (Login.mkState "nobody.example.com" "secret1" false false)
              (accepting_world (sample_user None)))
  = requests (accepting_world (sample_user None)) /\
  responses (world_after Login.handleLogin
               (Login.mkState "nobody.example.com" "secret1" false false)
               (accepting_world (sample_user None)))
  = responses (accepting_world (sample_user None)) /\
  storage (world_after Login.handleLogin
             (Login.mkState "nobody.example.com" "secret1" false false)
             (accepting_world (sample_user None)))
  = storage (accepting_world (sample_user None)) /\
  navigation (world_after Login.handleLogin
                (Login.mkState "nobody.example.com" "secret1" false false)
                (accepting_world (sample_user None)))
  = navigation (accepting_world (sample_user None)) /\
  (exists msg,
      alerts (world_after Login.handleLogin
                (Login.mkState "nobody.example.com" "secret1" false false)
                (accepting_world (sample_user None)))
      = alerts (accepting_world (sample_user None))
        ++ [mkAlert "Error" msg []]) /\
  state_after Login.handleLogin
    (Login.mkState "nobody.example.com" "secret1" false false)
    (accepting_world (sample_user None))
  = Login.mkState "nobody.example.com" "secret1" false false.
Proof.
  apply (@login_local_check_blocks
           (Login.mkState "nobody.example.com" "secret1" false false)
           (accepting_world (sample_user None))).
  reflexivity.
Defined.

(** X3: No outcome of the store or of the network makes [handleLogin] reject:
    every failure is caught inside the handler; and once the local checks are
    passed the handler ends with [loading] reset. *)
Theorem login_never_rejects st w :
  result_of Login.handleLogin st w = Val tt /\
  (JS.truthy (Login.email st) && JS.truthy (Login.password st)
   && JS.str_includes "@" (Login.email st) = true ->
   Login.loading (state_after Login.handleLogin st w) = false).
Proof.
  destruct st as [e p l sp], w as [sto fl rs rq al co nv]. run_screen.
  destruct (JS.truthy e), (JS.truthy p), (JS.str_includes "@" e); cbn;
    try (split; [reflexivity | discriminate]).
  destruct rs as [|[|[] []] rest]; cbn; try (split; reflexivity).
  all: destruct fl as [|[] [|[] fl]]; cbn;
    destruct (JS.truthy_opt (selected_stream user)); split; reflexivity.
Qed.

Lemma login_never_rejects_witness :
  result_of Login.handleLogin sample_login
            (half_failing_world (sample_user None)) = Val tt /\
  Login.loading (state_after Login.handleLogin sample_login
                   (half_failing_world (sample_user None))) = false.
Proof.
  destruct (login_never_rejects sample_login
              (half_failing_world (sample_user None))) as [H1 H2].
  split; [exact H1 | apply H2; reflexivity].
Defined.

(** ** What the next start of the application does with a store *)

(** With a readable store, the start ends on the landing page without a
    token and on the login screen with a token but no cached user; with a
    cached user it ends where the user's stream says, and with a cache that
    does not parse it stays on the dashboard. *)
Lemma start_with_store store resps :
  route_of (snd (bootstrap (fresh_world store [] resps))) =
  if negb (stored_truthy (store auth_token)) then "/"
  else match store user_data with
       | Some (UserJson u) =>
           if JS.truthy_opt (selected_stream u) then "/dashboard"
           else "/stream-selection"
       | Some (Str s) => if JS.truthy s then "/dashboard" else "/auth/login"
       | None => "/auth/login"
       end.
Proof.
  run_bootstrap. destruct (stored_truthy (store auth_token)) eqn:Ht; cbn;
    [|reflexivity].
  rewrite Ht. destruct (store user_data) as [[s|u]|]; cbn; rewrite ?Ht; cbn;
    try reflexivity.
  - destruct (JS.truthy s); reflexivity.
  - destruct (JS.truthy_opt (selected_stream u)); cbn; [|reflexivity].
    destruct resps as [|[|[] []] [|[|[] []] rest]]; reflexivity.
Qed.

(** X4: A successful login followed by a restart of the application: the start
    ends on the dashboard when the user has a stream, on stream selection
    otherwise (the server returning a non-empty token). *)
Theorem login_then_restart st w tok u rest resps :
  JS.truthy (Login.email st) = true ->
  JS.truthy (Login.password st) = true ->
  JS.str_includes "@" (Login.email st) = true ->
  responses w = NetResponse true (DAuth tok u) :: rest ->
  read_ok 0 (storage_faults w) && read_ok 1 (storage_faults w) = true ->
  tok <> "" ->
  route_of (snd (bootstrap
                   (fresh_world (storage (world_after Login.handleLogin st w))
                                [] resps)))
  = if JS.truthy_opt (selected_stream u) then "/dashboard"
    else "/stream-selection".
Proof.
  intros He Hp Hat Hr Hf Htok.
  destruct (accepted_login_store st w He Hp Hat Hr Hf)
    as (Ht & Hu).
  rewrite start_with_store, Ht, Hu. cbn.
  apply truthy_nonempty in Htok. now rewrite Htok.
Qed.

Lemma login_then_restart_witness :
  route_of (snd (bootstrap
                   (fresh_world
                      (storage (world_after Login.handleLogin sample_login
                                  (accepting_world
                                     (sample_user (Some "Arts")))))
                      [] [])))
  = if JS.truthy_opt (selected_stream (sample_user (Some "Arts")))
    then "/dashboard" else "/stream-selection".
Proof.
  apply (@login_then_restart
           sample_login (accepting_world (sample_user (Some "Arts")))
           "token-1" (sample_user (Some "Arts")) [] []);
    try reflexivity.
  discriminate.
Defined.

(** X5: When the token is written but the write of the user record throws, the
    login ends in the generic network alert without navigating, and the token
    stays in the store: with no user cached before, the next start passes the
    landing page and is sent from the dashboard to the login screen. *)
Theorem login_keeps_token_when_user_write_fails st w tok u rest fl resps :
  JS.truthy (Login.email st) = true ->
  JS.truthy (Login.password st) = true ->
  JS.str_includes "@" (Login.email st) = true ->
  responses w = NetResponse true (DAuth tok u) :: rest ->
  storage_faults w = false :: true :: fl ->
  storage (world_after Login.handleLogin st w) auth_token = Some (Str tok) /\
  storage (world_after Login.handleLogin st w) user_data
  = storage w user_data /\
  navigation (world_after Login.handleLogin st w) = navigation w /\
  alerts (world_after Login.handleLogin st w)
  = alerts w ++ [mkAlert "Error" "Network error. Please try again." []] /\
  (tok <> "" -> storage w user_data = None ->
   route_of (snd (bootstrap
                    (fresh_world
                       (storage (world_after Login.handleLogin st w))
                       [] resps)))
   = "/auth/login").
Proof.
  intros He Hp Hat Hr Hf.
  assert (Hsto :
            storage (world_after Login.handleLogin st w) auth_token
            = Some (Str tok) /\
            storage (world_after Login.handleLogin st w) user_data
            = storage w user_data /\
            navigation (world_after Login.handleLogin st w) = navigation w /\
            alerts (world_after Login.handleLogin st w)
            = alerts w ++
              [mkAlert "Error" "Network error. Please try again." []]).
  { destruct st as [e p l sp], w as [sto fl0 rs rq al co nv]. cbn in *.
    subst rs fl0. run_screen. rewrite He, Hp, Hat. cbn.
    repeat split. }
  destruct Hsto as (Ht & Hu & Hn & Ha). repeat split; try assumption.
  intros Htok Hnone. rewrite start_with_store, Ht, Hu, Hnone. cbn.
  apply truthy_nonempty in Htok. now rewrite Htok.
Qed.

Lemma login_keeps_token_when_user_write_fails_witness :
  storage (world_after Login.handleLogin sample_login
             (half_failing_world (sample_user None))) auth_token
  = Some (Str "token-1") /\
  storage (world_after Login.handleLogin sample_login
             (half_failing_world (sample_user None))) user_data
  = storage (half_failing_world (sample_user None)) user_data /\
  navigation (world_after Login.handleLogin sample_login
                (half_failing_world (sample_user None)))
  = navigation (half_failing_world (sample_user None)) /\
  alerts (world_after Login.handleLogin sample_login
            (half_failing_world (sample_user None)))
  = alerts (half_failing_world (sample_user None))
    ++ [mkAlert "Error" "Network error. Please try again." []] /\
  ("token-1" <> "" ->
   storage (half_failing_world (sample_user None)) user_data = None ->
   route_of (snd (bootstrap
                    (fresh_world
                       (storage (world_after Login.handleLogin sample_login
                                   (half_failing_world (sample_user None))))
                       [] [])))
   = "/auth/login").
Proof.
  apply (@login_keeps_token_when_user_write_fails
           sample_login (half_failing_world (sample_user None))
           "token-1" (sample_user None) [] [] []);
    reflexivity.
Defined.

(** ** Registration *)

Lemma valid_registration_checks st :
  valid_registration st ->
  JS.truthy (Register.name st) = true /\
  JS.truthy (Register.email st) = true /\
  JS.truthy (Register.password st) = true /\
  JS.truthy (Register.confirmPassword st) = true /\
  (String.length (Register.name st) <=? 1)%nat = false /\
  JS.str_includes "@" (Register.email st) = true /\
  (String.length (Register.password st) <=? 5)%nat = false /\
  (Register.password st =? Register.confirmPassword st) = true.
Proof.
  intros (Hn & He & Hp & Hc & Hln & Hat & Hlp & Heq).
  rewrite !truthy_nonempty. repeat split; try assumption.
  - apply Nat.leb_gt. lia.
  - apply Nat.leb_gt. lia.
  - now apply String.eqb_eq.
Qed.

Ltac valid_registration_run Hv :=
  apply valid_registration_checks in Hv;
  destruct Hv as (Hn & He & Hp & Hc & Hln & Hat & Hlp & Heq);
  cbn [Register.name Register.email Register.password
       Register.confirmPassword] in Hn, He, Hp, Hc, Hln, Hat, Hlp, Heq;
  run_screen; rewrite Hn, He, Hp, Hc; cbn; rewrite Hln; cbn;
  rewrite Hat; cbn; rewrite Hlp; cbn; rewrite Heq; cbn.

(** X6: An accepted registration stores the token and the user and shows the
    success alert, whose confirmation replaces the route by stream selection;
    the handler itself does not navigate. *)
Theorem register_success_persists st w tok u rest :
  valid_registration st ->
  responses w = NetResponse true (DAuth tok u) :: rest ->
  read_ok 0 (storage_faults w) && read_ok 1 (storage_faults w) = true ->
  storage (world_after Register.handleRegister st w) auth_token
  = Some (Str tok) /\
  storage (world_after Register.handleRegister st w) user_data
  = Some (UserJson u) /\
  navigation (world_after Register.handleRegister st w) = navigation w /\
  alerts (world_after Register.handleRegister st w)
  = alerts w ++ [mkAlert "Success" "Account created successfully!"
                         [Replace "/stream-selection"]] /\
  Register.loading (state_after Register.handleRegister st w) = false.
Proof.
  intros Hv Hr Hf. apply read_ok_01 in Hf.
  destruct st as [n e p c l], w as [sto fl rs rq al co nv]. cbn in Hr, Hf.
  subst rs. valid_registration_run Hv.
  destruct Hf as [-> | [-> | (fl' & ->)]]; cbn; repeat split.
Qed.

Lemma register_success_persists_witness :
  storage (world_after Register.handleRegister
             (sample_registration "secret1" "secret1")
             (accepting_world (sample_user None))) auth_token
  = Some (Str "token-1") /\
  storage (world_after Register.handleRegister
             (sample_registration "secret1" "secret1")
             (accepting_world (sample_user None))) user_data
  = Some (UserJson (sample_user None)) /\
  navigation (world_after Register.handleRegister
                (sample_registration "secret1" "secret1")
                (accepting_world (sample_user None)))
  = navigation (accepting_world (sample_user None)) /\
  alerts (world_after Register.handleRegister
            (sample_registration "secret1" "secret1")
            (accepting_world (sample_user None)))
  = alerts (accepting_world (sample_user None))
    ++ [mkAlert "Success" "Account created successfully!"
                [Replace "/stream-selection"]] /\
  Register.loading
    (state_after Register.handleRegister
       (sample_registration "secret1" "secret1")
       (accepting_world (sample_user None)))
  = false.
Proof.
  apply (@register_success_persists
           (sample_registration "secret1" "secret1")
           (accepting_world (sample_user None)) "token-1" (sample_user None)
           []).
  - unfold valid_registration. cbn.
    repeat split; try discriminate; try lia.
  - reflexivity.
  - reflexivity.
Defined.

(** X7: A registration that the server rejects (a duplicate email, say) stores
    nothing and does not navigate; it ends in one alert, which shows
    [data.detail] when the response carries one and "Something went wrong"
    otherwise. *)
Theorem register_rejection_persists_nothing st w data rest :
  valid_registration st ->
  responses w = NetResponse false data :: rest ->
  storage (world_after Register.handleRegister st w) = storage w /\
  navigation (world_after Register.handleRegister st w) = navigation w /\
  alerts (world_after Register.handleRegister st w)
  = alerts w ++ [register_rejection_alert data] /\
  Register.loading (state_after Register.handleRegister st w) = false.
Proof.
  intros Hv Hr.
  destruct st as [n e p c l], w as [sto fl rs rq al co nv]. cbn in Hr.
  subst rs. valid_registration_run Hv.
  destruct data; cbn; repeat split.
Qed.

Lemma register_rejection_persists_nothing_witness :
  storage (world_after Register.handleRegister
             (sample_registration "secret1" "secret1")
             (signed_out_world
                [NetResponse false (DDetail (Some "Email already registered"))]))
  = storage (signed_out_world
               [NetResponse false
                  (DDetail (Some "Email already registered"))]) /\
  navigation (world_after Register.handleRegister
                (sample_registration "secret1" "secret1")
                (signed_out_world
                   [NetResponse false
                      (DDetail (Some "Email already registered"))]))
  = navigation (signed_out_world
                  [NetResponse false
                     (DDetail (Some "Email already registered"))]) /\
  alerts (world_after Register.handleRegister
            (sample_registration "secret1" "secret1")
            (signed_out_world
               [NetResponse false
                  (DDetail (Some "Email already registered"))]))
  = alerts (signed_out_world
              [NetResponse false (DDetail (Some "Email already registered"))])
    ++ [register_rejection_alert (DDetail (Some "Email already registered"))] /\
  Register.loading
    (state_after Register.handleRegister
       (sample_registration "secret1" "secret1")
       (signed_out_world
          [NetResponse false (DDetail (Some "Email already registered"))]))
  = false.
Proof.
  apply (@register_rejection_persists_nothing
           (sample_registration "secret1" "secret1")
           (signed_out_world
              [NetResponse false (DDetail (Some "Email already registered"))])
           (DDetail (Some "Email already registered")) []).
  - unfold valid_registration. cbn.
    repeat split; try discriminate; try lia.
  - reflexivity.
Defined.

Lemma trim_blanks n : JS.trim (blanks n) = "".
Proof.
  unfold JS.trim. assert (H : JS.trimStart (blanks n) = "").
  { induction n as [|n IH]; [reflexivity | exact IH]. }
  now rewrite H.
Qed.

Lemma blanks_length n : String.length (blanks n) = n.
Proof. induction n as [|n IH]; cbn; [reflexivity | now rewrite IH]. Qed.

(** A valid registration sends its one request, whatever comes back. *)
Lemma valid_registration_sends st w :
  valid_registration st ->
  requests (world_after Register.handleRegister st w)
  = requests w ++ [Register.register_request st].
Proof.
  intros Hv. destruct st as [n e p c l], w as [sto fl rs rq al co nv].
  valid_registration_run Hv.
  destruct rs as [|[|[] []] rest]; cbn; try reflexivity.
  destruct fl as [|[] [|[] fl]]; reflexivity.
Qed.

(** X8: The checks run on the name as typed, the request carries the trimmed
    name: a name of two or more blanks passes the checks and is sent to the
    server as the empty name. *)
Theorem blank_name_is_sent_empty e p w n :
  2 <= n ->
  e <> "" -> JS.str_includes "@" e = true -> 6 <= String.length p ->
  result_of Register.validateForm (Register.mkState (blanks n) e p p false) w
  = Val true /\
  requests (world_after Register.handleRegister
              (Register.mkState (blanks n) e p p false) w)
  = requests w ++
    [mkRequest "POST" "/api/auth/register" None
               (RegisterBody "" (JS.trim (JS.toLowerCase e)) p)].
Proof.
  intros Hn He Hat Hp.
  assert (Hv : valid_registration (Register.mkState (blanks n) e p p false)).
  { unfold valid_registration. cbn. rewrite blanks_length.
    assert (Hpne : p <> "") by (destruct p; [cbn in Hp; lia | discriminate]).
    repeat split; try assumption.
    destruct n; [lia | discriminate]. }
  split; [now apply validateForm_spec|].
  rewrite (valid_registration_sends w Hv).
  unfold Register.register_request.
  cbn [Register.name Register.email Register.password].
  now rewrite trim_blanks.
Qed.

Lemma blank_name_is_sent_empty_witness :
  result_of Register.validateForm
            (Register.mkState (blanks 2) "a@b.c" "secret1" "secret1" false)
            (accepting_world (sample_user None))
  = Val true /\
  requests (world_after Register.handleRegister
              (Register.mkState (blanks 2) "a@b.c" "secret1" "secret1" false)
              (accepting_world (sample_user None)))
  = requests (accepting_world (sample_user None)) ++
    [mkRequest "POST" "/api/auth/register" None
               (RegisterBody "" (JS.trim (JS.toLowerCase "a@b.c")) "secret1")].
Proof.
  apply (@blank_name_is_sent_empty
           "a@b.c" "secret1" (accepting_world (sample_user None)) 2).
  - lia.
  - discriminate.
  - reflexivity.
  - cbn. lia.
Defined.

(** ** Stream selection *)

(** X9: Without a selection, [handleContinue] shows its alert and does nothing
    else: no request, no store access, no navigation, no loading state. *)
Theorem continue_without_selection st w :
  JS.truthy_opt (StreamSelection.selectedStream st) = false ->
  state_after StreamSelection.handleContinue st w = st /\
  world_after StreamSelection.handleContinue st w
  = mkWorld (storage w) (storage_faults w) (responses w) (requests w)
            (alerts w ++
             [mkAlert "Error" "Please select a stream to continue" []])
            (console w) (navigation w).
Proof.
  intros H. destruct st as [s l]. cbn in H. run_screen. rewrite H. cbn.
  split; reflexivity.
Qed.

Lemma continue_without_selection_witness :
  state_after StreamSelection.handleContinue (sample_selection None)
              (cached_world (sample_user None) [ok_response])
  = sample_selection None /\
  world_after StreamSelection.handleContinue (sample_selection None)
              (cached_world (sample_user None) [ok_response])
  = mkWorld (storage (cached_world (sample_user None) [ok_response]))
            (storage_faults (cached_world (sample_user None) [ok_response]))
            (responses (cached_world (sample_user None) [ok_response]))
            (requests (cached_world (sample_user None) [ok_response]))
            (alerts (cached_world (sample_user None) [ok_response]) ++
             [mkAlert "Error" "Please select a stream to continue" []])
            (console (cached_world (sample_user None) [ok_response]))
            (navigation (cached_world (sample_user None) [ok_response])).
Proof.
  apply (@continue_without_selection
           (sample_selection None)
           (cached_world (sample_user None) [ok_response])).
  reflexivity.
Defined.

(** X10: With a selection but no token in the store, [handleContinue] sends
    nothing: it alerts and replaces the route by the login screen. *)
Theorem continue_without_token st w :
  JS.truthy_opt (StreamSelection.selectedStream st) = true ->
  read_ok 0 (storage_faults w) = true ->
  stored_truthy (storage w auth_token) = false ->
  requests (world_after StreamSelection.handleContinue st w) = requests w /\
  storage (world_after StreamSelection.handleContinue st w) = storage w /\
  alerts (world_after StreamSelection.handleContinue st w)
  = alerts w ++ [mkAlert "Error" "Authentication required" []] /\
  navigation (world_after StreamSelection.handleContinue st w)
  = navigation w ++ [Replace "/auth/login"] /\
  StreamSelection.loading (state_after StreamSelection.handleContinue st w)
  = false.
Proof.
  intros Hs Hf Ht. apply read_ok_0 in Hf.
  destruct st as [s l], w as [sto fl rs rq al co nv]. cbn in *.
  run_screen. rewrite Hs. cbn.
  destruct Hf as [-> | (fl' & ->)]; cbn; rewrite Ht; cbn; repeat split.
Qed.

Lemma continue_without_token_witness :
  requests (world_after StreamSelection.handleContinue
              (sample_selection (Some "Arts")) (signed_out_world []))
  = requests (signed_out_world []) /\
  storage (world_after StreamSelection.handleContinue
             (sample_selection (Some "Arts")) (signed_out_world []))
  = storage (signed_out_world []) /\
  alerts (world_after StreamSelection.handleContinue
            (sample_selection (Some "Arts")) (signed_out_world []))
  = alerts (signed_out_world [])
    ++ [mkAlert "Error" "Authentication required" []] /\
  navigation (world_after StreamSelection.handleContinue
                (sample_selection (Some "Arts")) (signed_out_world []))
  = navigation (signed_out_world []) ++ [Replace "/auth/login"] /\
  StreamSelection.loading
    (state_after StreamSelection.handleContinue
       (sample_selection (Some "Arts")) (signed_out_world []))
  = false.
Proof.
  apply (@continue_without_token
           (sample_selection (Some "Arts")) (signed_out_world []));
    reflexivity.
Defined.

(** What an accepted stream choice leaves in the store, with a cached user:
    the user record with its [selected_stream] replaced and its other fields
    as they were, and the token untouched. *)
Lemma accepted_stream_store st w s u d rest :
  StreamSelection.selectedStream st = Some s -> s <> "" ->
  storage_faults w = [] ->
  stored_truthy (storage w auth_token) = true ->
  storage w user_data = Some (UserJson u) ->
  responses w = NetResponse true d :: rest ->
  storage (world_after StreamSelection.handleContinue st w) auth_token
  = storage w auth_token /\
  storage (world_after StreamSelection.handleContinue st w) user_data
  = Some (UserJson (mkUser (id_of_user u) (name_of_user u)
                           (email_of_user u) (Some s))) /\
  navigation (world_after StreamSelection.handleContinue st w)
  = navigation w ++ [Replace "/dashboard"] /\
  alerts (world_after StreamSelection.handleContinue st w) = alerts w /\
  requests (world_after StreamSelection.handleContinue st w)
  = requests w ++
    [mkRequest "PUT" "/api/user/stream" (storage w auth_token)
               (StreamBody s)].
Proof.
  intros Hs Hne Hf Ht Hu Hr. apply truthy_nonempty in Hne.
  destruct st as [sel l], w as [sto fl rs rq al co nv]. cbn in *.
  subst sel fl rs. run_screen. rewrite Hne. cbn. rewrite Ht. cbn.
  rewrite Hu. cbn. repeat split.
Qed.

(** X11: An accepted stream choice merges the stream into the cached user (the
    other fields and the token stay), replaces the route by the dashboard,
    and a restart of the application then ends on the dashboard. *)
Theorem continue_success_merges_stream st w s u d rest resps :
  StreamSelection.selectedStream st = Some s -> s <> "" ->
  storage_faults w = [] ->
  stored_truthy (storage w auth_token) = true ->
  storage w user_data = Some (UserJson u) ->
  responses w = NetResponse true d :: rest ->
  storage (world_after StreamSelection.handleContinue st w) auth_token
  = storage w auth_token /\
  storage (world_after StreamSelection.handleContinue st w) user_data
  = Some (UserJson (mkUser (id_of_user u) (name_of_user u)
                           (email_of_user u) (Some s))) /\
  navigation (world_after StreamSelection.handleContinue st w)
  = navigation w ++ [Replace "/dashboard"] /\
  alerts (world_after StreamSelection.handleContinue st w) = alerts w /\
  route_of (snd (bootstrap
                   (fresh_world
                      (storage (world_after StreamSelection.handleContinue
                                            st w))
                      [] resps)))
  = "/dashboard".
Proof.
  intros Hs Hne Hf Ht Hu Hr.
  destruct (accepted_stream_store st w Hs Hne Hf Ht Hu Hr)
    as (Htok & Husr & Hnav & Hal & _).
  repeat split; try assumption.
  rewrite start_with_store, Htok, Husr, Ht. cbn.
  apply truthy_nonempty in Hne. now rewrite Hne.
Qed.

Lemma continue_success_merges_stream_witness :
  storage (world_after StreamSelection.handleContinue
             (sample_selection (Some "Arts"))
             (cached_world (sample_user None) [ok_response])) auth_token
  = storage (cached_world (sample_user None) [ok_response]) auth_token /\
  storage (world_after StreamSelection.handleContinue
             (sample_selection (Some "Arts"))
             (cached_world (sample_user None) [ok_response])) user_data
  = Some (UserJson (mkUser (id_of_user (sample_user None))
                           (name_of_user (sample_user None))
                           (email_of_user (sample_user None))
                           (Some "Arts"))) /\
  navigation (world_after StreamSelection.handleContinue
                (sample_selection (Some "Arts"))
                (cached_world (sample_user None) [ok_response]))
  = navigation (cached_world (sample_user None) [ok_response])
    ++ [Replace "/dashboard"] /\
  alerts (world_after StreamSelection.handleContinue
            (sample_selection (Some "Arts"))
            (cached_world (sample_user None) [ok_response]))
  = alerts (cached_world (sample_user None) [ok_response]) /\
  route_of (snd (bootstrap
                   (fresh_world
                      (storage (world_after StreamSelection.handleContinue
                                  (sample_selection (Some "Arts"))
                                  (cached_world (sample_user None)
                                                [ok_response])))
                      [] [])))
  = "/dashboard".
Proof.
  apply (@continue_success_merges_stream
           (sample_selection (Some "Arts"))
           (cached_world (sample_user None) [ok_response])
           "Arts" (sample_user None) (DDetail None) [] []);
    try reflexivity.
  discriminate.
Defined.

(** X12: When the request of the stream choice fails (a response that is not
    [ok], or a rejected [fetch]), the store and the route stay as they were;
    one request was sent and one alert is shown. *)
Theorem continue_failure_leaves_store st w :
  JS.truthy_opt (StreamSelection.selectedStream st) = true ->
  request_fails w = true ->
  storage (world_after StreamSelection.handleContinue st w) = storage w /\
  navigation (world_after StreamSelection.handleContinue st w)
  = navigation w /\
  requests (world_after StreamSelection.handleContinue st w)
  = requests w ++ [StreamSelection.stream_request st (storage w auth_token)] /\
  (exists msg,
      alerts (world_after StreamSelection.handleContinue st w)
      = alerts w ++ [mkAlert "Error" msg []]) /\
  StreamSelection.loading (state_after StreamSelection.handleContinue st w)
  = false.
Proof.
  unfold request_fails, response_ok. intros Hs H.
  apply andb_true_iff in H as [Ht Hr].
  apply token_ready_inv in Ht as [Ht Hf].
  destruct st as [s l], w as [sto fl rs rq al co nv]. cbn in *.
  run_screen. rewrite Hs. cbn.
  destruct Hf as [-> | (fl' & ->)]; cbn; rewrite Ht; cbn;
    destruct rs as [|[|[] d] rest]; try discriminate; cbn;
    repeat split; eauto.
Qed.

Lemma continue_failure_leaves_store_witness :
  storage (world_after StreamSelection.handleContinue
             (sample_selection (Some "Arts"))
             (cached_world (sample_user None) [rejected_response]))
  = storage (cached_world (sample_user None) [rejected_response]) /\
  navigation (world_after StreamSelection.handleContinue
                (sample_selection (Some "Arts"))
                (cached_world (sample_user None) [rejected_response]))
  = navigation (cached_world (sample_user None) [rejected_response]) /\
  requests (world_after StreamSelection.handleContinue
              (sample_selection (Some "Arts"))
              (cached_world (sample_user None) [rejected_response]))
  = requests (cached_world (sample_user None) [rejected_response]) ++
    [StreamSelection.stream_request
       (sample_selection (Some "Arts"))
       (storage (cached_world (sample_user None) [rejected_response])
                auth_token)] /\
  (exists msg,
      alerts (world_after StreamSelection.handleContinue
                (sample_selection (Some "Arts"))
                (cached_world (sample_user None) [rejected_response]))
      = alerts (cached_world (sample_user None) [rejected_response])
        ++ [mkAlert "Error" msg []]) /\
  StreamSelection.loading
    (state_after StreamSelection.handleContinue
       (sample_selection (Some "Arts"))
       (cached_world (sample_user None) [rejected_response]))
  = false.
Proof.
  apply (@continue_failure_leaves_store
           (sample_selection (Some "Arts"))
           (cached_world (sample_user None) [rejected_response]));
    reflexivity.
Defined.

(** X13: An accepted stream choice with no user cached writes nothing and still
    replaces the route by the dashboard; the dashboard, finding no cached
    user, sends nothing and replaces the route by the login screen. *)
Theorem continue_without_cached_user st w d rest :
  JS.truthy_opt (StreamSelection.selectedStream st) = true ->
  storage_faults w = [] ->
  stored_truthy (storage w auth_token) = true ->
  storage w user_data = None ->
  responses w = NetResponse true d :: rest ->
  storage (world_after StreamSelection.handleContinue st w) = storage w /\
  navigation (world_after StreamSelection.handleContinue st w)
  = navigation w ++ [Replace "/dashboard"] /\
  navigation
    (world_after Dashboard.initializeData Dashboard.initial
       (world_after StreamSelection.handleContinue st w))
  = navigation w ++ [Replace "/dashboard"; Replace "/auth/login"] /\
  requests
    (world_after Dashboard.initializeData Dashboard.initial
       (world_after StreamSelection.handleContinue st w))
  = requests w ++ [StreamSelection.stream_request st (storage w auth_token)].
Proof.
  intros Hs Hf Ht Hu Hr.
  destruct st as [sel l], w as [sto fl rs rq al co nv]. cbn in *.
  subst fl rs. run_screen. rewrite Hs. cbn. rewrite Ht. cbn.
  rewrite Hu. cbn. rewrite Hu. cbn. rewrite <- app_assoc. repeat split.
Qed.

Lemma continue_without_cached_user_witness :
  storage (world_after StreamSelection.handleContinue
             (sample_selection (Some "Arts"))
             (signed_in_world [ok_response]))
  = storage (signed_in_world [ok_response]) /\
  navigation (world_after StreamSelection.handleContinue
                (sample_selection (Some "Arts"))
                (signed_in_world [ok_response]))
  = navigation (signed_in_world [ok_response]) ++ [Replace "/dashboard"] /\
  navigation
    (world_after Dashboard.initializeData Dashboard.initial
       (world_after StreamSelection.handleContinue
          (sample_selection (Some "Arts"))
          (signed_in_world [ok_response])))
  = navigation (signed_in_world [ok_response])
    ++ [Replace "/dashboard"; Replace "/auth/login"] /\
  requests
    (world_after Dashboard.initializeData Dashboard.initial
       (world_after StreamSelection.handleContinue
          (sample_selection (Some "Arts"))
          (signed_in_world [ok_response])))
  = requests (signed_in_world [ok_response]) ++
    [StreamSelection.stream_request
       (sample_selection (Some "Arts"))
       (storage (signed_in_world [ok_response]) auth_token)].
Proof.
  apply (@continue_without_cached_user
           (sample_selection (Some "Arts")) (signed_in_world [ok_response])
           (DDetail None) []);
    reflexivity.
Defined.

(** ** Dashboard *)

(** Whatever the store and the network do, [initializeData] does not
    reject, ends with [loading] reset and leaves [refreshing] alone. *)
Lemma initializeData_settles st w :
  result_of Dashboard.initializeData st w = Val tt /\
  Dashboard.loading (state_after Dashboard.initializeData st w) = false /\
  Dashboard.refreshing (state_after Dashboard.initializeData st w)
  = Dashboard.refreshing st.
Proof.
  destruct st as [u rm up l rf], w as [sto fl rs rq al co nv]. run_screen.
  destruct fl as [|[] [|[] fl]]; cbn; try (repeat split; reflexivity).
  all: destruct (sto user_data) as [[s|usr]|]; cbn;
    try (repeat split; reflexivity).
  all: try (destruct (JS.truthy s); cbn);
    destruct (stored_truthy (sto auth_token)); cbn;
    try (repeat split; reflexivity).
  all: destruct (JS.truthy_opt (selected_stream usr)); cbn;
    try (repeat split; reflexivity).
  all: destruct rs as [|[|[] []] [|[|[] []] rest]]; repeat split; reflexivity.
Qed.

(** X14: A pull to refresh always comes to an end: whatever the store and the
    network do, [onRefresh] does not reject and leaves neither the refresh
    indicator nor the loading screen on. *)
Theorem refresh_always_ends st w :
  result_of Dashboard.onRefresh st w = Val tt /\
  Dashboard.refreshing (state_after Dashboard.onRefresh st w) = false /\
  Dashboard.loading (state_after Dashboard.onRefresh st w) = false.
Proof.
  unfold result_of, state_after, Dashboard.onRefresh.
  unfold bind, Dashboard.setRefreshing, modify. cbv beta iota.
  set (st1 := Dashboard.mkState _ _ _ _ true).
  destruct (initializeData_settles st1 w) as (Hres & Hl & _).
  unfold result_of, state_after in Hres, Hl.
  destruct (Dashboard.initializeData st1 w) as [[r st2] w2].
  cbn [fst snd] in *. subst r. cbn. split; [reflexivity|].
  split; [reflexivity | exact Hl].
Qed.

(** X15: With the store readable, a dashboard that finds no token or no cached
    user replaces the route by the login screen and sends no request. *)
Theorem dashboard_without_credentials st w :
  read_ok 0 (storage_faults w) && read_ok 1 (storage_faults w) = true ->
  stored_truthy (storage w user_data) && stored_truthy (storage w auth_token)
  = false ->
  navigation (world_after Dashboard.initializeData st w)
  = navigation w ++ [Replace "/auth/login"] /\
  requests (world_after Dashboard.initializeData st w) = requests w /\
  alerts (world_after Dashboard.initializeData st w) = alerts w /\
  Dashboard.user (state_after Dashboard.initializeData st w)
  = Dashboard.user st.
Proof.
  intros Hf Hc. apply read_ok_01 in Hf.
  destruct st as [u rm up l rf], w as [sto fl rs rq al co nv]. cbn in *.
  run_screen.
  destruct Hf as [-> | [-> | (fl' & ->)]]; cbn;
    destruct (stored_truthy (sto user_data)),
             (stored_truthy (sto auth_token));
    try discriminate; cbn; repeat split.
Qed.

Lemma dashboard_without_credentials_witness :
  navigation (world_after Dashboard.initializeData Dashboard.initial
                (signed_in_world [ok_response]))
  = navigation (signed_in_world [ok_response]) ++ [Replace "/auth/login"] /\
  requests (world_after Dashboard.initializeData Dashboard.initial
              (signed_in_world [ok_response]))
  = requests (signed_in_world [ok_response]) /\
  alerts (world_after Dashboard.initializeData Dashboard.initial
            (signed_in_world [ok_response]))
  = alerts (signed_in_world [ok_response]) /\
  Dashboard.user (state_after Dashboard.initializeData Dashboard.initial
                    (signed_in_world [ok_response]))
  = Dashboard.user Dashboard.initial.
Proof.
  apply (@dashboard_without_credentials
           Dashboard.initial (signed_in_world [ok_response]));
    reflexivity.
Defined.

(** X16: A roadmap counted as completed is counted as started, and both counts
    stay within the number of progress records. *)
Theorem completed_within_started st :
  Dashboard.completedCount st <= Dashboard.startedCount st /\
  Dashboard.startedCount st <= length (Dashboard.userProgress st).
Proof.
  unfold Dashboard.completedCount, Dashboard.startedCount.
  split; [|apply filter_length_le].
  induction (Dashboard.userProgress st) as [|p l IH]; [reflexivity|].
  cbn [filter].
  destruct (Num.strict_eq (progress_percentage p) Num.hundred) eqn:E.
  - assert (Hgt : Num.gt (progress_percentage p) Num.zero = true).
    { destruct (progress_percentage p) as [q| | |]; try discriminate;
        try reflexivity.
      cbn in E. apply Qeq_bool_iff in E.
      cbn. apply negb_true_iff. apply not_true_iff_false.
      rewrite Qle_bool_iff, E. intros H. apply Qle_not_lt in H.
      apply H. reflexivity. }
    rewrite Hgt. cbn. lia.
  - destruct (Num.gt (progress_percentage p) Num.zero); cbn; lia.
Qed.

Lemma find_absent {A} (f : A -> bool) l :
  (forall x, In x l -> f x = false) -> find f l = None.
Proof.
  induction l as [|a l IH]; intros H; [reflexivity|]. cbn.
  rewrite (H a (or_introl eq_refl)). apply IH.
  intros x Hx. apply H. now right.
Qed.

(** X17: The percentage on a roadmap card is never [NaN]: it is [0] when no
    progress record has the roadmap's id, and otherwise [0] or the
    percentage of a record with that id. *)
Theorem card_progress_is_a_number st roadmapId :
  Dashboard.getProgressForRoadmap st roadmapId <> JNaN /\
  ((forall p, In p (Dashboard.userProgress st) -> career_id p <> roadmapId) ->
   Dashboard.getProgressForRoadmap st roadmapId = Num.zero) /\
  (Dashboard.getProgressForRoadmap st roadmapId = Num.zero \/
   exists p, In p (Dashboard.userProgress st) /\ career_id p = roadmapId /\
             Dashboard.getProgressForRoadmap st roadmapId
             = progress_percentage p).
Proof.
  unfold Dashboard.getProgressForRoadmap. split; [|split].
  - destruct (find _ _) as [p|]; [|discriminate].
    destruct (progress_percentage p) eqn:E; cbn; rewrite ?E; try discriminate.
    destruct (negb (Num.is_zero q)); discriminate.
  - intros H. rewrite find_absent; [reflexivity|].
    intros p Hp. apply String.eqb_neq. now apply H.
  - destruct (find _ _) as [p|] eqn:E; [|now left].
    apply find_some in E as [Hin Heq]. apply String.eqb_eq in Heq.
    destruct (Num.truthy (progress_percentage p)); [|now left].
    right. now exists p.
Qed.

Lemma card_progress_is_a_number_witness :
  Dashboard.getProgressForRoadmap
    (sample_dashboard [sample_progress ["a"] (JFin 50)]) "career-2"
  = Num.zero.
Proof.
  destruct (card_progress_is_a_number
              (sample_dashboard [sample_progress ["a"] (JFin 50)]) "career-2")
    as (_ & H & _).
  apply H. intros p [<- | []]. cbn. discriminate.
Defined.

(** X18: Confirming the logout removes the token first: once that removal has
    succeeded, the next start of the application stays on the landing page.
    When the removal of the cached user succeeds as well, the route is
    replaced by the landing page; when it throws, the handler rejects, the
    cached user stays in the store and the route is not changed. *)
Theorem logout_then_restart st w resps :
  read_ok 0 (storage_faults w) = true ->
  storage (world_after Dashboard.logoutPressed st w) auth_token = None /\
  route_of (snd (bootstrap
                   (fresh_world
                      (storage (world_after Dashboard.logoutPressed st w))
                      [] resps)))
  = "/" /\
  (read_ok 1 (storage_faults w) = true ->
   storage (world_after Dashboard.logoutPressed st w) user_data = None /\
   navigation (world_after Dashboard.logoutPressed st w)
   = navigation w ++ [Replace "/"] /\
   result_of Dashboard.logoutPressed st w = Val tt) /\
  (read_ok 1 (storage_faults w) = false ->
   storage (world_after Dashboard.logoutPressed st w) user_data
   = storage w user_data /\
   navigation (world_after Dashboard.logoutPressed st w) = navigation w /\
   result_of Dashboard.logoutPressed st w = Thrown StorageError).
Proof.
  intros Hf.
  assert (Htok : storage (world_after Dashboard.logoutPressed st w) auth_token
                 = None).
  { destruct w as [sto fl rs rq al co nv]. cbn in Hf. run_screen.
    destruct fl as [|[] [|[] fl]]; try discriminate; reflexivity. }
  split; [exact Htok|]. split.
  - rewrite start_with_store, Htok. reflexivity.
  - unfold read_ok in *.
    destruct w as [sto fl rs rq al co nv]. cbn in Hf |- *. run_screen.
    destruct fl as [|[] [|[] fl]]; try discriminate; cbn;
      split; intros H; try discriminate; repeat split.
Qed.

Lemma logout_then_restart_witness :
  storage (world_after Dashboard.logoutPressed (sample_dashboard [])
             (cached_world (sample_user (Some "Science")) []))
          auth_token = None /\
  route_of (snd (bootstrap
                   (fresh_world
                      (storage (world_after Dashboard.logoutPressed
                                  (sample_dashboard [])
                                  (cached_world
                                     (sample_user (Some "Science")) [])))
                      [] [])))
  = "/".
Proof.
  destruct (@logout_then_restart
              (sample_dashboard [])
              (cached_world (sample_user (Some "Science")) []) [])
    as (H1 & H2 & _); [reflexivity|].
  split; assumption.
Defined.

(** ** Roadmap screen: loading *)

(** X19: Whatever the store and the network do, loading the screen does not
    reject and ends with [loading] reset, so the spinner always goes away. *)
Theorem roadmap_load_settles st w :
  result_of RoadmapDetail.fetchRoadmapData st w = Val tt /\
  RoadmapDetail.loading (state_after RoadmapDetail.fetchRoadmapData st w)
  = false.
Proof.
  destruct st as [i r p l u], w as [sto fl rs rq al co nv]. run_screen.
  destruct fl as [|[] fl]; cbn; try (split; reflexivity).
  all: destruct (stored_truthy (sto auth_token)); cbn;
    try (split; reflexivity).
  all: destruct rs as [|[|[] []] [|[|[] []] rest]]; split; reflexivity.
Qed.

(** X20: Without a token in the store, loading the screen sends no request and
    replaces the route by the login screen; nothing is loaded or alerted. *)
Theorem roadmap_load_without_token st w :
  read_ok 0 (storage_faults w) = true ->
  stored_truthy (storage w auth_token) = false ->
  requests (world_after RoadmapDetail.fetchRoadmapData st w) = requests w /\
  navigation (world_after RoadmapDetail.fetchRoadmapData st w)
  = navigation w ++ [Replace "/auth/login"] /\
  alerts (world_after RoadmapDetail.fetchRoadmapData st w) = alerts w /\
  RoadmapDetail.roadmap (state_after RoadmapDetail.fetchRoadmapData st w)
  = RoadmapDetail.roadmap st /\
  RoadmapDetail.userProgress (state_after RoadmapDetail.fetchRoadmapData st w)
  = RoadmapDetail.userProgress st.
Proof.
  intros Hf Ht. apply read_ok_0 in Hf.
  destruct st as [i r p l u], w as [sto fl rs rq al co nv]. cbn in *.
  run_screen.
  destruct Hf as [-> | (fl' & ->)]; cbn; rewrite Ht; cbn; repeat split.
Qed.

Lemma roadmap_load_without_token_witness :
  requests (world_after RoadmapDetail.fetchRoadmapData
              (sample_mounting "career-1") (signed_out_world [ok_response]))
  = requests (signed_out_world [ok_response]) /\
  navigation (world_after RoadmapDetail.fetchRoadmapData
                (sample_mounting "career-1") (signed_out_world [ok_response]))
  = navigation (signed_out_world [ok_response]) ++ [Replace "/auth/login"] /\
  alerts (world_after RoadmapDetail.fetchRoadmapData
            (sample_mounting "career-1") (signed_out_world [ok_response]))
  = alerts (signed_out_world [ok_response]) /\
  RoadmapDetail.roadmap
    (state_after RoadmapDetail.fetchRoadmapData
       (sample_mounting "career-1") (signed_out_world [ok_response]))
  = RoadmapDetail.roadmap (sample_mounting "career-1") /\
  RoadmapDetail.userProgress
    (state_after RoadmapDetail.fetchRoadmapData
       (sample_mounting "career-1") (signed_out_world [ok_response]))
  = RoadmapDetail.userProgress (sample_mounting "career-1").
Proof.
  apply (@roadmap_load_without_token
           (sample_mounting "career-1") (signed_out_world [ok_response]));
    reflexivity.
Defined.

(** X21: The two requests of the load are independent only in part.  When the
    roadmap request gets a response that is not [ok], the progress is still
    requested and, when it comes, stored without a roadmap and without an
    alert, so that the screen renders no step.  When the roadmap request is
    rejected, the progress is never requested and the failure is alerted. *)
Theorem roadmap_load_partial st w :
  token_ready w = true ->
  (forall d p rest,
      responses w
      = NetResponse false d :: NetResponse true (DProgress p) :: rest ->
      requests (world_after RoadmapDetail.fetchRoadmapData st w)
      = requests w ++
        [RoadmapDetail.roadmap_request st (storage w auth_token);
         RoadmapDetail.progress_fetch_request st (storage w auth_token)] /\
      RoadmapDetail.roadmap (state_after RoadmapDetail.fetchRoadmapData st w)
      = RoadmapDetail.roadmap st /\
      RoadmapDetail.userProgress
        (state_after RoadmapDetail.fetchRoadmapData st w) = Some p /\
      alerts (world_after RoadmapDetail.fetchRoadmapData st w) = alerts w /\
      (RoadmapDetail.roadmap st = None ->
       forall s,
         RoadmapDetail.renders_step
           (state_after RoadmapDetail.fetchRoadmapData st w) s = false)) /\
  (forall rest,
      responses w = NetThrow :: rest ->
      requests (world_after RoadmapDetail.fetchRoadmapData st w)
      = requests w ++
        [RoadmapDetail.roadmap_request st (storage w auth_token)] /\
      responses (world_after RoadmapDetail.fetchRoadmapData st w) = rest /\
      RoadmapDetail.userProgress
        (state_after RoadmapDetail.fetchRoadmapData st w)
      = RoadmapDetail.userProgress st /\
      alerts (world_after RoadmapDetail.fetchRoadmapData st w)
      = alerts w ++ [mkAlert "Error" "Failed to load roadmap data" []]).
Proof.
  intros Ht. apply token_ready_inv in Ht as [Ht Hf].
  destruct st as [i r p0 l u], w as [sto fl rs rq al co nv]. cbn in *.
  split.
  - intros d p rest ->. run_screen.
    destruct Hf as [-> | (fl' & ->)]; cbn; rewrite Ht; cbn;
      rewrite <- app_assoc; repeat split;
      intros ->; intros s; reflexivity.
  - intros rest ->. run_screen.
    destruct Hf as [-> | (fl' & ->)]; cbn; rewrite Ht; cbn; repeat split.
Qed.

Lemma roadmap_load_partial_witness :
  RoadmapDetail.userProgress
    (state_after RoadmapDetail.fetchRoadmapData (sample_mounting "career-1")
       (signed_in_world
          [rejected_response;
           NetResponse true (DProgress (sample_progress ["a"] (JFin 50)))]))
  = Some (sample_progress ["a"] (JFin 50)) /\
  RoadmapDetail.roadmap
    (state_after RoadmapDetail.fetchRoadmapData (sample_mounting "career-1")
       (signed_in_world
          [rejected_response;
           NetResponse true (DProgress (sample_progress ["a"] (JFin 50)))]))
  = None.
Proof.
  destruct (@roadmap_load_partial
              (sample_mounting "career-1")
              (signed_in_world
                 [rejected_response;
                  NetResponse true
                    (DProgress (sample_progress ["a"] (JFin 50)))]))
    as [H _]; [reflexivity|].
  destruct (H _ _ _ eq_refl) as (_ & Hr & Hp & _).
  split; [exact Hp | exact Hr].
Defined.

(** ** Roadmap screen: toggles *)

(** Whatever the network does, a toggle that settles does not reject and
    clears [updatingStep]. *)
Lemma toggle_finish_settles cl s c st w :
  result_of (RoadmapDetail.toggle_finish cl s c) st w = Val tt /\
  RoadmapDetail.updatingStep
    (state_after (RoadmapDetail.toggle_finish cl s c) st w) = None.
Proof.
  destruct st as [i r p l u], w as [sto fl rs rq al co nv].
  unfold result_of, state_after. run_phase.
  destruct rs as [|[|[] d] rest]; cbn; try (split; reflexivity).
  destruct (RoadmapDetail.userProgress cl); split; reflexivity.
Qed.

(** X22: When any toggle in flight settles, with whatever outcome, it leaves the
    list of toggles in flight and no step is marked as updating any more:
    the checkbox of every other step still in flight is enabled again. *)
Theorem settle_clears_every_spinner sys k :
  k < length (RoadmapDetail.inflight sys) ->
  length (RoadmapDetail.inflight
            (RoadmapDetail.step sys (RoadmapDetail.Settle k)))
  = length (RoadmapDetail.inflight sys) - 1 /\
  forall s,
    RoadmapDetail.isUpdating
      (RoadmapDetail.screen (RoadmapDetail.step sys (RoadmapDetail.Settle k)))
      s = false.
Proof.
  intros Hk. cbn [RoadmapDetail.step].
  destruct (nth_error (RoadmapDetail.inflight sys) k) as [p|] eqn:E.
  2:{ apply nth_error_None in E. lia. }
  pose proof (toggle_finish_settles
                (RoadmapDetail.pend_closure p) (RoadmapDetail.pend_step p)
                (RoadmapDetail.pend_completed p) (RoadmapDetail.screen sys)
                (RoadmapDetail.world sys)) as (_ & Hu).
  unfold state_after in Hu.
  destruct (RoadmapDetail.toggle_finish _ _ _ _ _) as [[res st'] w'].
  cbn [fst snd RoadmapDetail.screen RoadmapDetail.inflight] in *. split.
  - clear - Hk. revert k Hk.
    induction (RoadmapDetail.inflight sys) as [|x l IH]; intros k Hk;
      [cbn in Hk; lia|].
    destruct k; cbn; [lia|]. cbn in Hk.
    rewrite IH by lia. destruct l; cbn in *; lia.
  - intros s. unfold RoadmapDetail.isUpdating. now rewrite Hu.
Qed.

Lemma settle_clears_every_spinner_witness :
  length (RoadmapDetail.inflight
            (RoadmapDetail.step
               (RoadmapDetail.run
                  (sample_sys ["a"; "b"] [] (JFin 0) [ok_response])
                  [RoadmapDetail.Press "a"; RoadmapDetail.Press "b"])
               (RoadmapDetail.Settle 0)))
  = length (RoadmapDetail.inflight
              (RoadmapDetail.run
                 (sample_sys ["a"; "b"] [] (JFin 0) [ok_response])
                 [RoadmapDetail.Press "a"; RoadmapDetail.Press "b"])) - 1 /\
  forall s,
    RoadmapDetail.isUpdating
      (RoadmapDetail.screen
         (RoadmapDetail.step
            (RoadmapDetail.run
               (sample_sys ["a"; "b"] [] (JFin 0) [ok_response])
               [RoadmapDetail.Press "a"; RoadmapDetail.Press "b"])
            (RoadmapDetail.Settle 0)))
      s = false.
Proof.
  apply (@settle_clears_every_spinner
           (RoadmapDetail.run
              (sample_sys ["a"; "b"] [] (JFin 0) [ok_response])
              [RoadmapDetail.Press "a"; RoadmapDetail.Press "b"]) 0).
  cbn. lia.
Defined.

(** X23: Without a token in the store a toggle sends no request: it alerts that
    authentication is required and leaves the progress as it was. *)
Theorem toggle_without_token st w stepId completed :
  read_ok 0 (storage_faults w) = true ->
  stored_truthy (storage w auth_token) = false ->
  requests (world_after (RoadmapDetail.toggleStepCompletion stepId completed)
                        st w) = requests w /\
  alerts (world_after (RoadmapDetail.toggleStepCompletion stepId completed)
                      st w)
  = alerts w ++ [mkAlert "Error" "Authentication required" []] /\
  navigation (world_after (RoadmapDetail.toggleStepCompletion stepId completed)
                          st w) = navigation w /\
  RoadmapDetail.userProgress
    (state_after (RoadmapDetail.toggleStepCompletion stepId completed) st w)
  = RoadmapDetail.userProgress st /\
  RoadmapDetail.updatingStep
    (state_after (RoadmapDetail.toggleStepCompletion stepId completed) st w)
  = None.
Proof.
  intros Hf Ht. apply read_ok_0 in Hf.
  destruct st as [i r p l u], w as [sto fl rs rq al co nv]. cbn in *.
  run_screen.
  destruct Hf as [-> | (fl' & ->)]; cbn; rewrite Ht; cbn; repeat split.
Qed.

Lemma toggle_without_token_witness :
  requests (world_after (RoadmapDetail.toggleStepCompletion "b" true)
              (sample_screen ["a"; "b"] ["a"] (JFin 50))
              (signed_out_world [ok_response]))
  = requests (signed_out_world [ok_response]) /\
  alerts (world_after (RoadmapDetail.toggleStepCompletion "b" true)
            (sample_screen ["a"; "b"] ["a"] (JFin 50))
            (signed_out_world [ok_response]))
  = alerts (signed_out_world [ok_response])
    ++ [mkAlert "Error" "Authentication required" []] /\
  navigation (world_after (RoadmapDetail.toggleStepCompletion "b" true)
                (sample_screen ["a"; "b"] ["a"] (JFin 50))
                (signed_out_world [ok_response]))
  = navigation (signed_out_world [ok_response]) /\
  RoadmapDetail.userProgress
    (state_after (RoadmapDetail.toggleStepCompletion "b" true)
       (sample_screen ["a"; "b"] ["a"] (JFin 50))
       (signed_out_world [ok_response]))
  = RoadmapDetail.userProgress (sample_screen ["a"; "b"] ["a"] (JFin 50)) /\
  RoadmapDetail.updatingStep
    (state_after (RoadmapDetail.toggleStepCompletion "b" true)
       (sample_screen ["a"; "b"] ["a"] (JFin 50))
       (signed_out_world [ok_response]))
  = None.
Proof.
  apply (@toggle_without_token
           (sample_screen ["a"; "b"] ["a"] (JFin 50))
           (signed_out_world [ok_response]) "b" true);
    reflexivity.
Defined.

(** X24: A successful press flips the completion of the pressed step and of no
    other step. *)
Theorem press_flips_pressed_step_only st w up s :
  RoadmapDetail.userProgress st = Some up ->
  toggle_succeeds w = true ->
  RoadmapDetail.isStepCompleted
    (state_after (RoadmapDetail.onPress s) st w) s
  = negb (RoadmapDetail.isStepCompleted st s) /\
  forall t, t <> s ->
    RoadmapDetail.isStepCompleted
      (state_after (RoadmapDetail.onPress s) st w) t
    = RoadmapDetail.isStepCompleted st t.
Proof.
  intros Hup Hok. unfold state_after.
  rewrite onPress_unfold, toggle_success by assumption. cbn [fst snd].
  unfold RoadmapDetail.isStepCompleted.
  cbn [RoadmapDetail.userProgress]. rewrite Hup.
  cbn [option_map RoadmapDetail.updatedProgress completed_steps].
  rewrite !orb_false_r.
  assert (Hiff : forall l1 l2 x,
             (In x l1 <-> In x l2) -> JS.includes l1 x = JS.includes l2 x).
  { intros l1 l2 x H.
    destruct (JS.includes l1 x) eqn:E1, (JS.includes l2 x) eqn:E2;
      try reflexivity.
    - apply includes_In in E1. apply includes_false in E2. tauto.
    - apply includes_false in E1. apply includes_In in E2. tauto. }
  split.
  - destruct (JS.includes (completed_steps up) s) eqn:E; cbn [negb].
    + apply includes_false. rewrite updatedSteps_In. tauto.
    + apply includes_In. rewrite updatedSteps_In. now right.
  - intros t Hts. rewrite !orb_false_r. apply Hiff. rewrite updatedSteps_In.
    destruct (negb (JS.includes (completed_steps up) s)); tauto.
Qed.

Lemma press_flips_pressed_step_only_witness :
  RoadmapDetail.isStepCompleted
    (state_after (RoadmapDetail.onPress "a")
       (sample_screen ["a"; "b"] ["a"] (JFin 50))
       (signed_in_world [ok_response])) "a"
  = negb (RoadmapDetail.isStepCompleted
            (sample_screen ["a"; "b"] ["a"] (JFin 50)) "a") /\
  forall t, t <> "a" ->
    RoadmapDetail.isStepCompleted
      (state_after (RoadmapDetail.onPress "a")
         (sample_screen ["a"; "b"] ["a"] (JFin 50))
         (signed_in_world [ok_response])) t
    = RoadmapDetail.isStepCompleted
        (sample_screen ["a"; "b"] ["a"] (JFin 50)) t.
Proof.
  apply (@press_flips_pressed_step_only
           (sample_screen ["a"; "b"] ["a"] (JFin 50))
           (signed_in_world [ok_response])
           (sample_progress ["a"] (JFin 50)) "a");
    reflexivity.
Defined.

(** A toggle that settles with success: the record is recomputed from the
    render the toggle was pressed in, whatever the screen holds by then. *)
Lemma toggle_finish_success cl s c st w :
  response_ok w = true ->
  RoadmapDetail.toggle_finish cl s c st w
  = (Val tt,
     RoadmapDetail.mkState
       (RoadmapDetail.id st) (RoadmapDetail.roadmap st)
       (match RoadmapDetail.userProgress cl with
        | Some up =>
            Some (RoadmapDetail.updatedProgress (RoadmapDetail.roadmap cl)
                                                up s c)
        | None => RoadmapDetail.userProgress st
        end)
       (RoadmapDetail.loading st) None,
     mkWorld (storage w) (storage_faults w) (tl (responses w)) (requests w)
             (alerts w) (console w) (navigation w)).
Proof.
  intros Hr. apply response_ok_inv in Hr as (d & rest & Hr).
  destruct st as [i r p l u], w as [sto fl rs rq al co nv]. cbn in *.
  subst rs. run_phase.
  destruct (RoadmapDetail.userProgress cl); reflexivity.
Qed.

Lemma settle_success sys k p :
  nth_error (RoadmapDetail.inflight sys) k = Some p ->
  response_ok (RoadmapDetail.world sys) = true ->
  RoadmapDetail.step sys (RoadmapDetail.Settle k)
  = RoadmapDetail.mkSys
      (RoadmapDetail.mkState
         (RoadmapDetail.id (RoadmapDetail.screen sys))
         (RoadmapDetail.roadmap (RoadmapDetail.screen sys))
         (match RoadmapDetail.userProgress (RoadmapDetail.pend_closure p) with
          | Some up =>
              Some (RoadmapDetail.updatedProgress
                      (RoadmapDetail.roadmap (RoadmapDetail.pend_closure p))
                      up (RoadmapDetail.pend_step p)
                      (RoadmapDetail.pend_completed p))
          | None => RoadmapDetail.userProgress (RoadmapDetail.screen sys)
          end)
         (RoadmapDetail.loading (RoadmapDetail.screen sys)) None)
      (mkWorld (storage (RoadmapDetail.world sys))
               (storage_faults (RoadmapDetail.world sys))
               (tl (responses (RoadmapDetail.world sys)))
               (requests (RoadmapDetail.world sys))
               (alerts (RoadmapDetail.world sys))
               (console (RoadmapDetail.world sys))
               (navigation (RoadmapDetail.world sys)))
      (RoadmapDetail.remove_nth k (RoadmapDetail.inflight sys)).
Proof.
  intros E Hok. cbn [RoadmapDetail.step]. rewrite E.
  now rewrite toggle_finish_success by assumption.
Qed.

Lemma includes_other_step up a b c :
  a <> b ->
  JS.includes (RoadmapDetail.updatedSteps up b c) a
  = JS.includes (completed_steps up) a.
Proof.
  intros Hab.
  destruct (JS.includes (completed_steps up) a) eqn:E.
  - apply includes_In. apply includes_In in E. rewrite updatedSteps_In.
    destruct c; tauto.
  - apply includes_false. apply includes_false in E. rewrite updatedSteps_In.
    destruct c; tauto.
Qed.

(** Two presses on different steps of an idle screen, with a token at hand:
    both requests are on their way, each toggle holding the render of the
    idle screen but for the mark of the step being updated. *)
Lemma two_presses_in_flight i r up a b sto resps reqs al co nv :
  In a (step_ids r) -> In b (step_ids r) -> a <> b ->
  stored_truthy (sto auth_token) = true ->
  RoadmapDetail.run
    (RoadmapDetail.mkSys
       (RoadmapDetail.mkState i (Some r) (Some up) false None)
       (mkWorld sto [] resps reqs al co nv) [])
    [RoadmapDetail.Press a; RoadmapDetail.Press b]
  = RoadmapDetail.mkSys
      (RoadmapDetail.mkState i (Some r) (Some up) false (Some b))
      (mkWorld sto [] resps
         ((reqs ++
           [RoadmapDetail.progress_request
              (RoadmapDetail.mkState i (Some r) (Some up) false None)
              (sto auth_token) a
              (negb (JS.includes (completed_steps up) a))]) ++
          [RoadmapDetail.progress_request
             (RoadmapDetail.mkState i (Some r) (Some up) false (Some a))
             (sto auth_token) b
             (negb (JS.includes (completed_steps up) b))])
         al co nv)
      [RoadmapDetail.mkPending
         (RoadmapDetail.mkState i (Some r) (Some up) false None) a
         (negb (JS.includes (completed_steps up) a));
       RoadmapDetail.mkPending
         (RoadmapDetail.mkState i (Some r) (Some up) false (Some a)) b
         (negb (JS.includes (completed_steps up) b))].
Proof.
  intros Ha Hb Hab Ht. apply includes_In in Ha, Hb.
  unfold RoadmapDetail.run. cbn [fold_left].
  rewrite (@press_accepted _ a);
    [| cbn; now rewrite Ha | reflexivity
     | unfold token_ready; cbn; now rewrite Ht].
  cbn [RoadmapDetail.screen RoadmapDetail.world RoadmapDetail.inflight
       RoadmapDetail.id RoadmapDetail.roadmap RoadmapDetail.userProgress
       RoadmapDetail.loading app storage storage_faults responses requests
       alerts console navigation tl].
  rewrite (@press_accepted _ b);
    [| cbn; now rewrite Hb
     | cbn; now apply String.eqb_neq
     | unfold token_ready; cbn; now rewrite Ht].
  cbn [RoadmapDetail.screen RoadmapDetail.world RoadmapDetail.inflight
       RoadmapDetail.id RoadmapDetail.roadmap RoadmapDetail.userProgress
       RoadmapDetail.loading app storage storage_faults responses requests
       alerts console navigation tl].
  unfold RoadmapDetail.isStepCompleted. cbn [RoadmapDetail.userProgress].
  now rewrite !orb_false_r.
Qed.

Lemma run_app sys xs ys :
  RoadmapDetail.run sys (xs ++ ys)
  = RoadmapDetail.run (RoadmapDetail.run sys xs) ys.
Proof. unfold RoadmapDetail.run. apply fold_left_app. Qed.

(** X25: Two toggles of different steps pressed one after the other, before
    either settles, both send their request, in the order of the presses;
    but each computes the new record from the render it was pressed in, so
    the one that settles last overwrites the other, in whichever order the
    two responses arrive.  When the first settles first, the record on
    screen is the one a press on the second step alone would give and the
    first step is displayed as before its toggle; when the second settles
    first, the record is the one a press on the first step alone would give
    and the second step is displayed as before its toggle.  Settling sends
    nothing more. *)
Theorem overlapping_toggles_last_settled_wins sys r up a b d1 d2 rest :
  RoadmapDetail.inflight sys = [] ->
  RoadmapDetail.roadmap (RoadmapDetail.screen sys) = Some r ->
  RoadmapDetail.userProgress (RoadmapDetail.screen sys) = Some up ->
  RoadmapDetail.loading (RoadmapDetail.screen sys) = false ->
  RoadmapDetail.updatingStep (RoadmapDetail.screen sys) = None ->
  In a (step_ids r) -> In b (step_ids r) -> a <> b ->
  storage_faults (RoadmapDetail.world sys) = [] ->
  stored_truthy (storage (RoadmapDetail.world sys) auth_token) = true ->
  responses (RoadmapDetail.world sys)
  = NetResponse true d1 :: NetResponse true d2 :: rest ->
  toggled_steps
    (RoadmapDetail.world
       (RoadmapDetail.run sys
          [RoadmapDetail.Press a; RoadmapDetail.Press b]))
  = toggled_steps (RoadmapDetail.world sys) ++
    [(a, negb (JS.includes (completed_steps up) a));
     (b, negb (JS.includes (completed_steps up) b))] /\
  (RoadmapDetail.userProgress
     (RoadmapDetail.screen
        (RoadmapDetail.run sys
           [RoadmapDetail.Press a; RoadmapDetail.Press b;
            RoadmapDetail.Settle 0; RoadmapDetail.Settle 0]))
   = Some (RoadmapDetail.updatedProgress
             (Some r) up b (negb (JS.includes (completed_steps up) b))) /\
   RoadmapDetail.isStepCompleted
     (RoadmapDetail.screen
        (RoadmapDetail.run sys
           [RoadmapDetail.Press a; RoadmapDetail.Press b;
            RoadmapDetail.Settle 0; RoadmapDetail.Settle 0])) a
   = RoadmapDetail.isStepCompleted (RoadmapDetail.screen sys) a /\
   requests
     (RoadmapDetail.world
        (RoadmapDetail.run sys
           [RoadmapDetail.Press a; RoadmapDetail.Press b;
            RoadmapDetail.Settle 0; RoadmapDetail.Settle 0]))
   = requests
       (RoadmapDetail.world
          (RoadmapDetail.run sys
             [RoadmapDetail.Press a; RoadmapDetail.Press b]))) /\
  (RoadmapDetail.userProgress
     (RoadmapDetail.screen
        (RoadmapDetail.run sys
           [RoadmapDetail.Press a; RoadmapDetail.Press b;
            RoadmapDetail.Settle 1; RoadmapDetail.Settle 0]))
   = Some (RoadmapDetail.updatedProgress
             (Some r) up a (negb (JS.includes (completed_steps up) a))) /\
   RoadmapDetail.isStepCompleted
     (RoadmapDetail.screen
        (RoadmapDetail.run sys
           [RoadmapDetail.Press a; RoadmapDetail.Press b;
            RoadmapDetail.Settle 1; RoadmapDetail.Settle 0])) b
   = RoadmapDetail.isStepCompleted (RoadmapDetail.screen sys) b /\
   requests
     (RoadmapDetail.world
        (RoadmapDetail.run sys
           [RoadmapDetail.Press a; RoadmapDetail.Press b;
            RoadmapDetail.Settle 1; RoadmapDetail.Settle 0]))
   = requests
       (RoadmapDetail.world
          (RoadmapDetail.run sys
             [RoadmapDetail.Press a; RoadmapDetail.Press b]))).
Proof.
  intros Hin Hr Hup Hl Hu Ha Hb Hab Hf Ht Hrs.
  destruct sys as [[i r0 p l u] [sto fl rs rq al co nv] infl].
  cbn in Hin, Hr, Hup, Hl, Hu, Hf, Ht, Hrs. subst.
  change [RoadmapDetail.Press a; RoadmapDetail.Press b;
          RoadmapDetail.Settle 0; RoadmapDetail.Settle 0]
    with ([RoadmapDetail.Press a; RoadmapDetail.Press b] ++
          [RoadmapDetail.Settle 0; RoadmapDetail.Settle 0]).
  change [RoadmapDetail.Press a; RoadmapDetail.Press b;
          RoadmapDetail.Settle 1; RoadmapDetail.Settle 0]
    with ([RoadmapDetail.Press a; RoadmapDetail.Press b] ++
          [RoadmapDetail.Settle 1; RoadmapDetail.Settle 0]).
  rewrite !run_app, two_presses_in_flight by assumption.
  unfold RoadmapDetail.run. cbn [fold_left].
  match goal with
  | |- context [RoadmapDetail.step ?s0 (RoadmapDetail.Settle 1)] =>
      rewrite (@settle_success s0 0 _ eq_refl eq_refl),
              (@settle_success s0 1 _ eq_refl eq_refl)
  end.
  cbn [RoadmapDetail.remove_nth RoadmapDetail.pend_closure
       RoadmapDetail.pend_step RoadmapDetail.pend_completed
       RoadmapDetail.screen RoadmapDetail.world RoadmapDetail.inflight
       RoadmapDetail.id RoadmapDetail.roadmap RoadmapDetail.userProgress
       RoadmapDetail.loading storage storage_faults responses requests
       alerts console navigation tl].
  repeat match goal with
  | |- context [RoadmapDetail.step ?s0 (RoadmapDetail.Settle 0)] =>
      rewrite (@settle_success s0 0 _ eq_refl eq_refl)
  end.
  cbn [RoadmapDetail.remove_nth RoadmapDetail.pend_closure
       RoadmapDetail.pend_step RoadmapDetail.pend_completed
       RoadmapDetail.screen RoadmapDetail.world RoadmapDetail.inflight
       RoadmapDetail.id RoadmapDetail.roadmap RoadmapDetail.userProgress
       RoadmapDetail.loading storage storage_faults responses requests
       alerts console navigation tl].
  unfold RoadmapDetail.isStepCompleted.
  cbn [RoadmapDetail.userProgress RoadmapDetail.updatedProgress
       completed_steps].
  rewrite !orb_false_r.
  split; [|split; (split; [reflexivity|]; split; [|reflexivity])].
  - unfold toggled_steps. cbn [requests].
    rewrite <- app_assoc, flat_map_app. reflexivity.
  - now apply includes_other_step.
  - apply includes_other_step. intros E. now apply Hab.
Qed.

Lemma overlapping_toggles_last_settled_wins_witness :
  toggled_steps
    (RoadmapDetail.world
       (RoadmapDetail.run
          (sample_sys ["a"; "b"] [] (JFin 0) [ok_response; ok_response])
          [RoadmapDetail.Press "a"; RoadmapDetail.Press "b"]))
  = [("a", true); ("b", true)] /\
  RoadmapDetail.userProgress
    (RoadmapDetail.screen
       (RoadmapDetail.run
          (sample_sys ["a"; "b"] [] (JFin 0) [ok_response; ok_response])
          [RoadmapDetail.Press "a"; RoadmapDetail.Press "b";
           RoadmapDetail.Settle 0; RoadmapDetail.Settle 0]))
  = Some (sample_progress ["b"] (JFin 50)) /\
  RoadmapDetail.userProgress
    (RoadmapDetail.screen
       (RoadmapDetail.run
          (sample_sys ["a"; "b"] [] (JFin 0) [ok_response; ok_response])
          [RoadmapDetail.Press "a"; RoadmapDetail.Press "b";
           RoadmapDetail.Settle 1; RoadmapDetail.Settle 0]))
  = Some (sample_progress ["a"] (JFin 50)).
Proof.
  destruct (@overlapping_toggles_last_settled_wins
              (sample_sys ["a"; "b"] [] (JFin 0) [ok_response; ok_response])
              (sample_roadmap ["a"; "b"]) (sample_progress [] (JFin 0))
              "a" "b" (DDetail None) (DDetail None) [])
    as (Hlog & (Hfirst & _) & (Hsecond & _)); try reflexivity.
  - cbn. now left.
  - cbn. right. now left.
  - discriminate.
  - split; [exact Hlog|]. split; [rewrite Hfirst | rewrite Hsecond];
      reflexivity.
Defined.

(** X26: The header of the screen never counts more completed steps than the
    roadmap has steps: from an idle screen whose record fits the roadmap,
    whatever its stored percentage, through any presses and any settling of
    their requests, in any order and with any outcome. *)
Theorem displayed_count_within_total r sys events :
  RoadmapDetail.roadmap (RoadmapDetail.screen sys) = Some r ->
  RoadmapDetail.inflight sys = [] ->
  (forall up,
      RoadmapDetail.userProgress (RoadmapDetail.screen sys) = Some up ->
      well_formed r up) ->
  RoadmapDetail.completedSteps
    (RoadmapDetail.screen (RoadmapDetail.run sys events))
  <= length (steps r).
Proof.
  intros Hr Hin Hup. unfold RoadmapDetail.completedSteps.
  destruct (RoadmapDetail.userProgress
              (RoadmapDetail.screen (RoadmapDetail.run sys events)))
    as [up|] eqn:E; cbn; [|lia].
  assert (H : sys_fits r sys).
  { split; [exact Hr|]. split; [exact Hup|]. rewrite Hin. constructor. }
  destruct (reachable_records_fit events H E) as (_ & Hnd & Hincl).
  pose proof (distinct_ids_bound Hnd Hincl) as Hb.
  unfold step_ids in Hb. rewrite length_map in Hb.
  destruct (negb (length (completed_steps up) =? 0)%nat); lia.
Qed.

Lemma displayed_count_within_total_witness :
  RoadmapDetail.completedSteps
    (RoadmapDetail.screen
       (RoadmapDetail.run
          (sample_sys ["a"; "b"] ["a"] (JFin 250)
                      [ok_response; NetThrow; ok_response])
          [RoadmapDetail.Press "a"; RoadmapDetail.Press "b";
           RoadmapDetail.Press "a"; RoadmapDetail.Settle 1;
           RoadmapDetail.Settle 0; RoadmapDetail.Settle 0]))
  <= length (steps (sample_roadmap ["a"; "b"])).
Proof.
  apply (@displayed_count_within_total
           (sample_roadmap ["a"; "b"])
           (sample_sys ["a"; "b"] ["a"] (JFin 250)
                       [ok_response; NetThrow; ok_response]));
    try reflexivity.
  intros up [= <-]. split; [|split].
  - repeat constructor; cbn; intuition discriminate.
  - repeat constructor; cbn; intuition.
  - intros s [<- | []]. now left.
Defined.

(** ** Roadmap screen: resources *)

Lemma substring_all s : substring 0 (String.length s) s = s.
Proof. induction s as [|c s IH]; cbn; [reflexivity | now rewrite IH]. Qed.

Lemma substring_length_le n m s :
  String.length (substring n m s) <= String.length s.
Proof.
  revert n m. induction s as [|c s IH]; intros n m.
  - destruct n, m; cbn; lia.
  - destruct n; cbn.
    + destruct m; cbn; [lia|]. specialize (IH 0 m). lia.
    + specialize (IH n m). lia.
Qed.

(** X27: A resource is shown without its scheme: for a link that starts with
    ["https://"] or ["http://"] the text is the rest of the link; and the
    text shown is never longer than the link. *)
Theorem resource_shown_without_scheme s :
  RoadmapDetail.displayResource ("https://" ++ s) = s /\
  RoadmapDetail.displayResource ("http://" ++ s) = s /\
  String.length (RoadmapDetail.displayResource s) <= String.length s.
Proof.
  assert (Hpre : prefix "" s = true) by now destruct s.
  split; [|split].
  - cbn. rewrite Hpre, Nat.sub_0_r. apply substring_all.
  - cbn. rewrite Hpre, Nat.sub_0_r. apply substring_all.
  - clear Hpre. induction s as [|c s IH]; [cbn; lia|].
    cbn [RoadmapDetail.displayResource].
    destruct (prefix "https://" (String c s)); [apply substring_length_le|].
    destruct (prefix "http://" (String c s)); [apply substring_length_le|].
    cbn [String.length]. lia.
Qed.
